(** * eeg_cleaner: the rejection log and its reconciliation

    A shallow embedding of [cleaner/io.py] and [cleaner/applier.py].

    - JSON values are trees; a Python [dict] is an insertion-ordered
      association list with string keys.  The values in memory are the
      JSON values and, besides, Python objects that [json] cannot write.
    - Python's [==], [in] and item access are written out on JSON values,
      with the exception each one raises.
    - The file system is a finite map from paths to nodes; every function
      that touches it is a computation in a state-and-exception monad.
    - A dict returned by [logs[kind].get(fname, {})] is either the very
      object stored inside [logs] or a new dict; that difference (aliasing)
      is kept by a [handle]. *)

From Stdlib Require Import QArith.
From stdpp Require Import gmap strings list.

Local Open Scope string_scope.
Local Open Scope list_scope.
#[local] Set Warnings "-register-all".

(** ** JSON values *)

(** The values the two modules handle: what [json.load] builds, and
    [PyObj n], an object of a class that [json] does not know (the object
    made by the [n]-th call of [object()], say): it is equal to itself
    only, it can be hashed, it is no number and no container, and
    [json.dump] raises [TypeError] on it. *)
Inductive json : Type :=
| JNull
| JBool (b : bool)
| JNum (q : Q)
| JStr (s : string)
| JArr (l : list json)
| JObj (d : list (string * json))
| PyObj (n : nat).

Abbreviation dict := (list (string * json)).

(** Numbers are the finite Python numbers ([int] and [float]), each taken as
    the rational it denotes; [nan] and the infinities are left out. *)
Definition JInt (z : Z) : json := JNum (inject_Z z).
Definition JNat (n : nat) : json := JInt (Z.of_nat n).

(** The values [json.dump] can write: those without a [PyObj]. *)
Fixpoint serialisable (j : json) : bool :=
  match j with
  | PyObj _ => false
  | JArr l => forallb serialisable l
  | JObj d => forallb (fun kv => serialisable (snd kv)) d
  | _ => true
  end.

(** ** Python dicts *)

Module Dict.

Fixpoint get (k : string) (d : dict) : option json :=
  match d with
  | [] => None
  | (k', v) :: d' => if String.eqb k k' then Some v else get k d'
  end.

(** [d[k] = v]: the value is replaced in place when the key exists,
    a new entry goes last otherwise. *)
Fixpoint set (k : string) (v : json) (d : dict) : dict :=
  match d with
  | [] => [(k, v)]
  | (k', v') :: d' =>
      if String.eqb k k' then (k, v) :: d' else (k', v') :: set k v d'
  end.

Definition mem (k : string) (d : dict) : bool :=
  match get k d with Some _ => true | None => false end.

(** [d.get(k, dflt)] *)
Definition get_default (k : string) (dflt : json) (d : dict) : json :=
  match get k d with Some v => v | None => dflt end.

End Dict.

(** ** Python equality and membership on JSON values *)

(** The number a value compares as: [True == 1] and [False == 0]. *)
Definition as_number (v : json) : option Q :=
  match v with
  | JNum q => Some q
  | JBool b => Some (if b then 1%Q else 0%Q)
  | _ => None
  end.

(** [a == b].  Numbers compare by value, lists element by element, dicts by
    their entries whatever the order. *)
Fixpoint py_eq (a b : json) {struct a} : bool :=
  match a, b with
  | JNull, JNull => true
  | JStr s, JStr t => String.eqb s t
  | JArr l, JArr m =>
      (fix go (l m : list json) {struct l} : bool :=
         match l, m with
         | [], [] => true
         | x :: l', y :: m' => py_eq x y && go l' m'
         | _, _ => false
         end) l m
  | JObj d, JObj e =>
      Nat.eqb (length d) (length e) &&
      (fix go (d : dict) {struct d} : bool :=
         match d with
         | [] => true
         | (k, v) :: d' =>
             match Dict.get k e with
             | Some w => py_eq v w && go d'
             | None => false
             end
         end) d
  | (JNum _ | JBool _), (JNum _ | JBool _) =>
      match as_number a, as_number b with
      | Some p, Some q => Qeq_bool p q
      | _, _ => false
      end
  | PyObj n, PyObj m => Nat.eqb n m
  | _, _ => false
  end.

(** Values that can be put in a [set] or used as a dict key. *)
Definition hashable (v : json) : bool :=
  match v with
  | JArr _ | JObj _ => false
  | _ => true
  end.

(** [x in l] for a list [l]. *)
Definition py_in (x : json) (l : list json) : bool :=
  existsb (fun y => py_eq y x) l.

(** [needle in hay] for two strings. *)
Fixpoint is_prefix (p s : string) : bool :=
  match p, s with
  | EmptyString, _ => true
  | String a p', String b s' => Ascii.eqb a b && is_prefix p' s'
  | String _ _, EmptyString => false
  end.

Fixpoint is_substring (needle hay : string) : bool :=
  is_prefix needle hay ||
  match hay with
  | EmptyString => false
  | String _ hay' => is_substring needle hay'
  end.

(** ** Exceptions *)

(** The [raise ValueError(...)] statements of the two modules, one
    constructor per statement (messages are not kept). *)
Inductive value_error : Type :=
| BadKind            (* is_cleaned: kind is none of raws, epochs, icas *)
| MissingLog         (* reject: required, and no eeg_cleaner.json *)
| Mismatch_tmin
| Mismatch_tmax
| Mismatch_events
| Mismatch_ch_names
| Mismatch_fit_params
| Mismatch_n_components
| Mismatch_highpass
| Mismatch_lowpass
| Mismatch_sfreq.

Inductive exn : Type :=
| ValueError (w : value_error)
| KeyError
| TypeError
| AttributeError
| IndexError
| OSError            (* open() failed *)
| JSONDecodeError
| Unmodelled.        (* numpy on data that is not an array of numbers *)

(** The parameter-mismatch failures among the [ValueError]s. *)
Definition is_mismatch (e : exn) : bool :=
  match e with
  | ValueError BadKind | ValueError MissingLog => false
  | ValueError _ => true
  | _ => false
  end.

Inductive res (A : Type) : Type :=
| Ok (a : A)
| Raise (e : exn).
Arguments Ok {A} a.
Arguments Raise {A} e.

#[global] Instance res_ret : MRet res := fun _ a => Ok a.
#[global] Instance res_bind : MBind res := fun _ _ f m =>
  match m with
  | Ok a => f a
  | Raise e => Raise e
  end.

(** [v[k]] for a string [k]: only a dict can be indexed by a string. *)
Definition getitem (v : json) (k : string) : res json :=
  match v with
  | JObj d => match Dict.get k d with Some x => Ok x | None => Raise KeyError end
  | _ => Raise TypeError
  end.

(** [v[k] = x] *)
Definition setitem (k : string) (x : json) (v : json) : res json :=
  match v with
  | JObj d => Ok (JObj (Dict.set k x d))
  | _ => Raise TypeError
  end.

(** [v.get(k, dflt)]: only dicts have a [get] method. *)
Definition py_get (v : json) (k : string) (dflt : json) : res json :=
  match v with
  | JObj d => Ok (Dict.get_default k dflt d)
  | _ => Raise AttributeError
  end.

(** [x in c] *)
Definition py_contains (c x : json) : res bool :=
  match c with
  | JObj d =>
      match x with
      | JStr k => Ok (Dict.mem k d)
      | JArr _ | JObj _ => Raise TypeError   (* unhashable *)
      | _ => Ok false                        (* the keys are strings *)
      end
  | JArr l => Ok (py_in x l)
  | JStr s =>
      match x with
      | JStr t => Ok (is_substring t s)
      | _ => Raise TypeError
      end
  | _ => Raise TypeError
  end.

(** [x + y] where [y] is a list *)
Definition py_add_list (x : json) (y : list json) : res (list json) :=
  match x with
  | JArr l => Ok (l ++ y)
  | _ => Raise TypeError
  end.

(** [list(set(l))].  Python enumerates a set in the order of its hash table;
    the model keeps the first occurrence of each value, and no statement
    below depends on the order. *)
Fixpoint dedup_py (l : list json) : list json :=
  match l with
  | [] => []
  | x :: l' => x :: List.filter (fun y => negb (py_eq y x)) (dedup_py l')
  end.

Definition py_list_set (l : list json) : res (list json) :=
  if forallb hashable l then Ok (dedup_py l) else Raise TypeError.

(** ** Paths and the file system *)

Abbreviation path := (list string).

(** [p.parent], [p.name] and [p / s] of [pathlib]; the empty list is the
    root (or the working directory of a relative path), its own parent. *)
Definition parent (p : path) : path := removelast p.
Definition name (p : path) : string := List.last p "".
Definition joinpath (p : path) (s : string) : path := p ++ [s].

(** What a regular file holds: a JSON text (given by the value it parses
    to, which is also what [json.dump] of that value writes), or anything
    [json.load] refuses. *)
Inductive fdata : Type :=
| JsonText (j : json)
| Junk.

Inductive node : Type :=
| Dir
| File (c : fdata).

Abbreviation fsys := (gmap path node).

(** Only a value that [json.dump] can write has a JSON text: a file that is
    said to hold the text of another value is a file that is not JSON. *)
Definition content (c : fdata) : fdata :=
  match c with
  | JsonText j => if serialisable j then JsonText j else Junk
  | Junk => Junk
  end.

Definition node_at (fs : fsys) (p : path) : option node :=
  match p with
  | [] => Some Dir
  | _ =>
      match fs !! p with
      | Some (File c) => Some (File (content c))
      | n => n
      end
  end.

Definition is_file (fs : fsys) (p : path) : bool :=
  match node_at fs p with Some (File _) => true | _ => false end.

Definition is_dir (fs : fsys) (p : path) : bool :=
  match node_at fs p with Some Dir => true | _ => false end.

Definition exists_ (fs : fsys) (p : path) : bool :=
  match node_at fs p with Some _ => true | None => false end.

(** ** Computations on the file system that may raise *)

Definition io (A : Type) : Type := fsys -> res A * fsys.

#[global] Instance io_ret : MRet io := fun _ a fs => (Ok a, fs).
#[global] Instance io_bind : MBind io := fun _ _ f m fs =>
  match m fs with
  | (Ok a, fs') => f a fs'
  | (Raise e, fs') => (Raise e, fs')
  end.

Definition lift {A : Type} (r : res A) : io A := fun fs => (r, fs).
Definition ask {A : Type} (f : fsys -> A) : io A := fun fs => (Ok (f fs), fs).

(** [with open(p, "r") as f: json.load(f)] *)
Definition load (p : path) : io json := fun fs =>
  match node_at fs p with
  | Some (File (JsonText j)) => (Ok j, fs)
  | Some (File Junk) => (Raise JSONDecodeError, fs)
  | _ => (Raise OSError, fs)
  end.

(** [with open(p, "w") as f: json.dump(v, f)].  [open] fails on a
    directory and where the containing directory is missing; otherwise it
    makes the file, or empties the one that is there, before anything is
    encoded.  [json.dump] then writes the text piece by piece and raises
    [TypeError] at the first value it cannot encode: what is left is a text
    cut short (nothing at all when the value itself is refused), which is
    not JSON.  Access rights are not modelled. *)
Definition dump (p : path) (v : json) : io unit := fun fs =>
  if is_dir fs p then (Raise OSError, fs)
  else if is_dir fs (parent p) then
    if serialisable v then (Ok tt, <[p := File (JsonText v)]> fs)
    else (Raise TypeError, <[p := File Junk]> fs)
  else (Raise OSError, fs).

(** ** cleaner/io.py *)

Definition json_name : string := "eeg_cleaner.json".

Definition _get_json_fname (fs : fsys) (p : path) : path :=
  let p := if is_file fs p then parent p else p in
  joinpath p json_name.

(** The contents of the log a path resolves to, when it is there and is
    JSON. *)
Definition stored_log (fs : fsys) (p : path) : option json :=
  match node_at fs (_get_json_fname fs p) with
  | Some (File (JsonText j)) => Some j
  | _ => None
  end.

Section LogStore.

(** What [_get_git_hash()] returns: the revision of the running code,
    asked from git, taken here as given. *)
Variable git_hash : string.

(** [if k not in logs: logs[k] = {}] on a dict *)
Definition default_key (k : string) (v : json) (d : dict) : dict :=
  if Dict.mem k d then d else Dict.set k v d.

(** Lines 61-77 of [read_log], and again 90-106 of [save_log]: the three
    mappings and [config] are put in when absent; a [config] that is there
    is only read, for the warning.  On anything but a dict one of the
    membership tests, item assignments or item reads raises [TypeError]. *)
Definition fill_defaults (logs : json) : res json :=
  match logs with
  | JObj d =>
      let d := default_key "raws" (JObj []) d in
      let d := default_key "epochs" (JObj []) d in
      let d := default_key "icas" (JObj []) d in
      if Dict.mem "config" d then
        config ← getitem (JObj d) "config";
        prev_hash ← getitem config "version";
        (* a differing version is logged as a warning *)
        Ok (JObj d)
      else
        Ok (JObj (Dict.set "config" (JObj [("version", JStr git_hash)]) d))
  | _ => Raise TypeError
  end.

(** [save_log] completes the dict it is given (the caller's object) and
    writes it; the completed dict is returned to stand for that object. *)
Definition save_log (p : path) (logs : json) : io json :=
  json_fname ← ask (fun fs => _get_json_fname fs p);
  logs ← lift (fill_defaults logs);
  _ ← dump json_fname logs;
  mret logs.

Definition read_log (p : path) : io json :=
  json_fname ← ask (fun fs => _get_json_fname fs p);
  present ← ask (fun fs => exists_ fs json_fname);
  logs ← (if present : bool then load json_fname else mret (JObj []));
  logs ← lift (fill_defaults logs);
  save_log p logs.

End LogStore.

(** ** The artifacts (what the two modules use of the MNE objects) *)

(** [mne.io.BaseRaw]: [filenames], [info["bads"]].  What an artifact gives
    to the log is a value in memory: it may hold objects that [json.dump]
    cannot write. *)
Record raw : Type := {
  raw_filenames : list path;
  raw_bads : list json;
}.

(** [mne.BaseEpochs].  [events] holds the onset sample (column 0) of each
    epoch still in the object and [selection] its original index, position
    by position; [drop_log] has one tuple of reasons per original epoch,
    empty for an epoch that is kept.  [len(epochs)] is the number of
    events. *)
Record epochs : Type := {
  ep_filename : option path;
  ep_tmin : Q;
  ep_tmax : Q;
  ep_events : list Z;
  ep_selection : list nat;
  ep_drop_log : list (list string);
  ep_bads : list json;
}.

(** [mne.preprocessing.ICA]. *)
Record ica : Type := {
  ica_ch_names : list string;
  ica_fit_params : dict;
  ica_n_components : json;
  ica_highpass : Q;
  ica_lowpass : Q;
  ica_sfreq : Q;
  ica_exclude : json;
}.

(** The [isinstance] dispatch of [update_log] and [reject]. *)
Inductive inst : Type :=
| Raw (r : raw)
| Epochs (e : epochs)
| ICA (i : ica)
| Other.

Definition num_of_nat (n : nat) : Q := inject_Z (Z.of_nat n).

(** ** Parameter checks *)

(** Membership of a number in a numpy array or a list of numbers. *)
Definition num_in (x : Q) (l : list Q) : bool := existsb (Qeq_bool x) l.

(** The array numpy makes of a JSON value, for a flat list of numbers. *)
Definition as_numbers (v : json) : res (list Q) :=
  match v with
  | JArr l =>
      mapM (fun x => match as_number x with
                     | Some q => Ok q
                     | None => Raise Unmodelled
                     end) l
  | _ => Raise Unmodelled
  end.

(** [np.intersect1d(a, b)]: the values of [a] that are in [b] (numpy sorts
    them and drops repetitions; only membership in the result is used). *)
Definition intersect1d (a b : list Q) : list Q :=
  List.filter (fun x => num_in x b) a.

(** [[this_events[i] for i, x in enumerate(this_selection) if x in inter]] *)
Fixpoint events_to_check (this_events : list Z) (inter : list Q)
    (i : nat) (this_selection : list nat) : res (list Z) :=
  match this_selection with
  | [] => Ok []
  | x :: rest =>
      if num_in (num_of_nat x) inter then
        match this_events !! i with
        | Some ev => (tl ← events_to_check this_events inter (S i) rest; Ok (ev :: tl))
        | None => Raise IndexError
        end
      else events_to_check this_events inter (S i) rest
  end.

(** [all(x in prev_events for x in to_check)] *)
Fixpoint all_in (prev_events : json) (to_check : list Z) : res bool :=
  match to_check with
  | [] => Ok true
  | x :: rest =>
      b ← py_contains prev_events (JInt x);
      if b : bool then all_in prev_events rest else Ok false
  end.

(** [t_log.get("selection", np.arange(len(epochs)))], as the array that
    [np.intersect1d] makes of it. *)
Definition prev_selection (e : epochs) (t_log : dict) : res (list Q) :=
  match Dict.get "selection" t_log with
  | Some v => as_numbers v
  | None => Ok (num_of_nat <$> seq 0 (length (ep_events e)))
  end.

Definition epochs_params (e : epochs) : json :=
  JObj [("tmin", JNum (ep_tmin e));
        ("tmax", JNum (ep_tmax e));
        ("events", JArr (JInt <$> ep_events e))].

(** The dict [t_log] is changed in place when it has no [params]; the
    function gives the dict as it is afterwards.  A [t_log] that is not a
    dict fails with [TypeError] at the membership test, at the item
    assignment or at the item read. *)
Definition _check_epochs_params (e : epochs) (t_log : json) : res json :=
  match t_log with
  | JObj d =>
      if negb (Dict.mem "params" d) then
        Ok (JObj (Dict.set "params" (epochs_params e) d))
      else
        params ← getitem t_log "params";
        tmin ← getitem params "tmin";
        if negb (py_eq (JNum (ep_tmin e)) tmin) then
          Raise (ValueError Mismatch_tmin)
        else
        tmax ← getitem params "tmax";
        if negb (py_eq (JNum (ep_tmax e)) tmax) then
          Raise (ValueError Mismatch_tmax)
        else
        let this_selection := ep_selection e in
        prev_selection ← prev_selection e d;
        let inter := intersect1d (num_of_nat <$> this_selection) prev_selection in
        to_check ← events_to_check (ep_events e) inter 0 this_selection;
        prev_events ← getitem params "events";
        ok ← all_in prev_events to_check;
        if ok : bool then Ok t_log else Raise (ValueError Mismatch_events)
  | _ => Raise TypeError
  end.

Definition ica_params (i : ica) : json :=
  JObj [("ch_names", JArr (JStr <$> ica_ch_names i));
        ("fit_params", JObj (ica_fit_params i));
        ("n_components", ica_n_components i);
        ("highpass", JNum (ica_highpass i));
        ("lowpass", JNum (ica_lowpass i));
        ("sfreq", JNum (ica_sfreq i))].

(** [if value != t_log["params"][field]: raise ValueError(...)] *)
Definition check_field (params : json) (field : string) (value : json)
    (w : value_error) : res unit :=
  stored ← getitem params field;
  if negb (py_eq value stored) then Raise (ValueError w) else Ok tt.

Definition _check_ica_params (i : ica) (t_log : json) : res json :=
  match t_log with
  | JObj d =>
      if negb (Dict.mem "params" d) then
        Ok (JObj (Dict.set "params" (ica_params i) d))
      else
        params ← getitem t_log "params";
        _ ← check_field params "ch_names" (JArr (JStr <$> ica_ch_names i)) Mismatch_ch_names;
        _ ← check_field params "fit_params" (JObj (ica_fit_params i)) Mismatch_fit_params;
        _ ← check_field params "n_components" (ica_n_components i) Mismatch_n_components;
        _ ← check_field params "highpass" (JNum (ica_highpass i)) Mismatch_highpass;
        _ ← check_field params "lowpass" (JNum (ica_lowpass i)) Mismatch_lowpass;
        _ ← check_field params "sfreq" (JNum (ica_sfreq i)) Mismatch_sfreq;
        Ok t_log
  | _ => Raise TypeError
  end.

(** ** Records shared between [logs] and [t_log] *)

(** [json.load] builds a tree of dicts, so a dict inside [logs] is named by
    the keys that lead to it.  [t_log = logs[kind].get(fname, {})] is the
    stored record itself when [fname] is a key of the mapping, and every
    assignment through [t_log] is then an assignment inside [logs]; it is a
    new dict, known to [t_log] alone, otherwise. *)
Inductive handle : Type :=
| Stored (kind fname : string)
| Fresh (d : json).

Definition get_record (logs : json) (kind fname : string) : res handle :=
  mapping ← getitem logs kind;
  match mapping with
  | JObj d => Ok (if Dict.mem fname d then Stored kind fname
                  else Fresh (JObj []))
  | _ => Raise AttributeError
  end.

(** The dict a handle stands for. *)
Definition deref (logs : json) (t_log : handle) : res json :=
  match t_log with
  | Fresh d => Ok d
  | Stored kind fname => mapping ← getitem logs kind; getitem mapping fname
  end.

(** A statement [f] that changes the dict behind [t_log] in place: the
    change shows in [logs] when the dict is stored there. *)
Definition in_place (f : json -> res json) (logs : json) (t_log : handle)
    : res (json * handle) :=
  match t_log with
  | Fresh d => d' ← f d; Ok (logs, Fresh d')
  | Stored kind fname =>
      mapping ← getitem logs kind;
      record ← getitem mapping fname;
      record' ← f record;
      mapping' ← setitem fname record' mapping;
      logs' ← setitem kind mapping' logs;
      Ok (logs', t_log)
  end.

(** [if fname not in logs[kind]: logs[kind][fname] = t_log] *)
Definition link_if_absent (logs : json) (kind fname : string)
    (t_log : handle) : res json :=
  mapping ← getitem logs kind;
  present ← py_contains mapping (JStr fname);
  if present : bool then Ok logs
  else
    record ← deref logs t_log;
    mapping' ← setitem fname record mapping;
    setitem kind mapping' logs.

(** [inst.filenames[0].name] *)
Definition raw_fname (r : raw) : res string :=
  match raw_filenames r with
  | f :: _ => Ok (name f)
  | [] => Raise IndexError
  end.

(** [inst.filename.name]; the attribute is [None] for epochs that were not
    read from a file. *)
Definition epochs_fname (e : epochs) : res string :=
  match ep_filename e with
  | Some f => Ok (name f)
  | None => Raise AttributeError
  end.

(** The list [dropped] of [update_log], which is logged and not stored. *)
Definition dropped (e : epochs) : list nat :=
  (fun ix => fst ix) <$>
    List.filter (fun ix : nat * list string =>
                   existsb (String.eqb "Inspection") (snd ix)
                   || existsb (String.eqb "USER") (snd ix))
                (imap pair (ep_drop_log e)).

(** ** cleaner/io.py: [update_log] *)

(** The [if]/[elif] chain of [update_log], on the mapping [read_log] gave. *)
Definition record_decision (p : path) (i : inst) (logs : json) : res json :=
  match i with
  | Raw r =>
      fname ← raw_fname r;
      t_log ← get_record logs "raws" fname;
      '(logs, t_log) ← in_place (setitem "bads" (JArr (raw_bads r))) logs t_log;
      link_if_absent logs "raws" fname t_log
  | Epochs e =>
      fname ← epochs_fname e;
      t_log ← get_record logs "epochs" fname;
      '(logs, t_log) ← in_place (_check_epochs_params e) logs t_log;
      '(logs, t_log) ← in_place (setitem "bads" (JArr (ep_bads e))) logs t_log;
      '(logs, t_log) ←
        in_place (setitem "selection" (JArr (JNat <$> ep_selection e))) logs t_log;
      link_if_absent logs "epochs" fname t_log
  | ICA c =>
      let fname := name p in
      t_log ← get_record logs "icas" fname;
      '(logs, t_log) ← in_place (_check_ica_params c) logs t_log;
      '(logs, t_log) ← in_place (setitem "exclude" (ica_exclude c)) logs t_log;
      link_if_absent logs "icas" fname t_log
  | Other => Ok logs
  end.

Definition update_log (git_hash : string) (p : path) (i : inst) : io unit :=
  logs ← read_log git_hash p;
  logs ← lift (record_decision p i logs);
  _ ← save_log git_hash p logs;
  mret tt.

(** ** cleaner/applier.py *)

(** The elements of a list whose position passes [keep]; [k] is the
    position of the head. *)
Fixpoint keep_from {A : Type} (keep : nat -> bool) (k : nat) (l : list A) : list A :=
  match l with
  | [] => []
  | x :: rest =>
      if keep k then x :: keep_from keep (S k) rest
      else keep_from keep (S k) rest
  end.

Definition keep_at {A : Type} (keep : nat -> bool) (l : list A) : list A :=
  keep_from keep 0 l.

(** [drop_log[k] = (reason,)] for each [k] of [gone] *)
Fixpoint mark_dropped (reason : string) (gone : list nat)
    (drop_log : list (list string)) : res (list (list string)) :=
  match gone with
  | [] => Ok drop_log
  | k :: rest =>
      if Nat.ltb k (length drop_log)
      then mark_dropped reason rest (<[k := [reason]]> drop_log)
      else Raise IndexError
  end.

(** [inst.drop(indices, reason)] of MNE, the one capability of the epochs
    object that [reject] calls: the epochs at the given positions leave
    [events] and [selection], and the drop log keeps the reason at their
    original indices.  A position past the last epoch is an [IndexError]. *)
Definition drop (e : epochs) (indices : list nat) (reason : string) : res epochs :=
  if forallb (fun k => Nat.ltb k (length (ep_events e))) indices then
    let keep := fun k => negb (existsb (Nat.eqb k) indices) in
    let gone := keep_at (fun k => negb (keep k)) (ep_selection e) in
    drop_log ← mark_dropped reason gone (ep_drop_log e);
    Ok {| ep_filename := ep_filename e;
          ep_tmin := ep_tmin e;
          ep_tmax := ep_tmax e;
          ep_events := keep_at keep (ep_events e);
          ep_selection := keep_at keep (ep_selection e);
          ep_drop_log := drop_log;
          ep_bads := ep_bads e |}
  else Raise IndexError.

(** [[x for x in inst.selection if x not in prev_selection]]; the numpy
    integers of [selection] compare as Python integers. *)
Fixpoint to_drop (prev_selection : json) (selection : list nat) : res (list nat) :=
  match selection with
  | [] => Ok []
  | x :: rest =>
      b ← py_contains prev_selection (JNat x);
      tl ← to_drop prev_selection rest;
      Ok (if b : bool then tl else x :: tl)
  end.

(** The loop over [enumerate(inst.drop_log)]: [cur_idx] counts the epochs
    with an empty drop log met so far. *)
Fixpoint drop_idx (to_drop : list nat) (drop_log : list (list string))
    (i_epoch cur_idx : nat) : list nat :=
  match drop_log with
  | [] => []
  | dlog :: rest =>
      if Nat.eqb (length dlog) 0 then
        (if existsb (Nat.eqb i_epoch) to_drop then [cur_idx] else [])
        ++ drop_idx to_drop rest (S i_epoch) (S cur_idx)
      else drop_idx to_drop rest (S i_epoch) cur_idx
  end.

(** [mix_bads = list(set(old_bads + inst.info["bads"]))] *)
Definition mix_bads (t_log : json) (bads : list json) : res (list json) :=
  old_bads ← py_get t_log "bads" (JArr []);
  both ← py_add_list old_bads bads;
  py_list_set both.

Definition set_raw_bads (r : raw) (bads : list json) : raw :=
  {| raw_filenames := raw_filenames r; raw_bads := bads |}.

Definition set_epochs_bads (e : epochs) (bads : list json) : epochs :=
  {| ep_filename := ep_filename e; ep_tmin := ep_tmin e; ep_tmax := ep_tmax e;
     ep_events := ep_events e; ep_selection := ep_selection e;
     ep_drop_log := ep_drop_log e; ep_bads := bads |}.

Definition set_exclude (c : ica) (exclude : json) : ica :=
  {| ica_ch_names := ica_ch_names c; ica_fit_params := ica_fit_params c;
     ica_n_components := ica_n_components c; ica_highpass := ica_highpass c;
     ica_lowpass := ica_lowpass c; ica_sfreq := ica_sfreq c;
     ica_exclude := exclude |}.

Definition kinds : list string := ["raws"; "epochs"; "icas"].

(** The [if]/[elif] chain of [reject]: the artifact as it is returned. *)
Definition apply_decision (p : path) (i : inst) (logs : json) : res inst :=
  match i with
  | Raw r =>
      fname ← raw_fname r;
      t_log ← get_record logs "raws" fname;
      record ← deref logs t_log;
      bads ← mix_bads record (raw_bads r);
      Ok (Raw (set_raw_bads r bads))
  | Epochs e =>
      fname ← epochs_fname e;
      t_log ← get_record logs "epochs" fname;
      '(logs, t_log) ← in_place (_check_epochs_params e) logs t_log;
      record ← deref logs t_log;
      bads ← mix_bads record (ep_bads e);
      let e := set_epochs_bads e bads in
      prev_selection ← py_get record "selection" (JArr (JNat <$> ep_selection e));
      to_drop ← to_drop prev_selection (ep_selection e);
      let drop_idx := drop_idx to_drop (ep_drop_log e) 0 0 in
      e ← drop e drop_idx "Inspection";
      Ok (Epochs e)
  | ICA c =>
      let fname := name p in
      t_log ← get_record logs "icas" fname;
      '(logs, t_log) ← in_place (_check_ica_params c) logs t_log;
      record ← deref logs t_log;
      exclude ← py_get record "exclude" (JArr []);
      Ok (ICA (set_exclude c exclude))
  | Other => Ok Other
  end.

Section Applier.

Variable git_hash : string.

Definition is_cleaned (p : path) (kind : string) : io bool :=
  if negb (existsb (String.eqb kind) kinds) then lift (Raise (ValueError BadKind))
  else
    json_fname ← ask (fun fs => _get_json_fname fs p);
    present ← ask (fun fs => exists_ fs json_fname);
    if negb present then mret false
    else
      logs ← read_log git_hash (parent p);
      t_log ← lift (getitem logs kind);
      found ← lift (py_contains t_log (JStr (name p)));
      if negb found then mret false else mret true.

Definition reject (p : path) (i : inst) (required : bool) : io inst :=
  json_fname ← ask (fun fs => _get_json_fname fs p);
  present ← ask (fun fs => exists_ fs json_fname);
  if negb present && required then lift (Raise (ValueError MissingLog))
  else
    logs ← read_log git_hash p;
    lift (apply_decision p i logs).

End Applier.

(** ** What the statements below speak of *)

(** [logs[kind][fname]], when both keys are there. *)
Definition record_of (logs : json) (kind fname : string) : option json :=
  match logs with
  | JObj d =>
      match Dict.get kind d with
      | Some (JObj m) => Dict.get fname m
      | _ => None
      end
  | _ => None
  end.

(** The record on disk for [fname] under [kind], in the log of [p]. *)
Definition stored_record (fs : fsys) (p : path) (kind fname : string) : option json :=
  j ← stored_log fs p; record_of j kind fname.

(** The [params] snapshot of a record that is held in the file [f]. *)
Definition snapshot_at (fs : fsys) (f : path) (kind fname : string) : option json :=
  match node_at fs f with
  | Some (File (JsonText j)) =>
      match record_of j kind fname with
      | Some (JObj rec) => Dict.get "params" rec
      | _ => None
      end
  | _ => None
  end.

(** A mapping with the four top-level keys and a version in [config]. *)
Definition complete (logs : json) : bool :=
  match logs with
  | JObj d =>
      Dict.mem "raws" d && Dict.mem "epochs" d && Dict.mem "icas" d &&
      match Dict.get "config" d with
      | Some (JObj c) => Dict.mem "version" c
      | _ => false
      end
  | _ => false
  end.

(** A JSON object whose [config], when it has one, is an object with a
    [version]: the files on which [fill_defaults] does not raise. *)
Definition loadable (logs : json) : bool :=
  match logs with
  | JObj d =>
      match Dict.get "config" d with
      | None => true
      | Some (JObj c) => Dict.mem "version" c
      | Some _ => false
      end
  | _ => false
  end.

(** The mapping [read_log] makes where there is no log. *)
Definition empty_schema (git_hash : string) : json :=
  JObj [("raws", JObj []); ("epochs", JObj []); ("icas", JObj []);
        ("config", JObj [("version", JStr git_hash)])].

(** What [read_log] starts from: the file's JSON, or [{}] without a file. *)
Definition log_source (fs : fsys) (json_fname : path) : res json :=
  fst ((if exists_ fs json_fname then load json_fname else mret (JObj [])) fs).

(** The mapping a kind of artifact is recorded in, and under which name. *)
Definition target (p : path) (i : inst) : res (string * string) :=
  match i with
  | Raw r => fname ← raw_fname r; Ok ("raws", fname)
  | Epochs e => fname ← epochs_fname e; Ok ("epochs", fname)
  | ICA _ => Ok ("icas", name p)
  | Other => Raise TypeError
  end.

(** The assignments [update_log] makes through [t_log], in their order. *)
Definition recorded (i : inst) (t_log : json) : res json :=
  match i with
  | Raw r => setitem "bads" (JArr (raw_bads r)) t_log
  | Epochs e =>
      t_log ← _check_epochs_params e t_log;
      t_log ← setitem "bads" (JArr (ep_bads e)) t_log;
      setitem "selection" (JArr (JNat <$> ep_selection e)) t_log
  | ICA c =>
      t_log ← _check_ica_params c t_log;
      setitem "exclude" (ica_exclude c) t_log
  | Other => Ok t_log
  end.

(** What [reject] makes of the artifact, given the dict [t_log]. *)
Definition applied (i : inst) (t_log : json) : res inst :=
  match i with
  | Raw r =>
      bads ← mix_bads t_log (raw_bads r);
      Ok (Raw (set_raw_bads r bads))
  | Epochs e =>
      t_log ← _check_epochs_params e t_log;
      bads ← mix_bads t_log (ep_bads e);
      let e := set_epochs_bads e bads in
      prev_selection ← py_get t_log "selection" (JArr (JNat <$> ep_selection e));
      to_drop ← to_drop prev_selection (ep_selection e);
      e ← drop e (drop_idx to_drop (ep_drop_log e) 0 0) "Inspection";
      Ok (Epochs e)
  | ICA c =>
      t_log ← _check_ica_params c t_log;
      exclude ← py_get t_log "exclude" (JArr []);
      Ok (ICA (set_exclude c exclude))
  | Other => Ok Other
  end.

(** [logs] once [logs[kind][fname]] is the dict [record]. *)
Definition commit (logs : json) (kind fname : string) (record : json) : json :=
  match logs with
  | JObj d =>
      match Dict.get kind d with
      | Some (JObj m) => JObj (Dict.set kind (JObj (Dict.set fname record m)) d)
      | _ => logs
      end
  | _ => logs
  end.

(** The original indices whose drop log is empty, in their order: for an
    MNE epochs object this is [selection].  [i] is the index of the head. *)
Fixpoint kept_from (i : nat) (drop_log : list (list string)) : list nat :=
  match drop_log with
  | [] => []
  | dlog :: rest =>
      if Nat.eqb (length dlog) 0 then i :: kept_from (S i) rest
      else kept_from (S i) rest
  end.

Definition kept_indices (drop_log : list (list string)) : list nat :=
  kept_from 0 drop_log.

(** [x in prev_selection] as [reject] evaluates it, [false] where it raises. *)
Definition in_selection (prev_selection : json) (x : nat) : bool :=
  match py_contains prev_selection (JNat x) with
  | Ok b => b
  | Raise _ => false
  end.



(** The dict [reject] and [update_log] start from: the record on disk, an
    empty dict when the filename has none. *)
Definition record_or_empty (fs : fsys) (p : path) (kind fname : string) : json :=
  match stored_record fs p kind fname with
  | Some record => record
  | None => JObj []
  end.

(** The entries of a record that hold the reviewer's decision. *)
Definition decision_fields (i : inst) : list (string * json) :=
  match i with
  | Raw r => [("bads", JArr (raw_bads r))]
  | Epochs e => [("bads", JArr (ep_bads e));
                 ("selection", JArr (JNat <$> ep_selection e))]
  | ICA c => [("exclude", ica_exclude c)]
  | Other => []
  end.

(** The fields of a snapshot that are compared for equality, with the value
    the artifact has for each. *)
Definition checked_fields (i : inst) : list (string * json) :=
  match i with
  | Epochs e => [("tmin", JNum (ep_tmin e)); ("tmax", JNum (ep_tmax e))]
  | ICA c => [("ch_names", JArr (JStr <$> ica_ch_names c));
              ("fit_params", JObj (ica_fit_params c));
              ("n_components", ica_n_components c);
              ("highpass", JNum (ica_highpass c));
              ("lowpass", JNum (ica_lowpass c));
              ("sfreq", JNum (ica_sfreq c))]
  | _ => []
  end.

(** The snapshot has every checked field. *)
Definition has_fields (i : inst) (params : dict) : bool :=
  forallb (fun kv => Dict.mem (fst kv) params) (checked_fields i).

(** The artifact differs ([!=]) from the snapshot on a checked field. *)
Definition disagrees (i : inst) (params : dict) : bool :=
  existsb (fun kv => match Dict.get (fst kv) params with
                     | Some stored => negb (py_eq (snd kv) stored)
                     | None => false
                     end) (checked_fields i).

(** Every [params] snapshot of [j] is a snapshot of [j'], for the same
    kind and filename. *)
Definition keeps_snapshots (j j' : json) : Prop :=
  forall kind fname d s,
    record_of j kind fname = Some (JObj d) -> Dict.get "params" d = Some s ->
    exists d', record_of j' kind fname = Some (JObj d') /\
               Dict.get "params" d' = Some s.

(** Every snapshot on the disk [fs] is on the disk [fs'], in the same file. *)
Definition snapshots_kept (fs fs' : fsys) : Prop :=
  forall f kind fname s,
    snapshot_at fs f kind fname = Some s -> snapshot_at fs' f kind fname = Some s.

(** Two decompositions that differ in nothing but, possibly, [exclude]. *)
Definition same_but_exclude (c c' : ica) : Prop :=
  ica_ch_names c' = ica_ch_names c /\
  ica_fit_params c' = ica_fit_params c /\
  ica_n_components c' = ica_n_components c /\
  ica_highpass c' = ica_highpass c /\
  ica_lowpass c' = ica_lowpass c /\
  ica_sfreq c' = ica_sfreq c.

(** Two epochs objects that differ in nothing but, possibly, [bads]. *)
Definition same_but_bads (e e' : epochs) : Prop :=
  ep_filename e' = ep_filename e /\
  ep_tmin e' = ep_tmin e /\ ep_tmax e' = ep_tmax e /\
  ep_events e' = ep_events e /\
  ep_selection e' = ep_selection e /\
  ep_drop_log e' = ep_drop_log e.

(** Whether the log of [p] has a record for [fname] under [kind]. *)
Definition has_record (fs : fsys) (p : path) (kind fname : string) : bool :=
  match stored_record fs p kind fname with
  | Some _ => true
  | None => false
  end.

(** The record [update_log] makes for a filename that has none: the
    parameters of the artifact, for the kinds that have any, and the
    decision. *)
Definition new_record (i : inst) : json :=
  match i with
  | Raw r => JObj [("bads", JArr (raw_bads r))]
  | Epochs e =>
      JObj [("params", epochs_params e);
            ("bads", JArr (ep_bads e));
            ("selection", JArr (JNat <$> ep_selection e))]
  | ICA c => JObj [("params", ica_params c); ("exclude", ica_exclude c)]
  | Other => JObj []
  end.

(** No two values of the list are equal ([==]). *)
Fixpoint py_distinct (l : list json) : bool :=
  match l with
  | [] => true
  | x :: rest => forallb (fun y => negb (py_eq y x)) rest && py_distinct rest
  end.

(** The channels flagged in an artifact. *)
Definition bads_of (i : inst) : list json :=
  match i with
  | Raw r => raw_bads r
  | Epochs e => ep_bads e
  | _ => []
  end.

(** A Python dict holds each key once; an association list does so when
    no key comes back further on.  [json_wf] asks it of every dict inside a
    value. *)
Fixpoint unique_keys (d : dict) : bool :=
  match d with
  | [] => true
  | (k, _) :: d' => negb (Dict.mem k d') && unique_keys d'
  end.

Fixpoint json_wf (j : json) : bool :=
  match j with
  | JArr l => forallb json_wf l
  | JObj d => unique_keys d && forallb (fun kv => json_wf (snd kv)) d
  | _ => true
  end.

(** ** A directory to run the functions in *)

Module Ex.

Definition rev : string := "abc1234".
Definition dir : path := ["data"].
Definition log_path : path := ["data"; "eeg_cleaner.json"].
Definition raw_path : path := ["data"; "sub1-raw.fif"].
Definition epo_path : path := ["data"; "sub1-epo.fif"].
Definition ica_path : path := ["data"; "sub1-ica.fif"].

(** The directory with three artifacts and no log. *)
Definition disk0 : fsys :=
  {[ dir := Dir; raw_path := File Junk; epo_path := File Junk;
     ica_path := File Junk ]}.

(** The same directory with a log that holds [j]. *)
Definition with_log (j : json) : fsys := <[log_path := File (JsonText j)]> disk0.

Definition empty_log : json :=
  JObj [("raws", JObj []); ("epochs", JObj []); ("icas", JObj []);
        ("config", JObj [("version", JStr rev)])].

Definition log_of (kind fname : string) (record : json) : json :=
  commit empty_log kind fname record.

Definition raw_with (bads : list string) : raw :=
  {| raw_filenames := [raw_path]; raw_bads := JStr <$> bads |}.

(** Six epochs, none dropped. *)
Definition epochs6 (tmin : Q) : epochs :=
  {| ep_filename := Some epo_path;
     ep_tmin := tmin;
     ep_tmax := 1;
     ep_events := [100; 200; 300; 400; 500; 600]%Z;
     ep_selection := [0; 1; 2; 3; 4; 5];
     ep_drop_log := [[]; []; []; []; []; []];
     ep_bads := [] |}.

(** The record of a review that kept the epochs 0, 2 and 4. *)
Definition epochs_record : json :=
  JObj [("params", epochs_params (epochs6 (-2 # 10)));
        ("bads", JArr []);
        ("selection", JArr [JNat 0; JNat 2; JNat 4])].

Definition ica2 (exclude : list nat) : ica :=
  {| ica_ch_names := ["Cz"; "Fz"];
     ica_fit_params := [("extended", JBool true)];
     ica_n_components := JInt 2;
     ica_highpass := 1;
     ica_lowpass := 40;
     ica_sfreq := 250;
     ica_exclude := JArr (JNat <$> exclude) |}.

(** The record of a review that excluded the components 1 and 3. *)
Definition ica_record : json :=
  JObj [("params", ica_params (ica2 [])); ("exclude", JArr [JNat 1; JNat 3])].

(** The same decomposition, whose [exclude] holds an object that [json]
    cannot write. *)
Definition ica_opaque : ica :=
  {| ica_ch_names := ["Cz"; "Fz"];
     ica_fit_params := [("extended", JBool true)];
     ica_n_components := JInt 2;
     ica_highpass := 1;
     ica_lowpass := 40;
     ica_sfreq := 250;
     ica_exclude := JArr [PyObj 0] |}.

End Ex.

(** * Properties *)

(** A run, from its result and the disk it leaves. *)
Lemma run_eq {A : Type} (x : res A * fsys) (r : res A) :
  fst x = r -> x = (r, snd x).
Proof. destruct x. by intros <-. Qed.

(** Case analysis on every step of a computation that may raise. *)
Ltac unbind := unfold mbind, mret, res_bind, res_ret in *.
Ltac res_cases := unbind; repeat case_match; simplify_eq; try done.

(** ** Dicts *)

Module DictFacts.

Lemma get_set_eq k v d : Dict.get k (Dict.set k v d) = Some v.
Proof.
  induction d as [|[k' v'] d IH]; simpl.
  - by rewrite String.eqb_refl.
  - destruct (String.eqb k k') eqn:E; simpl; rewrite ?String.eqb_refl, ?E; done.
Qed.

Lemma get_set_ne k k' v d : k <> k' -> Dict.get k' (Dict.set k v d) = Dict.get k' d.
Proof.
  intros Hne. induction d as [|[k2 v2] d IH]; simpl.
  - destruct (String.eqb k' k) eqn:E; [|done].
    apply String.eqb_eq in E. congruence.
  - destruct (String.eqb k k2) eqn:E; simpl.
    + apply String.eqb_eq in E. subst k2.
      destruct (String.eqb k' k) eqn:E'; [|done].
      apply String.eqb_eq in E'. congruence.
    + by rewrite IH.
Qed.

Lemma get_set k k' v d :
  Dict.get k' (Dict.set k v d) = if String.eqb k' k then Some v else Dict.get k' d.
Proof.
  destruct (String.eqb k' k) eqn:E.
  - apply String.eqb_eq in E. subst. apply get_set_eq.
  - apply String.eqb_neq in E. apply get_set_ne. congruence.
Qed.

Lemma set_id k v d : Dict.get k d = Some v -> Dict.set k v d = d.
Proof.
  induction d as [|[k' v'] d IH]; simpl; [done|].
  destruct (String.eqb k k') eqn:E.
  - apply String.eqb_eq in E. intros [= ->]. by subst.
  - intros H. by rewrite IH.
Qed.

Lemma set_set k v w d : Dict.set k v (Dict.set k w d) = Dict.set k v d.
Proof.
  induction d as [|[k' v'] d IH]; simpl.
  - by rewrite String.eqb_refl.
  - destruct (String.eqb k k') eqn:E; simpl; rewrite ?String.eqb_refl, ?E, ?IH; done.
Qed.

Lemma mem_set k k' v d :
  Dict.mem k' (Dict.set k v d) = String.eqb k' k || Dict.mem k' d.
Proof.
  unfold Dict.mem. rewrite get_set. by destruct (String.eqb k' k).
Qed.

Lemma mem_get k d : Dict.mem k d = true <-> is_Some (Dict.get k d).
Proof.
  unfold Dict.mem. destruct (Dict.get k d); split; intros H; done.
Qed.

End DictFacts.

(** ** Values that [json.dump] can write *)

Lemma serialisable_get d k v :
  serialisable (JObj d) = true -> Dict.get k d = Some v -> serialisable v = true.
Proof.
  simpl. induction d as [|[k' v'] d IH]; simpl; [done|].
  intros [H1 H2]%andb_prop. destruct (String.eqb k k'); [|eauto].
  by intros [= <-].
Qed.

Lemma serialisable_set d k v :
  serialisable (JObj d) = true -> serialisable v = true ->
  serialisable (JObj (Dict.set k v d)) = true.
Proof.
  simpl. intros Hd Hv. induction d as [|[k' v'] d IH]; simpl.
  - by rewrite Hv.
  - simpl in Hd. apply andb_prop in Hd as [H1 H2].
    destruct (String.eqb k k'); simpl.
    + by rewrite Hv, H2.
    + by rewrite H1, IH.
Qed.

(** ** Completing the mapping *)

Section FillDefaults.

Variable git_hash : string.

Lemma default_key_get k v d k' :
  Dict.get k' (default_key k v d) =
  match Dict.get k' d with
  | Some x => Some x
  | None => if String.eqb k' k then Some v else None
  end.
Proof.
  unfold default_key, Dict.mem.
  destruct (Dict.get k d) eqn:E.
  - destruct (Dict.get k' d) eqn:E'; [done|].
    destruct (String.eqb k' k) eqn:Ek; [|done].
    apply String.eqb_eq in Ek. congruence.
  - rewrite DictFacts.get_set.
    destruct (String.eqb k' k) eqn:Ek; [|by destruct (Dict.get k' d)].
    apply String.eqb_eq in Ek. subst. by rewrite E.
Qed.

Lemma default_key_id k v d : Dict.mem k d = true -> default_key k v d = d.
Proof. unfold default_key. by intros ->. Qed.

Lemma default_key_mem k v d k' :
  Dict.mem k' (default_key k v d) = Dict.mem k' d || String.eqb k' k.
Proof.
  unfold Dict.mem at 1 2. rewrite default_key_get.
  destruct (Dict.get k' d); [done|]. by destruct (String.eqb k' k).
Qed.

(** A complete mapping is left as it is. *)
Lemma fill_defaults_complete logs :
  complete logs = true -> fill_defaults git_hash logs = Ok logs.
Proof.
  destruct logs as [| | | | |d|]; simpl; try done.
  intros H. repeat (apply andb_prop in H as [H ?]).
  rewrite (default_key_id "raws"), (default_key_id "epochs"),
    (default_key_id "icas") by done.
  destruct (Dict.get "config" d) as [[| | | | |c|]|] eqn:Ec; try done.
  unfold Dict.mem at 1. rewrite Ec. simpl.
  apply DictFacts.mem_get in H0 as [x Hx]. by rewrite Hx.
Qed.

(** What comes out has the four keys and a version. *)
Lemma fill_defaults_is_complete logs logs' :
  fill_defaults git_hash logs = Ok logs' -> complete logs' = true.
Proof.
  destruct logs as [| | | | |d|]; simpl; try done.
  set (d3 := default_key "icas" _ _).
  assert (H3 : Dict.mem "raws" d3 && Dict.mem "epochs" d3 && Dict.mem "icas" d3 = true).
  { unfold d3. rewrite !default_key_mem. simpl.
    by repeat (destruct (Dict.mem _ d)). }
  destruct (Dict.mem "config" d3) eqn:Ec.
  - unfold Dict.mem in Ec. simpl.
    destruct (Dict.get "config" d3) as [cfg|] eqn:Eg; [|done]. simpl.
    destruct cfg as [| | | | |c|]; simpl; try done.
    destruct (Dict.get "version" c) eqn:Ev; simpl; [|done].
    intros [= <-]. simpl. rewrite H3, Eg. unfold Dict.mem. by rewrite Ev.
  - intros [= <-]. simpl.
    rewrite !DictFacts.mem_set, DictFacts.get_set_eq. simpl.
    apply andb_prop in H3 as [H3 ?]. apply andb_prop in H3 as [? ?].
    by repeat (rewrite (proj2 (andb_true_iff _ _)); [|split; try done]).
Qed.

(** Every entry of the mapping that goes in is in what comes out. *)
Lemma fill_defaults_keeps d logs' k v :
  fill_defaults git_hash (JObj d) = Ok logs' ->
  Dict.get k d = Some v ->
  exists d', logs' = JObj d' /\ Dict.get k d' = Some v.
Proof.
  simpl. set (d3 := default_key "icas" _ _). intros H Hk.
  assert (H3 : Dict.get k d3 = Some v).
  { unfold d3. rewrite !default_key_get. by rewrite Hk. }
  destruct (Dict.mem "config" d3) eqn:Ec.
  - res_cases; eauto.
  - injection H as <-. eexists; split; [done|].
    rewrite DictFacts.get_set.
    destruct (String.eqb k "config") eqn:Ek; [|done].
    apply String.eqb_eq in Ek. subst. unfold Dict.mem in Ec. by rewrite H3 in Ec.
Qed.

(** The three mappings of what comes out: those of what went in, an empty
    one where there was none. *)
Lemma fill_defaults_mapping d logs' kind :
  fill_defaults git_hash (JObj d) = Ok logs' ->
  kind ∈ kinds ->
  getitem logs' kind = Ok (Dict.get_default kind (JObj []) d).
Proof.
  simpl. set (d3 := default_key "icas" _ _). intros H Hk.
  assert (H3 : Dict.get kind d3 = Some (Dict.get_default kind (JObj []) d)).
  { unfold d3, Dict.get_default. rewrite !default_key_get.
    destruct (Dict.get kind d); [done|].
    unfold kinds in Hk. set_unfold. by destruct Hk as [->|[->|[->|[]]]]. }
  assert (Hc : kind <> "config").
  { unfold kinds in Hk. set_unfold. by destruct Hk as [->|[->|[->|[]]]]. }
  destruct (Dict.mem "config" d3) eqn:Ec.
  - res_cases. simpl. by rewrite H3.
  - injection H as <-. simpl. rewrite DictFacts.get_set_ne by done. by rewrite H3.
Qed.

(** It raises on nothing that is [loadable]. *)
Lemma fill_defaults_loadable logs :
  loadable logs = true -> exists logs', fill_defaults git_hash logs = Ok logs'.
Proof.
  destruct logs as [| | | | |d|]; simpl; try done.
  set (d3 := default_key "icas" _ _). intros H.
  assert (H3 : Dict.get "config" d3 = Dict.get "config" d).
  { unfold d3. rewrite !default_key_get. by destruct (Dict.get "config" d). }
  unfold Dict.mem at 1. rewrite H3.
  destruct (Dict.get "config" d) as [[| | | | |c|]|] eqn:Ec; try done; [|eauto].
  simpl. apply DictFacts.mem_get in H as [x ->]. simpl. eauto.
Qed.

Lemma default_key_serialisable k d :
  serialisable (JObj d) = true ->
  serialisable (JObj (default_key k (JObj []) d)) = true.
Proof.
  intros H. unfold default_key. destruct (Dict.mem k d); [done|].
  by apply serialisable_set.
Qed.

(** Completing a mapping that can be written gives one that can. *)
Lemma fill_defaults_serialisable logs logs' :
  fill_defaults git_hash logs = Ok logs' ->
  serialisable logs = true -> serialisable logs' = true.
Proof.
  destruct logs as [| | | | |d|]; try done. cbn [fill_defaults]. intros H Hs.
  assert (H3 : serialisable (JObj (default_key "icas" (JObj [])
                 (default_key "epochs" (JObj [])
                    (default_key "raws" (JObj []) d)))) = true)
    by (by do 3 apply default_key_serialisable).
  revert H. destruct (Dict.mem "config" _).
  - intros H. res_cases.
  - intros [= <-]. by apply serialisable_set.
Qed.

End FillDefaults.

(** ** Reading and saving the log *)

Ltac io_unfold :=
  unfold mbind, mret, io_bind, io_ret, lift, ask in *.

Lemma parent_joinpath b s : parent (joinpath b s) = b.
Proof. apply removelast_last. Qed.

Lemma joinpath_nonempty b s : joinpath b s <> [].
Proof. unfold joinpath. by destruct b. Qed.

Lemma joinpath_neq b s : joinpath b s <> b.
Proof.
  unfold joinpath. intros H. apply (f_equal length) in H.
  rewrite length_app in H. simpl in H. lia.
Qed.

(** A file that reads as the text of [j] holds it, and [j] can be written. *)
Lemma node_at_json fs f j :
  node_at fs f = Some (File (JsonText j)) ->
  f <> [] /\ fs !! f = Some (File (JsonText j)) /\ serialisable j = true.
Proof.
  destruct f as [|s f]; [done|]. cbn [node_at].
  destruct (fs !! (s :: f)) as [[|[j'|]]|]; try done. cbn [content].
  destruct (serialisable j') eqn:E; [|done]. by intros [= <-].
Qed.

Lemma node_at_insert_ne fs f n q :
  q <> f -> node_at (<[f := n]> fs) q = node_at fs q.
Proof.
  intros Hne. destruct q as [|s q]; [done|]. cbn [node_at].
  by rewrite lookup_insert_ne.
Qed.

Lemma node_at_insert fs f n q :
  f <> [] ->
  node_at (<[f := n]> fs) q
  = if decide (q = f)
    then Some (match n with File c => File (content c) | Dir => Dir end)
    else node_at fs q.
Proof.
  intros Hf. destruct (decide (q = f)) as [->|Hne].
  - destruct f as [|s f]; [done|]. cbn [node_at]. rewrite lookup_insert_eq.
    by destruct n.
  - by apply node_at_insert_ne.
Qed.

(** Writing the log a path resolves to does not change what the path
    resolves to. *)
Lemma get_json_fname_written fs p c :
  _get_json_fname (<[_get_json_fname fs p := File c]> fs) p = _get_json_fname fs p.
Proof.
  assert (Hf : is_file (<[_get_json_fname fs p := File c]> fs) p = is_file fs p).
  { unfold is_file at 1. rewrite node_at_insert
      by (unfold _get_json_fname; apply joinpath_nonempty).
    destruct (decide (p = _get_json_fname fs p)) as [E|]; [|done].
    unfold _get_json_fname in E.
    destruct (is_file fs p) eqn:Ef; [done|].
    by apply symmetry, joinpath_neq in E. }
  unfold _get_json_fname at 1 3. by rewrite Hf.
Qed.

Lemma dump_eq f v fs :
  dump f v fs =
  if is_dir fs f then (Raise OSError, fs)
  else if is_dir fs (parent f) then
    if serialisable v then (Ok tt, <[f := File (JsonText v)]> fs)
    else (Raise TypeError, <[f := File Junk]> fs)
  else (Raise OSError, fs).
Proof. done. Qed.

Lemma log_source_eq fs f :
  log_source fs f =
  match node_at fs f with
  | Some (File (JsonText j)) => Ok j
  | Some (File Junk) => Raise JSONDecodeError
  | Some Dir => Raise OSError
  | None => Ok (JObj [])
  end.
Proof.
  unfold log_source, exists_, load. by repeat case_match.
Qed.

(** What [read_log] starts from can be written. *)
Lemma log_source_serialisable fs f j :
  log_source fs f = Ok j -> serialisable j = true.
Proof.
  rewrite log_source_eq.
  destruct (node_at fs f) as [[|[j'|]]|] eqn:En; try done.
  - intros [= <-]. by apply node_at_json in En as (_ & _ & ?).
  - by intros [= <-].
Qed.

Section ReadSave.

Variable git_hash : string.

Lemma save_log_eq p logs fs :
  save_log git_hash p logs fs =
  match fill_defaults git_hash logs with
  | Raise e => (Raise e, fs)
  | Ok logs' =>
      match dump (_get_json_fname fs p) logs' fs with
      | (Ok _, fs') => (Ok logs', fs')
      | (Raise e, fs') => (Raise e, fs')
      end
  end.
Proof.
  unfold save_log. io_unfold.
  by destruct (fill_defaults git_hash logs).
Qed.

(** [read_log] only ever writes a mapping that it has read, completed: the
    write cannot fail on the value. *)
Lemma read_log_eq p fs :
  read_log git_hash p fs =
  match log_source fs (_get_json_fname fs p) with
  | Raise e => (Raise e, fs)
  | Ok j0 =>
      match fill_defaults git_hash j0 with
      | Raise e => (Raise e, fs)
      | Ok logs =>
          if is_dir fs (_get_json_fname fs p) then (Raise OSError, fs)
          else if is_dir fs (parent (_get_json_fname fs p))
          then (Ok logs, <[_get_json_fname fs p := File (JsonText logs)]> fs)
          else (Raise OSError, fs)
      end
  end.
Proof.
  destruct (log_source fs (_get_json_fname fs p)) as [j0|e] eqn:Es.
  - pose proof (log_source_serialisable _ _ _ Es) as Hser.
    revert Es. unfold read_log, log_source. io_unfold.
    set (f := _get_json_fname fs p).
    assert (Hload : forall r fs', load f fs = (r, fs') -> fs' = fs).
    { unfold load. intros r fs'. repeat case_match; by intros [= _ <-]. }
    destruct (exists_ fs f).
    + destruct (load f fs) as [[j1|e] fs'] eqn:El;
        pose proof (Hload _ _ eq_refl) as ->; cbn [fst]; [|done].
      intros [= ->].
      destruct (fill_defaults git_hash j0) as [logs|e] eqn:Ef; [|done].
      rewrite save_log_eq.
      rewrite (fill_defaults_complete git_hash logs)
        by (by eapply fill_defaults_is_complete).
      rewrite dump_eq, (fill_defaults_serialisable _ _ _ Ef Hser).
      subst f. by repeat destruct (is_dir _ _).
    + cbn [fst]. intros [= <-].
      destruct (fill_defaults git_hash (JObj [])) as [logs|e] eqn:Ef; [|done].
      rewrite save_log_eq.
      rewrite (fill_defaults_complete git_hash logs)
        by (by eapply fill_defaults_is_complete).
      rewrite dump_eq, (fill_defaults_serialisable _ _ _ Ef Hser).
      subst f. by repeat destruct (is_dir _ _).
  - revert Es. unfold read_log, log_source. io_unfold.
    set (f := _get_json_fname fs p).
    assert (Hload : forall r fs', load f fs = (r, fs') -> fs' = fs).
    { unfold load. intros r fs'. repeat case_match; by intros [= _ <-]. }
    destruct (exists_ fs f).
    + destruct (load f fs) as [[j1|e'] fs'] eqn:El;
        pose proof (Hload _ _ eq_refl) as ->; cbn [fst]; [done|].
      by intros [= ->].
    + done.
Qed.

(** [read_log] writes one file at most: the log the path resolves to, with
    the mapping it returns. *)
Lemma read_log_Ok p fs logs fs' :
  read_log git_hash p fs = (Ok logs, fs') ->
  exists j0,
    log_source fs (_get_json_fname fs p) = Ok j0 /\
    fill_defaults git_hash j0 = Ok logs /\
    is_dir fs (parent (_get_json_fname fs p)) = true /\
    fs' = <[_get_json_fname fs p := File (JsonText logs)]> fs.
Proof.
  rewrite read_log_eq. intros H.
  destruct (log_source _ _) as [j0|]; [|done].
  destruct (fill_defaults _ _) as [l|] eqn:E; [|done].
  exists j0. repeat case_match; simplify_eq. done.
Qed.

(** The mapping [read_log] returns can be written. *)
Lemma read_log_serialisable p fs logs fs' :
  read_log git_hash p fs = (Ok logs, fs') -> serialisable logs = true.
Proof.
  intros (j0 & Hs & Hf & _)%read_log_Ok.
  eapply fill_defaults_serialisable; [done|].
  by eapply log_source_serialisable.
Qed.

Lemma read_log_Raise p fs e fs' :
  read_log git_hash p fs = (Raise e, fs') -> fs' = fs.
Proof.
  rewrite read_log_eq. intros H.
  destruct (log_source _ _) as [j0|]; [|by simplify_eq].
  destruct (fill_defaults _ _) as [l|] eqn:E; [|by simplify_eq].
  by repeat case_match; simplify_eq.
Qed.

(** Where the log is there and complete, reading leaves the disk alone. *)
Lemma read_log_complete p fs j :
  stored_log fs p = Some j ->
  complete j = true ->
  is_dir fs (parent (_get_json_fname fs p)) = true ->
  read_log git_hash p fs = (Ok j, fs).
Proof.
  unfold stored_log. intros Hs Hc Hd.
  rewrite read_log_eq, log_source_eq.
  destruct (node_at fs (_get_json_fname fs p)) as [[|[j'|]]|] eqn:En; try done.
  injection Hs as ->.
  rewrite (fill_defaults_complete _ _ Hc). unfold is_dir in *.
  rewrite En, Hd.
  f_equal. apply insert_id. by apply node_at_json in En as (_ & ? & _).
Qed.

(** After a successful read the log holds the mapping that was returned,
    and that mapping is complete. *)
Lemma read_log_stored p fs logs fs' :
  read_log git_hash p fs = (Ok logs, fs') ->
  stored_log fs' p = Some logs /\ complete logs = true /\
  _get_json_fname fs' p = _get_json_fname fs p /\
  is_dir fs' (parent (_get_json_fname fs' p)) = true.
Proof.
  intros H. pose proof (read_log_serialisable _ _ _ _ H) as Hser.
  apply read_log_Ok in H as (j0 & Hs & Hf & Hd & ->).
  assert (Hn : _get_json_fname fs p <> [])
    by (unfold _get_json_fname; apply joinpath_nonempty).
  unfold stored_log. rewrite get_json_fname_written.
  rewrite node_at_insert by done. rewrite decide_True by done.
  cbn [content]. rewrite Hser.
  repeat split; [by eapply fill_defaults_is_complete|].
  unfold is_dir in *. rewrite node_at_insert by done.
  case_decide as E; [|done].
  unfold _get_json_fname in E. rewrite parent_joinpath in E.
  by apply symmetry, joinpath_neq in E.
Qed.

(** [save_log] writes one file: the log, with the completed mapping. *)
Lemma save_log_Ok p logs fs logs' fs' :
  save_log git_hash p logs fs = (Ok logs', fs') ->
  fill_defaults git_hash logs = Ok logs' /\
  serialisable logs' = true /\
  is_dir fs (parent (_get_json_fname fs p)) = true /\
  fs' = <[_get_json_fname fs p := File (JsonText logs')]> fs.
Proof.
  rewrite save_log_eq. destruct (fill_defaults _ _) as [l|]; [|done].
  rewrite dump_eq. intros H. by repeat case_match; simplify_eq.
Qed.

(** Saving the mapping that the log holds, when it is complete, leaves the
    disk alone. *)
Lemma save_log_stored p fs j :
  stored_log fs p = Some j ->
  complete j = true ->
  is_dir fs (parent (_get_json_fname fs p)) = true ->
  save_log git_hash p j fs = (Ok j, fs).
Proof.
  unfold stored_log. intros Hs Hc Hd. rewrite save_log_eq.
  destruct (node_at fs (_get_json_fname fs p)) as [[|[j'|]]|] eqn:En; try done.
  injection Hs as ->. apply node_at_json in En as En'.
  destruct En' as (_ & Hraw & Hser).
  rewrite (fill_defaults_complete _ _ Hc), dump_eq. unfold is_dir in *.
  rewrite En, Hd, Hser. f_equal. by apply insert_id.
Qed.

End ReadSave.

(** ** The record behind [t_log] *)

Section Handles.

Variables (d m : dict) (kind fname : string).
Hypothesis Hkind : Dict.get kind d = Some (JObj m).

Lemma commit_eq record :
  commit (JObj d) kind fname record =
  JObj (Dict.set kind (JObj (Dict.set fname record m)) d).
Proof. unfold commit. by rewrite Hkind. Qed.

Lemma commit_stored record :
  Dict.get fname m = Some record -> commit (JObj d) kind fname record = JObj d.
Proof.
  intros H. rewrite commit_eq.
  rewrite (DictFacts.set_id fname record m H).
  by rewrite (DictFacts.set_id kind (JObj m) d Hkind).
Qed.

Lemma get_record_eq :
  get_record (JObj d) kind fname =
  Ok (if Dict.mem fname m then Stored kind fname else Fresh (JObj [])).
Proof. unfold get_record. simpl. by rewrite Hkind. Qed.

Lemma deref_stored record :
  deref (commit (JObj d) kind fname record) (Stored kind fname) = Ok record.
Proof.
  rewrite commit_eq. simpl.
  by rewrite DictFacts.get_set_eq; simpl; rewrite DictFacts.get_set_eq.
Qed.

(** An in-place change of a stored record is a change of [logs]. *)
Lemma in_place_stored f record :
  in_place f (commit (JObj d) kind fname record) (Stored kind fname) =
  (record' ← f record; Ok (commit (JObj d) kind fname record', Stored kind fname)).
Proof.
  rewrite commit_eq. simpl.
  rewrite DictFacts.get_set_eq; simpl; rewrite DictFacts.get_set_eq; simpl.
  destruct (f record) as [record'|]; simpl; [|done].
  by rewrite Hkind, !DictFacts.set_set.
Qed.

Lemma in_place_stored_first f record :
  Dict.get fname m = Some record ->
  in_place f (JObj d) (Stored kind fname) =
  (record' ← f record; Ok (commit (JObj d) kind fname record', Stored kind fname)).
Proof.
  intros H. rewrite <- (in_place_stored f record).
  by rewrite (commit_stored record H).
Qed.

Lemma deref_stored_first record :
  Dict.get fname m = Some record ->
  deref (JObj d) (Stored kind fname) = Ok record.
Proof.
  intros H. rewrite <- (deref_stored record).
  by rewrite (commit_stored record H).
Qed.

Lemma in_place_fresh f logs record :
  in_place f logs (Fresh record) =
  (record' ← f record; Ok (logs, Fresh record')).
Proof. done. Qed.

Lemma link_stored record :
  link_if_absent (commit (JObj d) kind fname record) kind fname (Stored kind fname)
  = Ok (commit (JObj d) kind fname record).
Proof.
  rewrite commit_eq. unfold link_if_absent. simpl.
  rewrite DictFacts.get_set_eq; simpl.
  by rewrite DictFacts.mem_set, String.eqb_refl.
Qed.

Lemma link_fresh record :
  Dict.mem fname m = false ->
  link_if_absent (JObj d) kind fname (Fresh record) =
  Ok (commit (JObj d) kind fname record).
Proof.
  intros H. rewrite commit_eq. unfold link_if_absent. simpl.
  rewrite Hkind; simpl. by rewrite H.
Qed.

End Handles.

(** Whether [t_log] is the stored record or a new dict, [update_log] ends
    with [logs[kind][fname]] being the dict the assignments have made. *)
Lemma record_decision_eq p i logs :
  record_decision p i logs =
  match i with
  | Other => Ok logs
  | _ =>
      '(kind, fname) ← target p i;
      mapping ← getitem logs kind;
      match mapping with
      | JObj m =>
          record ← recorded i (Dict.get_default fname (JObj []) m);
          Ok (commit logs kind fname record)
      | _ => Raise AttributeError
      end
  end.
Proof.
  destruct i as [r|e|c|]; [| | |done]; cbn [record_decision target recorded].
  - destruct (raw_fname r) as [fname|]; [|done]. cbn [mbind res_bind].
    destruct logs as [| | | | |d|]; try done.
    unfold get_record at 1. cbn [getitem].
    destruct (Dict.get "raws" d) as [mapping|] eqn:Hk; [|done]. cbn [mbind res_bind].
    destruct mapping as [| | | | |m|]; try done.
    unfold Dict.get_default, Dict.mem.
    destruct (Dict.get fname m) as [rec|] eqn:Hf.
    + cbn [mbind res_bind].
      rewrite (in_place_stored_first d m "raws" fname Hk _ rec Hf).
      destruct (setitem _ _ rec) as [rec'|]; [|done]. cbn [mbind res_bind].
      by rewrite (link_stored d m "raws" fname Hk).
    + cbn [mbind res_bind]. rewrite in_place_fresh.
      destruct (setitem _ _ (JObj [])) as [rec'|]; [|done]. cbn [mbind res_bind].
      rewrite (link_fresh d m "raws" fname Hk); [done|].
      unfold Dict.mem. by rewrite Hf.
  - destruct (epochs_fname e) as [fname|]; [|done]. cbn [mbind res_bind].
    destruct logs as [| | | | |d|]; try done.
    unfold get_record at 1. cbn [getitem].
    destruct (Dict.get "epochs" d) as [mapping|] eqn:Hk; [|done]. cbn [mbind res_bind].
    destruct mapping as [| | | | |m|]; try done.
    unfold Dict.get_default, Dict.mem.
    destruct (Dict.get fname m) as [rec|] eqn:Hf.
    + cbn [mbind res_bind].
      rewrite (in_place_stored_first d m "epochs" fname Hk _ rec Hf).
      destruct (_check_epochs_params e rec) as [rec1|]; [|done]. cbn [mbind res_bind].
      rewrite (in_place_stored d m "epochs" fname Hk).
      destruct (setitem _ _ rec1) as [rec2|]; [|done]. cbn [mbind res_bind].
      rewrite (in_place_stored d m "epochs" fname Hk).
      destruct (setitem _ _ rec2) as [rec3|]; [|done]. cbn [mbind res_bind].
      by rewrite (link_stored d m "epochs" fname Hk).
    + cbn [mbind res_bind]. rewrite in_place_fresh.
      destruct (_check_epochs_params e (JObj [])) as [rec1|]; [|done].
      cbn [mbind res_bind]. rewrite in_place_fresh.
      destruct (setitem _ _ rec1) as [rec2|]; [|done]. cbn [mbind res_bind].
      rewrite in_place_fresh.
      destruct (setitem _ _ rec2) as [rec3|]; [|done]. cbn [mbind res_bind].
      rewrite (link_fresh d m "epochs" fname Hk); [done|].
      unfold Dict.mem. by rewrite Hf.
  - cbn [mbind res_bind]. set (fname := name p).
    destruct logs as [| | | | |d|]; try done.
    unfold get_record at 1. cbn [getitem].
    destruct (Dict.get "icas" d) as [mapping|] eqn:Hk; [|done]. cbn [mbind res_bind].
    destruct mapping as [| | | | |m|]; try done.
    unfold Dict.get_default, Dict.mem.
    destruct (Dict.get fname m) as [rec|] eqn:Hf.
    + cbn [mbind res_bind].
      rewrite (in_place_stored_first d m "icas" fname Hk _ rec Hf).
      destruct (_check_ica_params c rec) as [rec1|]; [|done]. cbn [mbind res_bind].
      rewrite (in_place_stored d m "icas" fname Hk).
      destruct (setitem _ _ rec1) as [rec2|]; [|done]. cbn [mbind res_bind].
      by rewrite (link_stored d m "icas" fname Hk).
    + cbn [mbind res_bind]. rewrite in_place_fresh.
      destruct (_check_ica_params c (JObj [])) as [rec1|]; [|done].
      cbn [mbind res_bind]. rewrite in_place_fresh.
      destruct (setitem _ _ rec1) as [rec2|]; [|done]. cbn [mbind res_bind].
      rewrite (link_fresh d m "icas" fname Hk); [done|].
      unfold Dict.mem. by rewrite Hf.
Qed.

(** [reject] reads the same dict: the stored record, or an empty one. *)
Lemma apply_decision_eq p i logs :
  apply_decision p i logs =
  match i with
  | Other => Ok Other
  | _ =>
      '(kind, fname) ← target p i;
      mapping ← getitem logs kind;
      match mapping with
      | JObj m => applied i (Dict.get_default fname (JObj []) m)
      | _ => Raise AttributeError
      end
  end.
Proof.
  destruct i as [r|e|c|]; [| | |done]; cbn [apply_decision target applied].
  - destruct (raw_fname r) as [fname|]; [|done]. cbn [mbind res_bind].
    destruct logs as [| | | | |d|]; try done.
    unfold get_record at 1. cbn [getitem].
    destruct (Dict.get "raws" d) as [mapping|] eqn:Hk; [|done]. cbn [mbind res_bind].
    destruct mapping as [| | | | |m|]; try done.
    unfold Dict.get_default, Dict.mem.
    destruct (Dict.get fname m) as [rec|] eqn:Hf; cbn [mbind res_bind]; [|done].
    by rewrite (deref_stored_first d m "raws" fname Hk rec Hf).
  - destruct (epochs_fname e) as [fname|]; [|done]. cbn [mbind res_bind].
    destruct logs as [| | | | |d|]; try done.
    unfold get_record at 1. cbn [getitem].
    destruct (Dict.get "epochs" d) as [mapping|] eqn:Hk; [|done]. cbn [mbind res_bind].
    destruct mapping as [| | | | |m|]; try done.
    unfold Dict.get_default, Dict.mem.
    destruct (Dict.get fname m) as [rec|] eqn:Hf; cbn [mbind res_bind].
    + rewrite (in_place_stored_first d m "epochs" fname Hk _ rec Hf).
      destruct (_check_epochs_params e rec) as [rec1|]; [|done]. cbn [mbind res_bind].
      by rewrite (deref_stored d m "epochs" fname Hk).
    + rewrite in_place_fresh.
      by destruct (_check_epochs_params e (JObj [])) as [rec1|].
  - cbn [mbind res_bind]. set (fname := name p).
    destruct logs as [| | | | |d|]; try done.
    unfold get_record at 1. cbn [getitem].
    destruct (Dict.get "icas" d) as [mapping|] eqn:Hk; [|done]. cbn [mbind res_bind].
    destruct mapping as [| | | | |m|]; try done.
    unfold Dict.get_default, Dict.mem.
    destruct (Dict.get fname m) as [rec|] eqn:Hf; cbn [mbind res_bind].
    + rewrite (in_place_stored_first d m "icas" fname Hk _ rec Hf).
      destruct (_check_ica_params c rec) as [rec1|]; [|done]. cbn [mbind res_bind].
      by rewrite (deref_stored d m "icas" fname Hk).
    + rewrite in_place_fresh.
      by destruct (_check_ica_params c (JObj [])) as [rec1|].
Qed.

(** ** The three entry points, step by step *)

Section Steps.

Variable git_hash : string.

Lemma update_log_eq p i fs :
  update_log git_hash p i fs =
  match read_log git_hash p fs with
  | (Raise e, fs1) => (Raise e, fs1)
  | (Ok logs, fs1) =>
      match record_decision p i logs with
      | Raise e => (Raise e, fs1)
      | Ok logs' =>
          match save_log git_hash p logs' fs1 with
          | (Ok _, fs2) => (Ok tt, fs2)
          | (Raise e, fs2) => (Raise e, fs2)
          end
      end
  end.
Proof.
  unfold update_log. io_unfold.
  destruct (read_log git_hash p fs) as [[logs|e] fs1]; [|done].
  destruct (record_decision p i logs) as [logs'|e]; [|done].
  by destruct (save_log git_hash p logs' fs1) as [[?|?] ?].
Qed.

Lemma reject_eq p i required fs :
  reject git_hash p i required fs =
  if negb (exists_ fs (_get_json_fname fs p)) && required
  then (Raise (ValueError MissingLog), fs)
  else
    match read_log git_hash p fs with
    | (Raise e, fs1) => (Raise e, fs1)
    | (Ok logs, fs1) => (apply_decision p i logs, fs1)
    end.
Proof.
  unfold reject. io_unfold.
  destruct (negb _ && required); [done|].
  by destruct (read_log git_hash p fs) as [[logs|e] fs1].
Qed.

Lemma is_cleaned_eq p kind fs :
  is_cleaned git_hash p kind fs =
  if negb (existsb (String.eqb kind) kinds) then (Raise (ValueError BadKind), fs)
  else if negb (exists_ fs (_get_json_fname fs p)) then (Ok false, fs)
  else
    match read_log git_hash (parent p) fs with
    | (Raise e, fs1) => (Raise e, fs1)
    | (Ok logs, fs1) =>
        (t_log ← getitem logs kind;
         found ← py_contains t_log (JStr (name p));
         Ok found, fs1)
    end.
Proof.
  unfold is_cleaned.
  destruct (negb (existsb _ kinds)); [done|]. io_unfold.
  destruct (negb (exists_ _ _)); [done|].
  destruct (read_log git_hash (parent p) fs) as [[logs|e] fs1]; [|done].
  destruct (getitem logs kind) as [t_log|]; [|done]. cbn [mbind res_bind].
  destruct (py_contains t_log _) as [[|]|]; done.
Qed.

(** The mapping [read_log] returns has every record of the file. *)
Lemma read_log_records p fs logs fs1 kind fname rec :
  read_log git_hash p fs = (Ok logs, fs1) ->
  stored_record fs p kind fname = Some rec ->
  record_of logs kind fname = Some rec.
Proof.
  intros Hr Hs. apply read_log_Ok in Hr as (j0 & Hsrc & Hf & _ & _).
  unfold stored_record, stored_log in Hs. rewrite log_source_eq in Hsrc.
  destruct (node_at fs _) as [[|[j|]]|]; try done. simpl in Hs.
  injection Hsrc as ->. unfold record_of in *.
  destruct j0 as [| | | | |d|]; try done.
  destruct (Dict.get kind d) as [mp|] eqn:Hk; [|done].
  destruct (fill_defaults_keeps _ _ _ _ _ Hf Hk) as (d' & -> & ->). done.
Qed.

(** Writing a mapping that holds a record keeps the record on disk. *)
Lemma stored_record_written fs p logs kind fname :
  serialisable logs = true ->
  stored_record (<[_get_json_fname fs p := File (JsonText logs)]> fs) p kind fname
  = record_of logs kind fname.
Proof.
  intros Hser. unfold stored_record, stored_log. rewrite get_json_fname_written.
  rewrite node_at_insert by (unfold _get_json_fname; apply joinpath_nonempty).
  rewrite decide_True by done. cbn [content]. by rewrite Hser.
Qed.

End Steps.

(** * The log store *)

Lemma log_source_not_dir fs f j : log_source fs f = Ok j -> is_dir fs f = false.
Proof.
  rewrite log_source_eq. unfold is_dir. by repeat case_match.
Qed.

Lemma stored_log_written fs p logs :
  serialisable logs = true ->
  stored_log (<[_get_json_fname fs p := File (JsonText logs)]> fs) p = Some logs.
Proof.
  intros Hser. unfold stored_log. rewrite get_json_fname_written.
  rewrite node_at_insert by (unfold _get_json_fname; apply joinpath_nonempty).
  rewrite decide_True by done. cbn [content]. by rewrite Hser.
Qed.

(** C9, as the code has it.  Take a path whose log is absent, or holds a
    JSON object whose [config], if it has one, is an object with a
    [version], in a directory that exists.  Then [read_log] returns a
    mapping with the four keys [raws], [epochs], [icas] and [config] and a
    [version] in [config]; the log holds that very mapping afterwards; and
    every entry the file had, known or not, is in it with its value.
    [save_log] of any such mapping of JSON values leaves the same guarantee
    on disk. *)
Theorem C9_read_log_completes git_hash fs p j0 :
  log_source fs (_get_json_fname fs p) = Ok j0 ->
  loadable j0 = true ->
  is_dir fs (parent (_get_json_fname fs p)) = true ->
  (exists logs fs',
     read_log git_hash p fs = (Ok logs, fs') /\
     complete logs = true /\
     stored_log fs' p = Some logs /\
     forall d k v, j0 = JObj d -> Dict.get k d = Some v ->
       exists d', logs = JObj d' /\ Dict.get k d' = Some v) /\
  (forall d0, loadable (JObj d0) = true -> serialisable (JObj d0) = true ->
     exists logs fs',
       save_log git_hash p (JObj d0) fs = (Ok logs, fs') /\
       complete logs = true /\
       stored_log fs' p = Some logs /\
       forall k v, Dict.get k d0 = Some v ->
         exists d', logs = JObj d' /\ Dict.get k d' = Some v).
Proof.
  intros Hsrc Hl Hd.
  pose proof (log_source_not_dir _ _ _ Hsrc) as Hnd.
  split.
  - destruct (fill_defaults_loadable git_hash _ Hl) as [logs Hf].
    pose proof (fill_defaults_serialisable _ _ _ Hf
                  (log_source_serialisable _ _ _ Hsrc)) as Hser.
    exists logs, (<[_get_json_fname fs p := File (JsonText logs)]> fs).
    rewrite read_log_eq, Hsrc, Hf, Hnd, Hd.
    split; [done|]. split; [by eapply fill_defaults_is_complete|].
    split; [by apply stored_log_written|].
    intros d k v -> Hk. by eapply fill_defaults_keeps.
  - intros d0 Hl0 Hs0.
    destruct (fill_defaults_loadable git_hash _ Hl0) as [logs Hf].
    pose proof (fill_defaults_serialisable _ _ _ Hf Hs0) as Hser.
    exists logs, (<[_get_json_fname fs p := File (JsonText logs)]> fs).
    rewrite save_log_eq, Hf, dump_eq, Hnd, Hd, Hser.
    split; [done|]. split; [by eapply fill_defaults_is_complete|].
    split; [by apply stored_log_written|].
    intros k v Hk. by eapply fill_defaults_keeps.
Qed.

(** A log with nothing but a known raw record: the three missing keys are
    put in and the record stays. *)
Lemma C9_witness :
  exists logs fs',
    read_log Ex.rev Ex.raw_path
      (Ex.with_log (JObj [("raws", JObj [("sub1-raw.fif", JObj [])]);
                          ("notes", JStr "kept")])) = (Ok logs, fs') /\
    complete logs = true /\ stored_log fs' Ex.raw_path = Some logs /\
    getitem logs "notes" = Ok (JStr "kept").
Proof.
  destruct (C9_read_log_completes Ex.rev
              (Ex.with_log (JObj [("raws", JObj [("sub1-raw.fif", JObj [])]);
                                  ("notes", JStr "kept")]))
              Ex.raw_path _ eq_refl eq_refl eq_refl)
    as [(logs & fs' & Hr & Hc & Hs & Hk) _].
  exists logs, fs'. repeat split; try done.
  destruct (Hk _ "notes" (JStr "kept") eq_refl eq_refl) as (d' & -> & Hn).
  simpl. by rewrite Hn.
Defined.

(** C9 as stated fails on a log whose [config] has no [version]: the
    version is read before anything is written, [read_log] raises, and the
    file stays without it. *)
Lemma C9_counterexample :
  let fs := Ex.with_log (JObj [("config", JObj [])]) in
  fst (read_log Ex.rev Ex.dir fs) = Raise KeyError /\
  stored_log (snd (read_log Ex.rev Ex.dir fs)) Ex.dir
    = Some (JObj [("config", JObj [])]) /\
  fst (save_log Ex.rev Ex.dir (JObj [("config", JObj [])]) fs) = Raise KeyError.
Proof. vm_compute. by repeat split. Qed.

(** C10.  For an artifact of none of the three kinds, [update_log] is
    [read_log] with the result dropped: it raises nothing of its own, and
    when the read succeeds the log on disk is the completed mapping, whose
    three mappings are those of the file (empty where the file had none),
    with no record added. *)
Theorem C10_unrecognized_artifact git_hash fs p :
  update_log git_hash p Other fs =
    match read_log git_hash p fs with
    | (Ok _, fs1) => (Ok tt, fs1)
    | (Raise e, fs1) => (Raise e, fs1)
    end /\
  forall logs fs1,
    read_log git_hash p fs = (Ok logs, fs1) ->
    stored_log fs1 p = Some logs /\
    complete logs = true /\
    exists d,
      log_source fs (_get_json_fname fs p) = Ok (JObj d) /\
      forall kind, kind ∈ kinds ->
        getitem logs kind = Ok (Dict.get_default kind (JObj []) d).
Proof.
  split.
  - rewrite update_log_eq.
    destruct (read_log git_hash p fs) as [[logs|e] fs1] eqn:Hr; [|done].
    cbn [record_decision].
    destruct (read_log_stored _ _ _ _ _ Hr) as (Hs & Hc & Hj & Hd).
    by rewrite (save_log_stored _ _ _ _ Hs Hc Hd).
  - intros logs fs1 Hr.
    destruct (read_log_stored _ _ _ _ _ Hr) as (Hs & Hc & _ & _).
    do 2 (split; [done|]).
    apply read_log_Ok in Hr as (j0 & Hsrc & Hf & _ & _).
    destruct j0 as [| | | | |d|]; try done.
    exists d. split; [done|]. intros kind Hk. by eapply fill_defaults_mapping.
Qed.

(** In a directory without a log, the call leaves the empty schema there. *)
Lemma C10_witness :
  fst (update_log Ex.rev Ex.raw_path Other Ex.disk0) = Ok tt /\
  stored_log (snd (update_log Ex.rev Ex.raw_path Other Ex.disk0)) Ex.raw_path
    = Some Ex.empty_log.
Proof.
  destruct (C10_unrecognized_artifact Ex.rev Ex.disk0 Ex.raw_path) as [-> H].
  assert (Hl : fst (read_log Ex.rev Ex.raw_path Ex.disk0) = Ok Ex.empty_log)
    by (vm_compute; reflexivity).
  destruct (read_log Ex.rev Ex.raw_path Ex.disk0) as [[logs|e] fs1]; [|done].
  cbn [fst snd] in *. injection Hl as ->.
  split; [done|]. by destruct (H _ _ eq_refl) as (Hs & _).
Defined.

(** * Reading without writing *)

(** C3, as the code has it.  [reject] stores nothing of the artifact: the
    disk after the call is the disk as [read_log] alone leaves it (untouched
    when the log is required and missing).  So no record of the log changes,
    and a log that is there with its four keys and version stays as it is;
    a log that is missing is made, with the empty schema, unless it is
    required. *)
Theorem C3_reject_only_completes git_hash fs p i required :
  let fs' := snd (reject git_hash p i required fs) in
  fs' = (if negb (exists_ fs (_get_json_fname fs p)) && required then fs
         else snd (read_log git_hash p fs)) /\
  (forall j, stored_log fs p = Some j -> complete j = true ->
             is_dir fs (parent (_get_json_fname fs p)) = true -> fs' = fs) /\
  (forall kind fname rec,
     stored_record fs p kind fname = Some rec ->
     stored_record fs' p kind fname = Some rec).
Proof.
  cbn zeta.
  assert (H1 : snd (reject git_hash p i required fs) =
               if negb (exists_ fs (_get_json_fname fs p)) && required then fs
               else snd (read_log git_hash p fs)).
  { rewrite reject_eq. destruct (negb _ && required); [done|].
    by destruct (read_log git_hash p fs) as [[?|?] ?]. }
  split; [done|]. rewrite H1. split.
  - intros j Hs Hc Hd. rewrite (read_log_complete _ _ _ _ Hs Hc Hd).
    by destruct (negb _ && required).
  - intros kind fname rec Hs. destruct (negb _ && required); [done|].
    destruct (read_log git_hash p fs) as [[logs|e] fs1] eqn:Hr.
    + pose proof (read_log_records _ _ _ _ _ _ _ _ Hr Hs) as Hrec.
      pose proof (read_log_serialisable _ _ _ _ _ Hr) as Hser.
      apply read_log_Ok in Hr as (j0 & _ & _ & _ & ->). cbn [snd].
      by rewrite stored_record_written.
    + apply read_log_Raise in Hr as ->. done.
Qed.

(** A complete log with a record: the call leaves the disk as it was. *)
Lemma C3_witness :
  let fs := Ex.with_log (Ex.log_of "raws" "sub1-raw.fif"
                           (JObj [("bads", JArr [JStr "Cz"])])) in
  snd (reject Ex.rev Ex.raw_path (Raw (Ex.raw_with ["Fz"])) true fs) = fs.
Proof.
  cbn zeta.
  apply (proj1 (proj2 (C3_reject_only_completes Ex.rev
           (Ex.with_log (Ex.log_of "raws" "sub1-raw.fif"
                           (JObj [("bads", JArr [JStr "Cz"])])))
           Ex.raw_path (Raw (Ex.raw_with ["Fz"])) true))
         (Ex.log_of "raws" "sub1-raw.fif" (JObj [("bads", JArr [JStr "Cz"])])));
    vm_compute; reflexivity.
Defined.

(** C3 as stated fails where there is no log and it is not required: the
    call leaves an [eeg_cleaner.json] behind. *)
Lemma C3_counterexample :
  let fs' := snd (reject Ex.rev Ex.raw_path (Raw (Ex.raw_with ["Fz"])) false Ex.disk0) in
  exists_ Ex.disk0 Ex.log_path = false /\
  node_at fs' Ex.log_path = Some (File (JsonText Ex.empty_log)).
Proof. vm_compute. by split. Qed.

(** In a directory without a log, [read_log] makes one, with the empty
    schema. *)
Lemma read_log_creates git_hash fs q :
  is_dir fs q = true ->
  node_at fs (joinpath q json_name) = None ->
  read_log git_hash q fs
  = (Ok (empty_schema git_hash),
     <[joinpath q json_name := File (JsonText (empty_schema git_hash))]> fs).
Proof.
  intros Hd Hn.
  assert (Hf : _get_json_fname fs q = joinpath q json_name).
  { unfold _get_json_fname, is_file, is_dir in *.
    by destruct (node_at fs q) as [[|]|]. }
  rewrite read_log_eq, log_source_eq, Hf, Hn.
  cbn [fill_defaults default_key Dict.mem Dict.get Dict.set String.eqb
       Ascii.eqb Bool.eqb getitem mbind res_bind].
  unfold is_dir at 1. by rewrite Hn, parent_joinpath, Hd.
Qed.

(** C4, as the code has it.  [is_cleaned] writes nothing when the kind is
    not one of the three or when the log it looks for is missing.  When
    that log is there, the call leaves the disk as [read_log(path.parent)]
    leaves it.  For the path of a file in a directory this is the log that
    was looked for, written again and completed: the disk is the same
    afterwards when the log has its four keys and version.  For a path that
    is a directory holding a log it is the log of the containing directory,
    and that one is made, with the empty schema, when it is missing. *)
Theorem C4_is_cleaned_writes git_hash fs p kind :
  let fs' := snd (is_cleaned git_hash p kind fs) in
  (existsb (String.eqb kind) kinds = false \/
   exists_ fs (_get_json_fname fs p) = false -> fs' = fs) /\
  (existsb (String.eqb kind) kinds = true ->
   exists_ fs (_get_json_fname fs p) = true ->
   fs' = snd (read_log git_hash (parent p) fs)) /\
  (is_file fs p = true -> is_dir fs (parent p) = true ->
   existsb (String.eqb kind) kinds = true ->
   exists_ fs (_get_json_fname fs p) = true ->
   fs' = snd (read_log git_hash p fs)) /\
  (is_file fs p = true -> is_dir fs (parent p) = true ->
   forall j, stored_log fs p = Some j -> complete j = true -> fs' = fs) /\
  (is_dir fs p = true -> is_dir fs (parent p) = true ->
   existsb (String.eqb kind) kinds = true ->
   exists_ fs (joinpath p json_name) = true ->
   node_at fs (joinpath (parent p) json_name) = None ->
   fs' = <[joinpath (parent p) json_name :=
             File (JsonText (empty_schema git_hash))]> fs /\
   stored_log fs' (parent p) = Some (empty_schema git_hash)).
Proof.
  cbn zeta.
  assert (Hpp : is_file fs p = true -> is_dir fs (parent p) = true ->
                _get_json_fname fs (parent p) = _get_json_fname fs p).
  { intros Hf Hd. unfold _get_json_fname. rewrite Hf.
    unfold is_dir, is_file in *. by destruct (node_at fs (parent p)) as [[|]|]. }
  assert (Hgen : existsb (String.eqb kind) kinds = true ->
                 exists_ fs (_get_json_fname fs p) = true ->
                 snd (is_cleaned git_hash p kind fs)
                 = snd (read_log git_hash (parent p) fs)).
  { intros Hk He. rewrite is_cleaned_eq, Hk, He. cbn [negb].
    destruct (read_log git_hash (parent p) fs) as [[logs|e] fs1]; done. }
  split; [|split; [done|split; [|split]]].
  - rewrite is_cleaned_eq. intros [->| ->]; [done|].
    by destruct (negb (existsb _ kinds)).
  - intros Hf Hd Hk He. rewrite (Hgen Hk He).
    by rewrite (read_log_eq _ p), (read_log_eq _ (parent p)), (Hpp Hf Hd).
  - intros Hf Hd j Hs Hc. specialize (Hpp Hf Hd). rewrite is_cleaned_eq.
    destruct (negb (existsb _ kinds)); [done|].
    destruct (negb (exists_ _ _)); [done|].
    rewrite (read_log_complete git_hash (parent p) fs j); [done| |done|].
    + unfold stored_log in *. by rewrite Hpp.
    + rewrite Hpp. unfold _get_json_fname. by rewrite Hf, parent_joinpath.
  - intros Hd Hpd Hk He Hn.
    assert (Hf : _get_json_fname fs p = joinpath p json_name).
    { unfold _get_json_fname, is_file, is_dir in *.
      by destruct (node_at fs p) as [[|]|]. }
    rewrite Hgen by (by rewrite ?Hf).
    pose proof (read_log_creates git_hash fs (parent p) Hpd Hn) as Hr.
    destruct (read_log_stored _ _ _ _ _ Hr) as (Hs & _).
    rewrite Hr. by cbn [snd].
Qed.

(** A complete log: asking whether the raw file was cleaned changes
    nothing. *)
Lemma C4_witness :
  let fs := Ex.with_log (Ex.log_of "raws" "sub1-raw.fif"
                           (JObj [("bads", JArr [JStr "Cz"])])) in
  snd (is_cleaned Ex.rev Ex.raw_path "raws" fs) = fs.
Proof.
  cbn zeta.
  apply (proj1 (proj2 (proj2 (proj2 (C4_is_cleaned_writes Ex.rev
           (Ex.with_log (Ex.log_of "raws" "sub1-raw.fif"
                           (JObj [("bads", JArr [JStr "Cz"])])))
           Ex.raw_path "raws"))))
         ltac:(vm_compute; reflexivity) ltac:(vm_compute; reflexivity)
         (Ex.log_of "raws" "sub1-raw.fif" (JObj [("bads", JArr [JStr "Cz"])])));
    vm_compute; reflexivity.
Defined.

(** C4 as stated fails on both counts.  On a log that lacks keys the call
    rewrites it.  And asked about a directory that holds a log, the call
    makes a log in the directory above, where there was none. *)
Lemma C4_counterexample :
  let fs := Ex.with_log (JObj []) in
  let fs' := snd (is_cleaned Ex.rev Ex.raw_path "raws" fs) in
  let fs_d := Ex.with_log Ex.empty_log in
  let fs_d' := snd (is_cleaned Ex.rev Ex.dir "raws" fs_d) in
  (fst (is_cleaned Ex.rev Ex.raw_path "raws" fs) = Ok false /\
   node_at fs Ex.log_path = Some (File (JsonText (JObj []))) /\
   node_at fs' Ex.log_path = Some (File (JsonText Ex.empty_log))) /\
  (fst (is_cleaned Ex.rev Ex.dir "raws" fs_d) = Ok false /\
   node_at fs_d ["eeg_cleaner.json"] = None /\
   node_at fs_d' ["eeg_cleaner.json"] = Some (File (JsonText Ex.empty_log))).
Proof. vm_compute. by repeat split. Qed.

(** * Recording a decision *)

Lemma record_of_commit d m kind fname rec :
  Dict.get kind d = Some (JObj m) ->
  record_of (commit (JObj d) kind fname rec) kind fname = Some rec.
Proof.
  intros H. rewrite (commit_eq _ _ _ _ H). simpl.
  by rewrite DictFacts.get_set_eq, DictFacts.get_set_eq.
Qed.

Lemma record_of_commit_other d m kind fname rec kind' fname' :
  Dict.get kind d = Some (JObj m) ->
  (kind', fname') <> (kind, fname) ->
  record_of (commit (JObj d) kind fname rec) kind' fname' =
  record_of (JObj d) kind' fname'.
Proof.
  intros H Hne. rewrite (commit_eq _ _ _ _ H). simpl.
  rewrite DictFacts.get_set.
  destruct (String.eqb kind' kind) eqn:Ek; [|done].
  apply String.eqb_eq in Ek as ->. rewrite H.
  rewrite DictFacts.get_set_ne; [done|]. congruence.
Qed.

Lemma commit_complete logs kind fname rec :
  kind ∈ kinds -> complete logs = true ->
  complete (commit logs kind fname rec) = true.
Proof.
  intros Hk. destruct logs as [| | | | |d|]; try done.
  unfold commit. destruct (Dict.get kind d) as [[| | | | |m|]|] eqn:E; try done.
  simpl. rewrite !DictFacts.mem_set.
  assert (Hc : kind <> "config").
  { unfold kinds in Hk. set_unfold. by destruct Hk as [->|[->|[->|[]]]]. }
  rewrite DictFacts.get_set_ne by done.
  intros H. repeat (apply andb_prop in H as [H ?]).
  rewrite H, H0, H1, H2. by rewrite !orb_true_r.
Qed.

Lemma target_kind p i kind fname : target p i = Ok (kind, fname) -> kind ∈ kinds.
Proof.
  unfold kinds. destruct i; simpl; intros H; res_cases; set_solver.
Qed.

(** What the parameter checks leave of the record they are given. *)
Lemma check_epochs_keeps e d t :
  _check_epochs_params e (JObj d) = Ok t ->
  exists d', t = JObj d' /\
    forall k v, Dict.get k d = Some v -> Dict.get k d' = Some v.
Proof.
  unfold _check_epochs_params. destruct (negb (Dict.mem "params" d)) eqn:Ep.
  - intros [= <-]. eexists; split; [done|]. intros k v Hk.
    rewrite DictFacts.get_set. destruct (String.eqb k "params") eqn:E; [|done].
    apply String.eqb_eq in E as ->. unfold Dict.mem in Ep. by rewrite Hk in Ep.
  - intros H. res_cases; eauto.
Qed.

Lemma check_ica_keeps c d t :
  _check_ica_params c (JObj d) = Ok t ->
  exists d', t = JObj d' /\
    forall k v, Dict.get k d = Some v -> Dict.get k d' = Some v.
Proof.
  unfold _check_ica_params. destruct (negb (Dict.mem "params" d)) eqn:Ep.
  - intros [= <-]. eexists; split; [done|]. intros k v Hk.
    rewrite DictFacts.get_set. destruct (String.eqb k "params") eqn:E; [|done].
    apply String.eqb_eq in E as ->. unfold Dict.mem in Ep. by rewrite Hk in Ep.
  - intros H. res_cases; eauto.
Qed.

(** The record after the assignments of [update_log]: the decision of this
    call, and every other entry it had. *)
Lemma recorded_fields i rec rec' :
  recorded i rec = Ok rec' ->
  i = Other \/
  exists d d', rec = JObj d /\ rec' = JObj d' /\
    (forall k v, (k, v) ∈ decision_fields i -> Dict.get k d' = Some v) /\
    (forall k v, Dict.get k d = Some v -> k ∉ (decision_fields i).*1 ->
                 Dict.get k d' = Some v).
Proof.
  intros H. destruct i as [r|e|c|]; [| | |by left]; right; cbn [recorded] in H.
  - destruct rec as [| | | | |d|]; try done. injection H as <-.
    exists d, (Dict.set "bads" (JArr (raw_bads r)) d). do 2 (split; [done|]). split.
    + intros k v Hk. cbn in Hk. rewrite !elem_of_cons, elem_of_nil in Hk.
      destruct_or! Hk; simplify_eq. apply DictFacts.get_set_eq.
    + intros k v Hk Hn. cbn in Hn. rewrite !not_elem_of_cons in Hn.
      destruct_and! Hn. by rewrite DictFacts.get_set_ne.
  - destruct rec as [| | | | |d|]; try done.
    destruct (_check_epochs_params e (JObj d)) as [t|] eqn:Hc; [|done].
    apply check_epochs_keeps in Hc as (d1 & -> & Hd1). injection H as <-.
    eexists d, _. do 2 (split; [done|]). split.
    + intros k v Hk. cbn in Hk. rewrite !elem_of_cons, elem_of_nil in Hk.
      destruct_or! Hk; simplify_eq.
      * rewrite DictFacts.get_set_ne by done. apply DictFacts.get_set_eq.
      * apply DictFacts.get_set_eq.
    + intros k v Hk Hn. cbn in Hn. rewrite !not_elem_of_cons in Hn.
      destruct_and! Hn. rewrite !DictFacts.get_set_ne by done. by apply Hd1.
  - destruct rec as [| | | | |d|]; try done.
    destruct (_check_ica_params c (JObj d)) as [t|] eqn:Hc; [|done].
    apply check_ica_keeps in Hc as (d1 & -> & Hd1). injection H as <-.
    eexists d, _. do 2 (split; [done|]). split.
    + intros k v Hk. cbn in Hk. rewrite !elem_of_cons, elem_of_nil in Hk.
      destruct_or! Hk; simplify_eq. apply DictFacts.get_set_eq.
    + intros k v Hk Hn. cbn in Hn. rewrite !not_elem_of_cons in Hn.
      destruct_and! Hn. rewrite !DictFacts.get_set_ne by done. by apply Hd1.
Qed.

Lemma record_decision_complete p i logs logs' :
  complete logs = true -> record_decision p i logs = Ok logs' ->
  complete logs' = true.
Proof.
  intros Hc. rewrite record_decision_eq.
  destruct i; intros H; res_cases;
    (eapply commit_complete; [by eapply target_kind|done]).
Qed.

Section Update.

Variable git_hash : string.

(** A successful [update_log] is a read, the assignments, and a write of
    the mapping they leave. *)
Lemma update_log_written p i fs fs' :
  update_log git_hash p i fs = (Ok tt, fs') ->
  exists logs fs1 logs',
    read_log git_hash p fs = (Ok logs, fs1) /\
    record_decision p i logs = Ok logs' /\
    serialisable logs' = true /\
    fs' = <[_get_json_fname fs p := File (JsonText logs')]> fs1.
Proof.
  rewrite update_log_eq.
  destruct (read_log git_hash p fs) as [[logs|e] fs1] eqn:Hr; [|done].
  destruct (record_decision p i logs) as [logs'|e] eqn:Hd; [|done].
  destruct (read_log_stored _ _ _ _ _ Hr) as (Hs & Hc & Hj & Hdir).
  rewrite save_log_eq.
  rewrite (fill_defaults_complete _ logs')
    by (by eapply record_decision_complete).
  rewrite dump_eq. intros H. exists logs, fs1, logs'.
  do 2 (split; [done|]). rewrite <- Hj.
  by repeat case_match; simplify_eq.
Qed.

Lemma update_log_Ok p i fs fs' :
  update_log git_hash p i fs = (Ok tt, fs') ->
  exists logs fs1 logs',
    read_log git_hash p fs = (Ok logs, fs1) /\
    record_decision p i logs = Ok logs' /\
    fs' = <[_get_json_fname fs p := File (JsonText logs')]> fs1.
Proof.
  intros (logs & fs1 & logs' & Hr & Hd & _ & ->)%update_log_written.
  by exists logs, fs1, logs'.
Qed.

Lemma update_log_stored p i fs fs' kind fname :
  update_log git_hash p i fs = (Ok tt, fs') ->
  exists logs fs1 logs',
    read_log git_hash p fs = (Ok logs, fs1) /\
    record_decision p i logs = Ok logs' /\
    stored_record fs' p kind fname = record_of logs' kind fname.
Proof.
  intros H.
  apply update_log_written in H as (logs & fs1 & logs' & Hr & Hd & Hser & ->).
  exists logs, fs1, logs'. do 2 (split; [done|]).
  destruct (read_log_stored _ _ _ _ _ Hr) as (_ & _ & <- & _).
  by apply stored_record_written.
Qed.

End Update.

(** C1, as the code has it.  When the filename of a raw, epochs or ica
    artifact already has a record in the log, [t_log] is that record
    itself, and a later [update_log] that succeeds writes its decision into
    it: afterwards the stored record holds this call's [bads] (raw), [bads]
    and [selection] (epochs) or [exclude] (ica), and every other entry it
    had before, its [params] among them. *)
Theorem C1_update_replaces_decision git_hash fs p i kind fname rec fs' :
  target p i = Ok (kind, fname) ->
  stored_record fs p kind fname = Some rec ->
  update_log git_hash p i fs = (Ok tt, fs') ->
  exists d d',
    rec = JObj d /\
    stored_record fs' p kind fname = Some (JObj d') /\
    (forall k v, (k, v) ∈ decision_fields i -> Dict.get k d' = Some v) /\
    (forall k v, Dict.get k d = Some v -> k ∉ (decision_fields i).*1 ->
                 Dict.get k d' = Some v).
Proof.
  intros Ht Hs Hu.
  destruct (update_log_stored _ _ _ _ _ kind fname Hu)
    as (logs & fs1 & logs' & Hr & Hd & ->).
  pose proof (read_log_records _ _ _ _ _ _ _ _ Hr Hs) as Hrec.
  rewrite record_decision_eq in Hd.
  assert (Hi : i <> Other) by (by intros ->).
  unfold record_of in Hrec.
  destruct logs as [| | | | |dl|]; try done.
  destruct (Dict.get kind dl) as [[| | | | |m|]|] eqn:Hk; try done.
  assert (Hd' : exists rec', recorded i rec = Ok rec' /\
                             logs' = commit (JObj dl) kind fname rec').
  { destruct i; try done; rewrite Ht in Hd; cbn [mbind res_bind getitem] in Hd;
      rewrite Hk in Hd; cbn [mbind res_bind] in Hd;
      unfold Dict.get_default in Hd; rewrite Hrec in Hd;
      res_cases; eauto. }
  destruct Hd' as (rec' & Hrec' & ->).
  rewrite (record_of_commit _ _ _ _ _ Hk).
  apply recorded_fields in Hrec' as [->|(d & d' & -> & -> & H1 & H2)]; [done|].
  by exists d, d'.
Qed.

(** The record of the raw file holds [Cz]; the file is reviewed again and
    [Fz] is what is stored. *)
Lemma C1_witness :
  let fs := Ex.with_log (Ex.log_of "raws" "sub1-raw.fif"
                           (JObj [("bads", JArr [JStr "Cz"]); ("note", JNull)])) in
  exists d',
    stored_record (snd (update_log Ex.rev Ex.raw_path (Raw (Ex.raw_with ["Fz"])) fs))
      Ex.raw_path "raws" "sub1-raw.fif" = Some (JObj d') /\
    Dict.get "bads" d' = Some (JArr [JStr "Fz"]) /\
    Dict.get "note" d' = Some JNull.
Proof.
  cbn zeta.
  destruct (C1_update_replaces_decision Ex.rev
              (Ex.with_log (Ex.log_of "raws" "sub1-raw.fif"
                 (JObj [("bads", JArr [JStr "Cz"]); ("note", JNull)])))
              Ex.raw_path (Raw (Ex.raw_with ["Fz"])) "raws" "sub1-raw.fif"
              (JObj [("bads", JArr [JStr "Cz"]); ("note", JNull)])
              (snd (update_log Ex.rev Ex.raw_path (Raw (Ex.raw_with ["Fz"]))
                 (Ex.with_log (Ex.log_of "raws" "sub1-raw.fif"
                    (JObj [("bads", JArr [JStr "Cz"]); ("note", JNull)])))))
              eq_refl
              ltac:(vm_compute; reflexivity)
              ltac:(apply run_eq; vm_compute; reflexivity))
    as (d & d' & Hd & Hs & H1 & H2).
  injection Hd as <-. exists d'. split; [exact Hs|]. split.
  - apply H1. cbn. apply elem_of_cons. by left.
  - apply H2; [reflexivity|]. cbn. rewrite not_elem_of_cons, elem_of_nil.
    split; [discriminate|tauto].
Defined.

(** C1 as stated fails: the first call for the raw file stores [Cz], the
    second stores [Fz] over it. *)
Lemma C1_counterexample :
  let fs1 := snd (update_log Ex.rev Ex.raw_path (Raw (Ex.raw_with ["Cz"])) Ex.disk0) in
  let fs2 := snd (update_log Ex.rev Ex.raw_path (Raw (Ex.raw_with ["Fz"])) fs1) in
  stored_record fs1 Ex.raw_path "raws" "sub1-raw.fif"
    = Some (JObj [("bads", JArr [JStr "Cz"])]) /\
  stored_record fs2 Ex.raw_path "raws" "sub1-raw.fif"
    = Some (JObj [("bads", JArr [JStr "Fz"])]).
Proof. vm_compute. by split. Qed.

(** * The parameter snapshot *)

Lemma keeps_snapshots_refl j : keeps_snapshots j j.
Proof. intros kind fname d s H1 H2. eauto. Qed.

Lemma keeps_snapshots_trans j1 j2 j3 :
  keeps_snapshots j1 j2 -> keeps_snapshots j2 j3 -> keeps_snapshots j1 j3.
Proof.
  intros H12 H23 kind fname d s H1 H2.
  destruct (H12 _ _ _ _ H1 H2) as (d' & H1' & H2'). eauto.
Qed.

Lemma keeps_snapshots_fill git_hash j logs :
  fill_defaults git_hash j = Ok logs -> keeps_snapshots j logs.
Proof.
  intros Hf kind fname d s H1 H2. exists d. split; [|done].
  unfold record_of in *. destruct j as [| | | | |dj|]; try done.
  destruct (Dict.get kind dj) as [mp|] eqn:Hk; [|done].
  destruct (fill_defaults_keeps _ _ _ _ _ Hf Hk) as (d' & -> & ->). done.
Qed.

Lemma params_not_decision i : "params" ∉ (decision_fields i).*1.
Proof.
  destruct i; cbn; rewrite ?not_elem_of_cons; repeat split;
    solve [discriminate | apply not_elem_of_nil].
Qed.

Lemma record_decision_Ok p i logs logs' :
  record_decision p i logs = Ok logs' -> i <> Other ->
  exists kind fname dl m rec',
    target p i = Ok (kind, fname) /\
    logs = JObj dl /\ Dict.get kind dl = Some (JObj m) /\
    recorded i (Dict.get_default fname (JObj []) m) = Ok rec' /\
    logs' = commit logs kind fname rec'.
Proof.
  rewrite record_decision_eq. intros H Hi.
  destruct (target p i) as [[kind fname]|] eqn:Ht; [|by destruct i].
  exists kind, fname.
  assert (H' : (mapping ← getitem logs kind;
                match mapping with
                | JObj m =>
                    record ← recorded i (Dict.get_default fname (JObj []) m);
                    Ok (commit logs kind fname record)
                | _ => Raise AttributeError
                end) = Ok logs') by (by destruct i).
  clear H. destruct logs as [| | | | |dl|]; try done. cbn [getitem] in H'.
  destruct (Dict.get kind dl) as [[| | | | |m|]|] eqn:Hk; try done.
  cbn [mbind res_bind] in H'.
  destruct (recorded i _) as [rec'|] eqn:Hrec; [|done].
  injection H' as <-. by exists dl, m, rec'.
Qed.

Lemma keeps_snapshots_decision p i logs logs' :
  record_decision p i logs = Ok logs' -> keeps_snapshots logs logs'.
Proof.
  intros H.
  assert (Hi : i = Other \/ i <> Other) by (destruct i; eauto).
  destruct Hi as [->|Hi].
  { injection H as <-. apply keeps_snapshots_refl. }
  destruct (record_decision_Ok _ _ _ _ H Hi)
    as (kind & fname & dl & m & rec' & _ & -> & Hk & Hrec & ->).
  intros kind' fname' d s H1 H2.
  destruct (decide ((kind', fname') = (kind, fname))) as [[= -> ->]|Hne].
  - rewrite (record_of_commit _ _ _ _ _ Hk).
    unfold record_of in H1. rewrite Hk in H1.
    unfold Dict.get_default in Hrec. rewrite H1 in Hrec.
    apply recorded_fields in Hrec as [->|(d0 & d' & [= <-] & -> & _ & Hkeep)];
      [done|].
    exists d'. split; [done|]. apply Hkeep; [done|apply params_not_decision].
  - rewrite (record_of_commit_other _ _ _ _ _ _ _ Hk Hne). eauto.
Qed.

Lemma snapshots_kept_refl fs : snapshots_kept fs fs.
Proof. by intros f kind fname s H. Qed.

Lemma snapshots_kept_trans fs1 fs2 fs3 :
  snapshots_kept fs1 fs2 -> snapshots_kept fs2 fs3 -> snapshots_kept fs1 fs3.
Proof. intros H12 H23 f kind fname s H. eauto. Qed.

(** Writing over a log a mapping that keeps its snapshots. *)
Lemma snapshots_kept_written fs f logs :
  f <> [] -> serialisable logs = true ->
  (forall j, node_at fs f = Some (File (JsonText j)) -> keeps_snapshots j logs) ->
  snapshots_kept fs (<[f := File (JsonText logs)]> fs).
Proof.
  intros Hf Hser Hk f' kind fname s. unfold snapshot_at.
  rewrite node_at_insert by done.
  destruct (decide (f' = f)) as [->|]; [|done]. cbn [content]. rewrite Hser.
  destruct (node_at fs f) as [[|[j|]]|] eqn:En; try done.
  destruct (record_of j kind fname) as [[| | | | |d|]|] eqn:Hr; try done.
  intros Hs. destruct (Hk j eq_refl _ _ _ _ Hr Hs) as (d' & -> & ->). done.
Qed.

Section Snapshots.

Variable git_hash : string.

Lemma read_log_snapshots p fs : snapshots_kept fs (snd (read_log git_hash p fs)).
Proof.
  destruct (read_log git_hash p fs) as [[logs|e] fs1] eqn:Hr; cbn [snd].
  - pose proof (read_log_serialisable _ _ _ _ _ Hr) as Hser.
    apply read_log_Ok in Hr as (j0 & Hsrc & Hf & _ & ->).
    apply snapshots_kept_written; [|done|].
    { unfold _get_json_fname. apply joinpath_nonempty. }
    intros j Hj. rewrite log_source_eq, Hj in Hsrc. injection Hsrc as <-.
    by eapply keeps_snapshots_fill.
  - apply read_log_Raise in Hr as ->. apply snapshots_kept_refl.
Qed.

(** What [update_log] does once the log is read and the assignments are
    made: the mapping is written when [json.dump] can write it; otherwise
    the log, opened for writing, is left cut short. *)
Lemma update_log_outcome p i fs logs fs1 logs' :
  read_log git_hash p fs = (Ok logs, fs1) ->
  record_decision p i logs = Ok logs' ->
  update_log git_hash p i fs
  = if serialisable logs'
    then (Ok tt, <[_get_json_fname fs p := File (JsonText logs')]> fs1)
    else (Raise TypeError, <[_get_json_fname fs p := File Junk]> fs1).
Proof.
  intros Hr Hd. rewrite update_log_eq, Hr, Hd.
  destruct (read_log_stored _ _ _ _ _ Hr) as (Hs & Hc & Hj & Hdir).
  rewrite save_log_eq.
  rewrite (fill_defaults_complete _ logs')
    by (by eapply record_decision_complete).
  rewrite dump_eq, Hdir, Hj. unfold is_dir. unfold stored_log in Hs.
  rewrite Hj in Hs.
  destruct (node_at fs1 (_get_json_fname fs p)) as [[|c]|]; try done.
  by destruct (serialisable logs').
Qed.

(** A log that is cut short holds no mapping. *)
Lemma stored_log_cut_short fs p :
  stored_log (<[_get_json_fname fs p := File Junk]> fs) p = None.
Proof.
  unfold stored_log. rewrite get_json_fname_written.
  rewrite node_at_insert by (unfold _get_json_fname; apply joinpath_nonempty).
  by rewrite decide_True.
Qed.

(** [update_log] keeps the snapshots, unless [json.dump] fails on the
    mapping after the log was opened for writing. *)
Lemma update_log_snapshots p i fs :
  snapshots_kept fs (snd (update_log git_hash p i fs)) \/
  (fst (update_log git_hash p i fs) = Raise TypeError /\
   node_at (snd (update_log git_hash p i fs)) (_get_json_fname fs p)
   = Some (File Junk)).
Proof.
  pose proof (read_log_snapshots p fs) as H1.
  destruct (read_log git_hash p fs) as [[logs|e] fs1] eqn:Hr;
    [|left; by rewrite update_log_eq, Hr].
  destruct (record_decision p i logs) as [logs'|e] eqn:Hd;
    [|left; by rewrite update_log_eq, Hr, Hd].
  rewrite (update_log_outcome _ _ _ _ _ _ Hr Hd).
  destruct (read_log_stored _ _ _ _ _ Hr) as (Hs & Hc & Hj & Hdir).
  destruct (serialisable logs') eqn:Hser; cbn [fst snd].
  - left. eapply snapshots_kept_trans; [exact H1|]. rewrite <- Hj.
    apply snapshots_kept_written; [|done|].
    { unfold _get_json_fname. apply joinpath_nonempty. }
    intros j Hn. unfold stored_log in Hs. rewrite Hn in Hs. injection Hs as ->.
    by eapply keeps_snapshots_decision.
  - right. split; [done|].
    rewrite node_at_insert by (unfold _get_json_fname; apply joinpath_nonempty).
    by rewrite decide_True.
Qed.

(** The record that the assignments leave can be written when the record
    they start from and the values of the artifact can. *)
Lemma recorded_serialisable i t rec :
  recorded i t = Ok rec ->
  serialisable t = true -> serialisable (new_record i) = true ->
  serialisable rec = true.
Proof.
  intros H Ht Hn. destruct i as [r|e|c|]; cbn [recorded] in H.
  - destruct t as [| | | | |d|]; try done. injection H as <-.
    apply serialisable_set; [done|].
    by eapply (serialisable_get _ "bads"); [exact Hn|].
  - destruct t as [| | | | |d|]; try done.
    assert (H1 : exists d1, _check_epochs_params e (JObj d) = Ok (JObj d1) /\
                            serialisable (JObj d1) = true).
    { destruct (_check_epochs_params e (JObj d)) as [t|] eqn:Hc; [|done].
      revert Hc. unfold _check_epochs_params.
      destruct (negb (Dict.mem "params" d)).
      - intros [= <-]. eexists. split; [done|]. apply serialisable_set; [done|].
        by eapply (serialisable_get _ "params"); [exact Hn|].
      - intros Hc. exists d. split; [|done]. f_equal. revert Hc.
        intros Hc. res_cases. }
    destruct H1 as (d1 & Hc & Hs1). rewrite Hc in H.
    cbn [mbind res_bind setitem] in H. injection H as <-.
    apply serialisable_set; [apply serialisable_set; [done|]|].
    + by eapply (serialisable_get _ "bads"); [exact Hn|].
    + by eapply (serialisable_get _ "selection"); [exact Hn|].
  - destruct t as [| | | | |d|]; try done.
    assert (H1 : exists d1, _check_ica_params c (JObj d) = Ok (JObj d1) /\
                            serialisable (JObj d1) = true).
    { destruct (_check_ica_params c (JObj d)) as [t|] eqn:Hc; [|done].
      revert Hc. unfold _check_ica_params.
      destruct (negb (Dict.mem "params" d)).
      - intros [= <-]. eexists. split; [done|]. apply serialisable_set; [done|].
        by eapply (serialisable_get _ "params"); [exact Hn|].
      - intros Hc. exists d. split; [|done]. f_equal. revert Hc.
        intros Hc. res_cases. }
    destruct H1 as (d1 & Hc & Hs1). rewrite Hc in H.
    cbn [mbind res_bind setitem] in H. injection H as <-.
    apply serialisable_set; [done|].
    by eapply (serialisable_get _ "exclude"); [exact Hn|].
  - by injection H as <-.
Qed.

Lemma record_decision_serialisable p i logs logs' :
  record_decision p i logs = Ok logs' ->
  serialisable logs = true -> serialisable (new_record i) = true ->
  serialisable logs' = true.
Proof.
  intros H Hl Hn.
  assert (Hi : i = Other \/ i <> Other) by (destruct i; eauto).
  destruct Hi as [->|Hi]; [by injection H as <-|].
  destruct (record_decision_Ok _ _ _ _ H Hi)
    as (kind & fname & dl & m & rec' & _ & -> & Hk & Hrec & ->).
  pose proof (serialisable_get _ _ _ Hl Hk) as Hm.
  rewrite (commit_eq _ _ _ _ Hk).
  apply serialisable_set; [done|]. apply serialisable_set; [done|].
  eapply recorded_serialisable; [exact Hrec| |done].
  unfold Dict.get_default. destruct (Dict.get fname m) eqn:Hf; [|done].
  by eapply serialisable_get.
Qed.

(** With an artifact whose values [json.dump] can write, [update_log]
    keeps the snapshots whatever it does. *)
Lemma update_log_snapshots_json p i fs :
  serialisable (new_record i) = true ->
  snapshots_kept fs (snd (update_log git_hash p i fs)).
Proof.
  intros Hn. pose proof (read_log_snapshots p fs) as H1.
  destruct (read_log git_hash p fs) as [[logs|e] fs1] eqn:Hr;
    [|by rewrite update_log_eq, Hr].
  destruct (record_decision p i logs) as [logs'|e] eqn:Hd;
    [|by rewrite update_log_eq, Hr, Hd].
  rewrite (update_log_outcome _ _ _ _ _ _ Hr Hd).
  destruct (read_log_stored _ _ _ _ _ Hr) as (Hs & Hc & Hj & Hdir).
  assert (Hser : serialisable logs' = true).
  { eapply record_decision_serialisable; [exact Hd| |done].
    by eapply read_log_serialisable. }
  rewrite Hser. cbn [snd].
  eapply snapshots_kept_trans; [exact H1|]. rewrite <- Hj.
  apply snapshots_kept_written; [|done|].
  { unfold _get_json_fname. apply joinpath_nonempty. }
  intros j Hn'. unfold stored_log in Hs. rewrite Hn' in Hs. injection Hs as ->.
  by eapply keeps_snapshots_decision.
Qed.

Lemma reject_snapshots p i required fs :
  snapshots_kept fs (snd (reject git_hash p i required fs)).
Proof.
  rewrite reject_eq. pose proof (read_log_snapshots p fs) as H1.
  destruct (negb _ && required); [apply snapshots_kept_refl|].
  by destruct (read_log git_hash p fs) as [[logs|e] fs1].
Qed.

Lemma is_cleaned_snapshots p kind fs :
  snapshots_kept fs (snd (is_cleaned git_hash p kind fs)).
Proof.
  rewrite is_cleaned_eq. pose proof (read_log_snapshots (parent p) fs) as H1.
  destruct (negb (existsb _ kinds)); [apply snapshots_kept_refl|].
  destruct (negb (exists_ _ _)); [apply snapshots_kept_refl|].
  by destruct (read_log git_hash (parent p) fs) as [[logs|e] fs1].
Qed.

End Snapshots.

Lemma check_field_eq ps field value w :
  check_field (JObj ps) field value w =
  match Dict.get field ps with
  | Some stored => if negb (py_eq value stored) then Raise (ValueError w) else Ok tt
  | None => Raise KeyError
  end.
Proof. unfold check_field. simpl. by destruct (Dict.get field ps). Qed.

(** A snapshot that has the checked fields and differs on one of them:
    the check raises the mismatch of the first that differs. *)
Lemma check_mismatch i d ps :
  Dict.get "params" d = Some (JObj ps) ->
  has_fields i ps = true -> disagrees i ps = true ->
  exists w, is_mismatch (ValueError w) = true /\
    recorded i (JObj d) = Raise (ValueError w) /\
    applied i (JObj d) = Raise (ValueError w).
Proof.
  intros Hp Hh Hd. destruct i as [r|e|c|]; try done.
  - cbn [recorded applied]. unfold _check_epochs_params, Dict.mem.
    rewrite Hp. cbn [negb getitem mbind res_bind]. rewrite Hp.
    cbn [mbind res_bind getitem].
    cbn [has_fields disagrees checked_fields forallb existsb fst snd] in Hh, Hd.
    unfold Dict.mem in Hh.
    destruct (Dict.get "tmin" ps) as [tmin|]; [|done].
    destruct (Dict.get "tmax" ps) as [tmax|]; [|done].
    cbn [mbind res_bind].
    destruct (py_eq (JNum (ep_tmin e)) tmin); cbn [negb mbind res_bind].
    + destruct (py_eq (JNum (ep_tmax e)) tmax); [done|].
      by exists Mismatch_tmax.
    + by exists Mismatch_tmin.
  - cbn [recorded applied]. unfold _check_ica_params, Dict.mem.
    rewrite Hp. cbn [negb getitem mbind res_bind]. rewrite Hp.
    cbn [mbind res_bind]. rewrite !check_field_eq.
    cbn [has_fields disagrees checked_fields forallb existsb fst snd] in Hh, Hd.
    unfold Dict.mem in Hh.
    destruct (Dict.get "ch_names" ps) as [v1|]; [|done].
    destruct (Dict.get "fit_params" ps) as [v2|]; [|done].
    destruct (Dict.get "n_components" ps) as [v3|]; [|done].
    destruct (Dict.get "highpass" ps) as [v4|]; [|done].
    destruct (Dict.get "lowpass" ps) as [v5|]; [|done].
    destruct (Dict.get "sfreq" ps) as [v6|]; [|done].
    destruct (py_eq _ v1); cbn [negb mbind res_bind];
      [|by exists Mismatch_ch_names].
    destruct (py_eq _ v2); cbn [negb mbind res_bind];
      [|by exists Mismatch_fit_params].
    destruct (py_eq _ v3); cbn [negb mbind res_bind];
      [|by exists Mismatch_n_components].
    destruct (py_eq _ v4); cbn [negb mbind res_bind];
      [|by exists Mismatch_highpass].
    destruct (py_eq _ v5); cbn [negb mbind res_bind];
      [|by exists Mismatch_lowpass].
    destruct (py_eq _ v6); cbn [negb mbind res_bind];
      [done|by exists Mismatch_sfreq].
Qed.

(** C2, as the code has it.  Take a record whose [params] snapshot has the
    fields that are compared for equality ([tmin], [tmax] for epochs;
    [ch_names], [fit_params], [n_components], [highpass], [lowpass],
    [sfreq] for ica) and an artifact that differs from it on one of them.
    Then [update_log] and [reject] both raise the [ValueError] of a
    parameter mismatch, once the log is read, and leave the disk as
    [read_log] left it.  Whatever the arguments, [read_log], [reject] and
    [is_cleaned] leave every snapshot that is on disk as it was, in the
    same file, for the same kind and filename.  So does [update_log], with
    one exception: the log is opened for writing before [json.dump] encodes
    the mapping, so when the mapping holds a value of the artifact that
    [json.dump] refuses, the call raises [TypeError] and the log is left cut
    short; it never happens with an artifact whose values are JSON values.
    [save_log] stores the mapping it is given, completed. *)
Theorem C2_snapshot_kept_or_cut_short git_hash fs p i :
  (forall kind fname d ps logs fs1,
     target p i = Ok (kind, fname) ->
     stored_record fs p kind fname = Some (JObj d) ->
     Dict.get "params" d = Some (JObj ps) ->
     has_fields i ps = true ->
     disagrees i ps = true ->
     read_log git_hash p fs = (Ok logs, fs1) ->
     exists w,
       is_mismatch (ValueError w) = true /\
       update_log git_hash p i fs = (Raise (ValueError w), fs1) /\
       forall required,
         reject git_hash p i required fs = (Raise (ValueError w), fs1)) /\
  (forall required kind,
     snapshots_kept fs (snd (read_log git_hash p fs)) /\
     snapshots_kept fs (snd (reject git_hash p i required fs)) /\
     snapshots_kept fs (snd (is_cleaned git_hash p kind fs))) /\
  (let fs' := snd (update_log git_hash p i fs) in
   (snapshots_kept fs fs' \/
    fst (update_log git_hash p i fs) = Raise TypeError /\
    node_at fs' (_get_json_fname fs p) = Some (File Junk)) /\
   (serialisable (new_record i) = true -> snapshots_kept fs fs') /\
   (forall logs fs1 logs',
      read_log git_hash p fs = (Ok logs, fs1) ->
      record_decision p i logs = Ok logs' ->
      serialisable logs' = false ->
      update_log git_hash p i fs
      = (Raise TypeError, <[_get_json_fname fs p := File Junk]> fs1) /\
      stored_log fs' p = None)) /\
  (forall logs logs' fs2,
     save_log git_hash p logs fs = (Ok logs', fs2) ->
     fill_defaults git_hash logs = Ok logs' /\ stored_log fs2 p = Some logs').
Proof.
  split; [|split; [|split]].
  - intros kind fname d ps logs fs1 Ht Hs Hp Hh Hd Hr.
    destruct (check_mismatch i d ps Hp Hh Hd) as (w & Hw & Hrec & Happ).
    exists w. split; [done|].
    pose proof (read_log_records _ _ _ _ _ _ _ _ Hr Hs) as Hrec0.
    assert (Hi : i <> Other) by (by intros ->).
    unfold record_of in Hrec0.
    destruct logs as [| | | | |dl|]; try done.
    destruct (Dict.get kind dl) as [[| | | | |m|]|] eqn:Hk; try done.
    split.
    + rewrite update_log_eq, Hr, record_decision_eq.
      destruct i; try done; rewrite Ht; cbn [mbind res_bind getitem];
        rewrite Hk; cbn [mbind res_bind];
        unfold Dict.get_default; rewrite Hrec0, Hrec; done.
    + intros required. rewrite reject_eq, Hr, apply_decision_eq.
      assert (He : exists_ fs (_get_json_fname fs p) = true).
      { unfold stored_record, stored_log, exists_ in *.
        by destruct (node_at fs (_get_json_fname fs p)). }
      rewrite He. cbn [negb andb].
      destruct i; try done; rewrite Ht; cbn [mbind res_bind getitem];
        rewrite Hk; cbn [mbind res_bind];
        unfold Dict.get_default; rewrite Hrec0, Happ; done.
  - intros required kind.
    split; [apply read_log_snapshots|].
    split; [apply reject_snapshots|apply is_cleaned_snapshots].
  - cbn zeta. split; [apply update_log_snapshots|].
    split; [apply update_log_snapshots_json|].
    intros logs fs1 logs' Hr Hd Hser.
    rewrite (update_log_outcome _ _ _ _ _ _ _ Hr Hd), Hser. split; [done|].
    cbn [snd]. destruct (read_log_stored _ _ _ _ _ Hr) as (_ & _ & <- & _).
    apply stored_log_cut_short.
  - intros logs logs' fs2 (Hf & Hser & _ & ->)%save_log_Ok.
    split; [done|]. by apply stored_log_written.
Qed.

(** The epochs were cut again from -0.5 s instead of -0.2 s: both calls
    raise, and the snapshot is where it was. *)
Lemma C2_witness :
  let fs := Ex.with_log (Ex.log_of "epochs" "sub1-epo.fif" Ex.epochs_record) in
  let i := Epochs (Ex.epochs6 (-5 # 10)) in
  let fs1 := snd (read_log Ex.rev Ex.epo_path fs) in
  exists w,
    is_mismatch (ValueError w) = true /\
    update_log Ex.rev Ex.epo_path i fs = (Raise (ValueError w), fs1) /\
    reject Ex.rev Ex.epo_path i true fs = (Raise (ValueError w), fs1) /\
    snapshot_at (snd (update_log Ex.rev Ex.epo_path i fs))
      Ex.log_path "epochs" "sub1-epo.fif"
      = Some (epochs_params (Ex.epochs6 (-2 # 10))).
Proof.
  cbn zeta.
  destruct (C2_snapshot_kept_or_cut_short Ex.rev
              (Ex.with_log (Ex.log_of "epochs" "sub1-epo.fif" Ex.epochs_record))
              Ex.epo_path (Epochs (Ex.epochs6 (-5 # 10))))
    as (Ha & _ & (_ & Hb & _) & _).
  destruct (Ha "epochs" "sub1-epo.fif"
              [("params", epochs_params (Ex.epochs6 (-2 # 10)));
               ("bads", JArr []);
               ("selection", JArr [JNat 0; JNat 2; JNat 4])]
              [("tmin", JNum (-2 # 10)); ("tmax", JNum 1);
               ("events", JArr (JInt <$> [100; 200; 300; 400; 500; 600]%Z))]
              (Ex.log_of "epochs" "sub1-epo.fif" Ex.epochs_record)
              (snd (read_log Ex.rev Ex.epo_path
                 (Ex.with_log (Ex.log_of "epochs" "sub1-epo.fif" Ex.epochs_record))))
              ltac:(vm_compute; reflexivity) ltac:(vm_compute; reflexivity)
              ltac:(vm_compute; reflexivity) ltac:(vm_compute; reflexivity)
              ltac:(vm_compute; reflexivity)
              ltac:(apply run_eq; vm_compute; reflexivity))
    as (w & Hw & Hu & Hr).
  exists w. split; [exact Hw|]. split; [exact Hu|]. split; [exact (Hr true)|].
  apply (Hb ltac:(vm_compute; reflexivity)).
  vm_compute; reflexivity.
Defined.

(** C2 as stated fails on three counts.  The event onsets are not compared
    for equality: epochs whose onsets have all changed are accepted when
    their selection has no index of the stored one.  [update_log] with an
    [exclude] that [json.dump] refuses leaves the log cut short, with the
    snapshot that was in it gone.  And [save_log] writes the mapping it is
    given over the log, snapshot or not. *)
Lemma C2_counterexample :
  let moved := {| ep_filename := Some Ex.epo_path;
                  ep_tmin := -2 # 10; ep_tmax := 1;
                  ep_events := [150; 350; 550]%Z;
                  ep_selection := [1; 3; 5];
                  ep_drop_log := [["BAD"]; []; ["BAD"]; []; ["BAD"]; []];
                  ep_bads := [] |} in
  let fs_e := Ex.with_log (Ex.log_of "epochs" "sub1-epo.fif" Ex.epochs_record) in
  let fs_i := Ex.with_log (Ex.log_of "icas" "sub1-ica.fif" Ex.ica_record) in
  let opaque := Ex.ica_opaque in
  (forallb (fun ev => negb (py_in (JInt ev)
                             (JInt <$> [100; 200; 300; 400; 500; 600]%Z)))
     (ep_events moved) = true /\
   fst (update_log Ex.rev Ex.epo_path (Epochs moved) fs_e) = Ok tt /\
   fst (reject Ex.rev Ex.epo_path (Epochs moved) true fs_e)
   = Ok (Epochs {| ep_filename := Some Ex.epo_path;
                   ep_tmin := -2 # 10; ep_tmax := 1;
                   ep_events := []; ep_selection := [];
                   ep_drop_log := [["BAD"]; ["Inspection"]; ["BAD"];
                                   ["Inspection"]; ["BAD"]; ["Inspection"]];
                   ep_bads := [] |})) /\
  (snapshot_at fs_i Ex.log_path "icas" "sub1-ica.fif"
   = Some (ica_params (Ex.ica2 [])) /\
   fst (update_log Ex.rev Ex.ica_path (ICA opaque) fs_i) = Raise TypeError /\
   node_at (snd (update_log Ex.rev Ex.ica_path (ICA opaque) fs_i)) Ex.log_path
   = Some (File Junk) /\
   snapshot_at (snd (update_log Ex.rev Ex.ica_path (ICA opaque) fs_i))
     Ex.log_path "icas" "sub1-ica.fif" = None) /\
  (fst (save_log Ex.rev Ex.dir Ex.empty_log fs_i) = Ok Ex.empty_log /\
   snapshot_at (snd (save_log Ex.rev Ex.dir Ex.empty_log fs_i))
     Ex.log_path "icas" "sub1-ica.fif" = None).
Proof. vm_compute. by repeat split. Qed.

(** * Applying a stored decision *)

Section Reject.

Variable git_hash : string.

(** The mapping [read_log] returns has the records of the file and no
    other. *)
Lemma read_log_record_or_empty p fs logs fs1 kind fname m :
  read_log git_hash p fs = (Ok logs, fs1) ->
  kind ∈ kinds ->
  getitem logs kind = Ok (JObj m) ->
  Dict.get_default fname (JObj []) m = record_or_empty fs p kind fname.
Proof.
  intros Hr Hk Hg. apply read_log_Ok in Hr as (j0 & Hsrc & Hf & _ & _).
  destruct j0 as [| | | | |d0|]; try done.
  rewrite (fill_defaults_mapping _ _ _ _ Hf Hk) in Hg. injection Hg as Hg.
  unfold record_or_empty, stored_record, stored_log, Dict.get_default in *.
  rewrite log_source_eq in Hsrc.
  destruct (node_at fs (_get_json_fname fs p)) as [[|[j|]]|]; try done;
    simplify_eq; simpl.
  - by destruct (Dict.get kind d0) as [mp|]; simplify_eq.
  - simpl in Hg. by injection Hg as <-.
Qed.

(** A successful [reject] is a successful read, then the statements of the
    kind on the record of the file. *)
Lemma reject_Ok p i required fs i' fs' :
  reject git_hash p i required fs = (Ok i', fs') ->
  i <> Other ->
  exists logs kind fname,
    read_log git_hash p fs = (Ok logs, fs') /\
    target p i = Ok (kind, fname) /\
    applied i (record_or_empty fs p kind fname) = Ok i'.
Proof.
  rewrite reject_eq. intros H Hi.
  destruct (negb _ && required); [done|].
  destruct (read_log git_hash p fs) as [[logs|e] fs1] eqn:Hr; [|done].
  injection H as H <-. rewrite apply_decision_eq in H. exists logs.
  destruct (target p i) as [[kind fname]|] eqn:Ht; [|by destruct i].
  exists kind, fname. do 2 (split; [done|]).
  pose proof (target_kind _ _ _ _ Ht) as Hk.
  assert (H' : exists m, getitem logs kind = Ok (JObj m) /\
                 applied i (Dict.get_default fname (JObj []) m) = Ok i').
  { destruct i; try done; cbn [mbind res_bind] in H;
      destruct (getitem logs kind) as [[| | | | |m|]|]; try done; eauto. }
  destruct H' as (m & Hg & Ha).
  by rewrite <- (read_log_record_or_empty _ _ _ _ _ _ _ Hr Hk Hg).
Qed.

(** A second [reject] reads what the first one left: the same records. *)
Lemma reject_again p j required fs logs fs' kind fname m :
  read_log git_hash p fs = (Ok logs, fs') ->
  target p j = Ok (kind, fname) ->
  getitem logs kind = Ok (JObj m) ->
  reject git_hash p j required fs' =
    (applied j (record_or_empty fs p kind fname), fs').
Proof.
  intros Hr Ht Hg.
  destruct (read_log_stored _ _ _ _ _ Hr) as (Hs & Hc & Hj & Hdir).
  pose proof (read_log_complete git_hash _ _ _ Hs Hc Hdir) as Hr'.
  pose proof (target_kind _ _ _ _ Ht) as Hk.
  rewrite reject_eq, Hr', apply_decision_eq.
  assert (He : exists_ fs' (_get_json_fname fs' p) = true).
  { unfold stored_log, exists_ in *.
    by destruct (node_at fs' (_get_json_fname fs' p)). }
  rewrite He. cbn [negb andb]. f_equal.
  rewrite <- (read_log_record_or_empty _ _ _ _ _ fname _ Hr Hk Hg).
  destruct j; try done; rewrite Ht; cbn [mbind res_bind]; by rewrite Hg.
Qed.

(** The mapping of a kind, in a successful [reject]. *)
Lemma reject_Ok_mapping p i required fs i' fs' kind fname :
  reject git_hash p i required fs = (Ok i', fs') ->
  target p i = Ok (kind, fname) ->
  exists logs m,
    read_log git_hash p fs = (Ok logs, fs') /\
    getitem logs kind = Ok (JObj m).
Proof.
  rewrite reject_eq. intros H Ht.
  destruct (negb _ && required); [done|].
  destruct (read_log git_hash p fs) as [[logs|e] fs1] eqn:Hr; [|done].
  injection H as H <-. rewrite apply_decision_eq in H. exists logs.
  assert (H' : exists m, getitem logs kind = Ok (JObj m)).
  { destruct i; try done; rewrite Ht in H; cbn [mbind res_bind] in H;
      destruct (getitem logs kind) as [[| | | | |m|]|]; try done; eauto. }
  destruct H' as [m Hm]. eauto.
Qed.

End Reject.

(** C7.  When the filename of a decomposition has a record with an
    [exclude] list and [reject] succeeds, the artifact comes back with that
    list as its [exclude], whatever it had before the call; nothing else
    of the artifact changes. *)
Theorem C7_exclude_replaced git_hash fs p c required d ex i' fs' :
  stored_record fs p "icas" (name p) = Some (JObj d) ->
  Dict.get "exclude" d = Some ex ->
  reject git_hash p (ICA c) required fs = (Ok i', fs') ->
  exists c', i' = ICA c' /\ ica_exclude c' = ex /\ same_but_exclude c c'.
Proof.
  intros Hs Hex Hr.
  apply reject_Ok in Hr as (logs & kind & fname & _ & Ht & Ha); [|done].
  injection Ht as <- <-. unfold record_or_empty in Ha. rewrite Hs in Ha.
  cbn [applied] in Ha.
  destruct (_check_ica_params c (JObj d)) as [t|] eqn:Hc;
    cbn [mbind res_bind] in Ha; [|done].
  apply check_ica_keeps in Hc as (d' & -> & Hk).
  cbn [mbind res_bind py_get] in Ha. unfold Dict.get_default in Ha.
  rewrite (Hk _ _ Hex) in Ha. injection Ha as <-.
  exists (set_exclude c ex). by repeat split.
Qed.

(** Components 1 and 3 were excluded at the review; the decomposition is
    loaded again with component 2 excluded. *)
Lemma C7_witness :
  let fs := Ex.with_log (Ex.log_of "icas" "sub1-ica.fif" Ex.ica_record) in
  ica_exclude (Ex.ica2 [2]) = JArr [JNat 2] /\
  exists c',
    fst (reject Ex.rev Ex.ica_path (ICA (Ex.ica2 [2])) true fs) = Ok (ICA c') /\
    ica_exclude c' = JArr [JNat 1; JNat 3].
Proof.
  cbn zeta. split; [reflexivity|].
  assert (H : fst (reject Ex.rev Ex.ica_path (ICA (Ex.ica2 [2])) true
                     (Ex.with_log (Ex.log_of "icas" "sub1-ica.fif" Ex.ica_record)))
              = Ok (ICA (Ex.ica2 [1; 3]))) by (vm_compute; reflexivity).
  destruct (C7_exclude_replaced Ex.rev
              (Ex.with_log (Ex.log_of "icas" "sub1-ica.fif" Ex.ica_record))
              Ex.ica_path (Ex.ica2 [2]) true
              [("params", ica_params (Ex.ica2 []));
               ("exclude", JArr [JNat 1; JNat 3])]
              (JArr [JNat 1; JNat 3]) _ _
              ltac:(vm_compute; reflexivity) ltac:(vm_compute; reflexivity)
              (run_eq _ _ H)) as (c' & Hc & Hex & _).
  exists c'. split; [by rewrite H, Hc|exact Hex].
Defined.

(** ** Python sets of scalars *)

Lemma py_eq_hashable_trans y z x :
  hashable y = true -> hashable z = true ->
  py_eq y z = true -> py_eq y x = true -> py_eq z x = true.
Proof.
  destruct y as [|b1|q1|s1| | |n1]; try done;
    destruct z as [|b2|q2|s2| | |n2]; try done;
    destruct x as [|b3|q3|s3|l3|d3|n3]; try done; intros _ _; cbn.
  all: try (rewrite !Qeq_bool_iff; intros H1 H2; by rewrite <- H1, <- H2).
  - intros H1%String.eqb_eq H2%String.eqb_eq. subst. apply String.eqb_refl.
  - intros H1%Nat.eqb_eq H2%Nat.eqb_eq. subst. apply Nat.eqb_refl.
Qed.

Lemma py_in_app x l m : py_in x (l ++ m) = py_in x l || py_in x m.
Proof. apply existsb_app. Qed.

Lemma existsb_filter {A : Type} (f g : A -> bool) l :
  existsb f (List.filter g l) = existsb (fun y => g y && f y) l.
Proof.
  induction l as [|a l IH]; [done|]. simpl.
  destruct (g a); simpl; by rewrite IH.
Qed.

Lemma forallb_filter {A : Type} (f g : A -> bool) l :
  forallb f l = true -> forallb f (List.filter g l) = true.
Proof.
  induction l as [|a l IH]; [done|]. simpl.
  intros [Ha Hl]%andb_prop. destruct (g a); simpl; [rewrite Ha|]; auto.
Qed.

Lemma hashable_dedup l :
  forallb hashable l = true -> forallb hashable (dedup_py l) = true.
Proof.
  induction l as [|a l IH]; [done|]. simpl.
  intros [Ha Hl]%andb_prop. rewrite Ha. simpl. apply forallb_filter; auto.
Qed.

Lemma existsb_without x z L :
  hashable z = true -> forallb hashable L = true -> py_eq z x = false ->
  existsb (fun y => negb (py_eq y z) && py_eq y x) L
  = existsb (fun y => py_eq y x) L.
Proof.
  intros Hz HL Ezx. induction L as [|y L IHL]; [done|]. simpl in *.
  apply andb_prop in HL as [Hy HL]. rewrite (IHL HL). f_equal.
  destruct (py_eq y x) eqn:Eyx; [|by rewrite andb_false_r].
  destruct (py_eq y z) eqn:Eyz; [|done].
  by rewrite (py_eq_hashable_trans y z x Hy Hz Eyz Eyx) in Ezx.
Qed.

(** [list(set(l))] has the members of [l]. *)
Lemma py_in_dedup x l :
  forallb hashable l = true -> py_in x (dedup_py l) = py_in x l.
Proof.
  induction l as [|z l IH]; [done|]. simpl.
  intros [Hz Hl]%andb_prop. unfold py_in in *. simpl.
  rewrite existsb_filter, <- (IH Hl).
  destruct (py_eq z x) eqn:Ezx; [done|]. simpl.
  apply existsb_without; auto using hashable_dedup.
Qed.

Lemma mix_bads_Ok t_log bads mixed :
  mix_bads t_log bads = Ok mixed ->
  exists d old,
    t_log = JObj d /\ Dict.get_default "bads" (JArr []) d = JArr old /\
    forallb hashable (old ++ bads) = true /\
    mixed = dedup_py (old ++ bads).
Proof.
  unfold mix_bads, py_get, py_add_list, py_list_set. intros H.
  destruct t_log as [| | | | |d|]; try done. cbn [mbind res_bind] in H.
  destruct (Dict.get_default "bads" (JArr []) d) as [| | | |old| |] eqn:Eo; try done.
  cbn [mbind res_bind] in H.
  destruct (forallb hashable (old ++ bads)) eqn:Eh; [|done].
  injection H as <-. by exists d, old.
Qed.

(** C8.  When [reject] succeeds on a raw artifact, the record of its
    filename (an empty one if it has none) is a dict whose [bads], if any,
    is a list; the artifact comes back with the members of that list and
    of its own [bads] before the call, and no other; and a second [reject]
    on the artifact that came back succeeds, leaves the disk as it is, and
    gives the same set of [bads]. *)
Theorem C8_bads_union_idempotent git_hash fs p r required i' fs' :
  reject git_hash p (Raw r) required fs = (Ok i', fs') ->
  exists fname d old r',
    raw_fname r = Ok fname /\
    record_or_empty fs p "raws" fname = JObj d /\
    Dict.get_default "bads" (JArr []) d = JArr old /\
    i' = Raw r' /\
    raw_filenames r' = raw_filenames r /\
    (forall x, py_in x (raw_bads r') = py_in x old || py_in x (raw_bads r)) /\
    exists r'',
      reject git_hash p (Raw r') required fs' = (Ok (Raw r''), fs') /\
      forall x, py_in x (raw_bads r'') = py_in x (raw_bads r').
Proof.
  intros Hr.
  destruct (reject_Ok _ _ _ _ _ _ _ Hr) as (logs & kind & fname & Hrl & Ht & Ha);
    [done|].
  destruct (reject_Ok_mapping _ _ _ _ _ _ _ _ _ Hr Ht) as (logs' & m & Hrl' & Hm).
  rewrite Hrl in Hrl'. injection Hrl' as <-.
  cbn [target] in Ht. destruct (raw_fname r) as [fn|] eqn:Hfn; [|done].
  injection Ht as <- <-. cbn [applied] in Ha.
  destruct (mix_bads _ (raw_bads r)) as [mixed|] eqn:Hmix; [|done].
  injection Ha as <-.
  apply mix_bads_Ok in Hmix as (d & old & Hd & Ho & Hh & ->).
  exists fn, d, old, (set_raw_bads r (dedup_py (old ++ raw_bads r))).
  do 5 (split; [done|]). split.
  { intros x. cbn [raw_bads set_raw_bads]. by rewrite py_in_dedup, py_in_app. }
  assert (Hh2 : forallb hashable (old ++ dedup_py (old ++ raw_bads r)) = true).
  { rewrite forallb_app in Hh |- *. apply andb_prop in Hh as [H1 H2].
    rewrite H1. simpl. apply hashable_dedup. rewrite forallb_app. by rewrite H1, H2. }
  exists (set_raw_bads r (dedup_py (old ++ dedup_py (old ++ raw_bads r)))).
  split.
  - rewrite (reject_again git_hash p _ required fs logs fs' "raws" fn m Hrl);
      [|by cbn [target]; change (raw_fname (set_raw_bads r _)) with (raw_fname r);
           rewrite Hfn|done].
    rewrite Hd. cbn [applied].
    unfold mix_bads, py_get, py_add_list, py_list_set. cbn [mbind res_bind].
    rewrite Ho. cbn [mbind res_bind raw_bads set_raw_bads]. by rewrite Hh2.
  - intros x. cbn [raw_bads set_raw_bads].
    rewrite (py_in_dedup _ _ Hh2), py_in_app, (py_in_dedup _ _ Hh), py_in_app.
    by destruct (py_in x old).
Qed.

(** With [Cz] stored and [Fz] set at runtime, both are bad after the call,
    and no other channel is. *)
Lemma C8_witness :
  let fs := Ex.with_log (Ex.log_of "raws" "sub1-raw.fif"
                           (JObj [("bads", JArr [JStr "Cz"])])) in
  exists r',
    fst (reject Ex.rev Ex.raw_path (Raw (Ex.raw_with ["Fz"])) true fs) = Ok (Raw r') /\
    py_in (JStr "Cz") (raw_bads r') = true /\
    py_in (JStr "Fz") (raw_bads r') = true /\
    py_in (JStr "Pz") (raw_bads r') = false.
Proof.
  cbn zeta.
  assert (H : fst (reject Ex.rev Ex.raw_path (Raw (Ex.raw_with ["Fz"])) true
                     (Ex.with_log (Ex.log_of "raws" "sub1-raw.fif"
                        (JObj [("bads", JArr [JStr "Cz"])]))))
              = Ok (Raw (Ex.raw_with ["Cz"; "Fz"]))) by (vm_compute; reflexivity).
  destruct (C8_bads_union_idempotent Ex.rev _ Ex.raw_path _ true _ _ (run_eq _ _ H))
    as (fname & d & old & r' & Hf & Hd & Ho & Hi & _ & Hin & _).
  injection Hi as <-. injection Hf as <-.
  exists (Ex.raw_with ["Cz"; "Fz"]). split; [exact H|].
  vm_compute in Hd. injection Hd as <-. vm_compute in Ho. injection Ho as <-.
  rewrite !Hin. by vm_compute.
Defined.

(** * The events of the epochs *)

Lemma num_in_Qeq x y l : Qeq_bool x y = true -> num_in x l = num_in y l.
Proof.
  intros Hxy. unfold num_in. induction l as [|z l IH]; [done|]. simpl.
  rewrite IH. f_equal.
  destruct (Qeq_bool y z) eqn:Eyz.
  - by apply (Qeq_bool_trans x y z).
  - destruct (Qeq_bool x z) eqn:Exz; [|done].
    apply Qeq_bool_sym in Hxy.
    by rewrite (Qeq_bool_trans y x z Hxy Exz) in Eyz.
Qed.

(** For an index of the current selection, being in the intersection is
    being in the previous selection. *)
Lemma num_in_intersect1d x sel prev :
  x ∈ sel ->
  num_in (num_of_nat x) (intersect1d (num_of_nat <$> sel) prev)
  = num_in (num_of_nat x) prev.
Proof.
  intros Hx. unfold intersect1d, num_in at 1. rewrite existsb_filter.
  destruct (num_in (num_of_nat x) prev) eqn:Ep.
  - apply existsb_exists. exists (num_of_nat x). split.
    + apply list_elem_of_In, list_elem_of_fmap. eauto.
    + by rewrite Ep, Qeq_bool_refl.
  - apply not_true_is_false. intros [y [_ Hy]]%existsb_exists.
    apply andb_prop in Hy as [Hy1 Hy2].
    by rewrite (num_in_Qeq _ _ _ Hy2), Hy1 in Ep.
Qed.

Lemma events_to_check_Ok this_events inter this_selection :
  forall i,
    i + length this_selection <= length this_events ->
    exists to_check,
      events_to_check this_events inter i this_selection = Ok to_check /\
      forall ev, In ev to_check <->
        exists k x, this_selection !! k = Some x /\
                    this_events !! (i + k) = Some ev /\
                    num_in (num_of_nat x) inter = true.
Proof.
  induction this_selection as [|x rest IH]; intros i Hlen.
  - exists []. split; [done|]. intros ev. split; [done|].
    by intros (k & y & Hk & _).
  - simpl in Hlen.
    destruct (IH (S i)) as (tl & Htl & Hmem); [lia|].
    destruct (lookup_lt_is_Some_2 this_events i) as [ev0 Hev0]; [lia|].
    cbn [events_to_check]. rewrite Hev0, Htl. cbn [mbind res_bind].
    destruct (num_in (num_of_nat x) inter) eqn:Ex.
    + exists (ev0 :: tl). split; [done|]. intros ev. simpl. rewrite Hmem. split.
      * intros [<-|(k & y & Hk & He & Hy)].
        -- exists 0, x. by rewrite Nat.add_0_r.
        -- exists (S k), y. by rewrite Nat.add_succ_r.
      * intros ([|k] & y & Hk & He & Hy).
        -- left. rewrite Nat.add_0_r in He. injection Hk as <-. congruence.
        -- right. exists k, y. by rewrite Nat.add_succ_r in He.
    + exists tl. split; [done|]. intros ev. rewrite Hmem. split.
      * intros (k & y & Hk & He & Hy). exists (S k), y. by rewrite Nat.add_succ_r.
      * intros ([|k] & y & Hk & He & Hy).
        -- injection Hk as <-. congruence.
        -- exists k, y. by rewrite Nat.add_succ_r in He.
Qed.

Lemma all_in_list evs to_check :
  all_in (JArr evs) to_check
  = Ok (forallb (fun ev => py_in (JInt ev) evs) to_check).
Proof.
  induction to_check as [|ev tl IH]; [done|]. cbn [all_in py_contains forallb].
  cbn [mbind res_bind]. by destruct (py_in (JInt ev) evs).
Qed.









(** Two more runs of the check.  The onset of the epoch 2 has moved: the
    events mismatch is raised. *)
Example check_epochs_moved_onset :
  _check_epochs_params
    {| ep_filename := Some Ex.epo_path; ep_tmin := -2 # 10; ep_tmax := 1;
       ep_events := [100; 200; 301; 400; 500; 600]%Z;
       ep_selection := [0; 1; 2; 3; 4; 5];
       ep_drop_log := [[]; []; []; []; []; []]; ep_bads := [] |}
    Ex.epochs_record
  = Raise (ValueError Mismatch_events).
Proof. vm_compute. reflexivity. Qed.

(** A record with [params] and no [selection]; the epochs 0, 2 and 5 are
    what is left of six.  The previous selection is then taken to be the
    positions 0, 1, 2, so the onset of the epoch 5 is not looked at. *)
Example check_epochs_fallback_positions :
  _check_epochs_params
    {| ep_filename := Some Ex.epo_path; ep_tmin := -2 # 10; ep_tmax := 1;
       ep_events := [100; 300; 999]%Z;
       ep_selection := [0; 2; 5];
       ep_drop_log := [[]; ["BAD"]; []; ["BAD"]; ["BAD"]; []]; ep_bads := [] |}
    (JObj [("params", epochs_params (Ex.epochs6 (-2 # 10)))])
  = Ok (JObj [("params", epochs_params (Ex.epochs6 (-2 # 10)))]).
Proof. vm_compute. reflexivity. Qed.

(** * Dropping the rejected epochs *)

Lemma check_epochs_selection e d t :
  _check_epochs_params e (JObj d) = Ok t ->
  exists d', t = JObj d' /\ Dict.get "selection" d' = Dict.get "selection" d.
Proof.
  unfold _check_epochs_params. destruct (negb (Dict.mem "params" d)).
  - intros [= <-]. eexists; split; [done|]. by rewrite DictFacts.get_set_ne.
  - intros H. res_cases; eauto.
Qed.

Lemma to_drop_Ok prev selection td :
  to_drop prev selection = Ok td ->
  td = List.filter (fun x => negb (in_selection prev x)) selection.
Proof.
  revert td. induction selection as [|x rest IH]; intros td; simpl.
  - by intros [= <-].
  - unfold in_selection at 1.
    destruct (py_contains prev (JNat x)) as [b|]; [|done]. cbn [mbind res_bind].
    destruct (to_drop prev rest) as [tl|]; [|done]. cbn [mbind res_bind].
    intros [= <-]. rewrite <- (IH tl eq_refl). by destruct b.
Qed.

(** The positions the loop of [reject] collects: those of the kept epochs
    whose original index is to be dropped. *)
Lemma drop_idx_spec td drop_log :
  forall i c k,
    existsb (Nat.eqb k) (drop_idx td drop_log i c) = true <->
    exists j x, kept_from i drop_log !! j = Some x /\ k = c + j /\
                existsb (Nat.eqb x) td = true.
Proof.
  induction drop_log as [|dlog rest IH]; intros i c k; simpl.
  - split; [done|]. by intros (j & x & Hj & _).
  - destruct (Nat.eqb (length dlog) 0).
    + rewrite existsb_app, orb_true_iff, IH. split.
      * intros [H|(j & x & Hj & -> & Hx)].
        -- destruct (existsb (Nat.eqb i) td) eqn:Ei; [|done]. simpl in H.
           rewrite orb_false_r in H. apply Nat.eqb_eq in H as ->.
           exists 0, i. by rewrite Nat.add_0_r.
        -- exists (S j), x. split; [done|]. split; [lia|done].
      * intros ([|j] & x & Hj & -> & Hx).
        -- left. injection Hj as <-. rewrite Hx. simpl.
           by rewrite Nat.add_0_r, Nat.eqb_refl.
        -- right. exists j, x. split; [done|]. split; [lia|done].
    + apply IH.
Qed.

Lemma keep_from_filter (keep g : nat -> bool) s :
  forall k,
    (forall j x, s !! j = Some x -> keep (k + j) = g x) ->
    keep_from keep k s = List.filter g s.
Proof.
  induction s as [|x rest IH]; intros k Hk; [done|]. simpl.
  rewrite <- (Hk 0 x eq_refl), Nat.add_0_r.
  rewrite (IH (S k)); [done|].
  intros j y Hj. rewrite <- (Hk (S j) y Hj). f_equal. lia.
Qed.

Lemma keep_from_combine {A : Type} (keep g : nat -> bool) s :
  forall (l : list A) k,
    (forall j x, s !! j = Some x -> keep (k + j) = g x) ->
    length l = length s ->
    combine (keep_from keep k s) (keep_from keep k l)
    = List.filter (fun p => g (fst p)) (combine s l).
Proof.
  induction s as [|x rest IH]; intros [|a l] k Hk Hlen; try done. simpl.
  rewrite <- (Hk 0 x eq_refl), Nat.add_0_r.
  assert (Hrest : combine (keep_from keep (S k) rest) (keep_from keep (S k) l)
                  = List.filter (fun p => g (fst p)) (combine rest l)).
  { apply IH; [|by injection Hlen].
    intros j y Hj. rewrite <- (Hk (S j) y Hj). f_equal. lia. }
  destruct (keep k); simpl; by rewrite Hrest.
Qed.

Lemma keep_from_all {A : Type} (keep : nat -> bool) (l : list A) :
  forall k, (forall j, keep j = true) -> keep_from keep k l = l.
Proof.
  induction l as [|a l IH]; intros k Hk; [done|]. simpl.
  by rewrite Hk, IH.
Qed.

Lemma keep_from_none {A : Type} (keep : nat -> bool) (l : list A) :
  forall k, (forall j, keep j = false) -> keep_from keep k l = [].
Proof.
  induction l as [|a l IH]; intros k Hk; [done|]. simpl.
  by rewrite Hk, IH.
Qed.

Lemma mark_dropped_Ok reason gone :
  forall drop_log drop_log',
    mark_dropped reason gone drop_log = Ok drop_log' ->
    (forall x, x ∈ gone -> drop_log' !! x = Some [reason]) /\
    (forall x, x ∉ gone -> drop_log' !! x = drop_log !! x).
Proof.
  induction gone as [|k rest IH]; intros dl dl'; simpl.
  - intros [= <-]. split; [|done]. by intros x ?%elem_of_nil.
  - destruct (Nat.ltb k (length dl)) eqn:Hk; [|done].
    apply Nat.ltb_lt in Hk. intros H.
    destruct (IH _ _ H) as [Hin Hout]. split.
    + intros x [->|Hx]%elem_of_cons; [|by apply Hin].
      destruct (decide (k ∈ rest)) as [Hr|Hr]; [by apply Hin|].
      rewrite (Hout _ Hr). by apply list_lookup_insert_eq.
    + intros x [Hne Hx]%not_elem_of_cons.
      rewrite (Hout _ Hx). by apply list_lookup_insert_ne.
Qed.

Lemma drop_idx_nil drop_log : forall i c, drop_idx [] drop_log i c = [].
Proof.
  induction drop_log as [|dlog rest IH]; intros i c; [done|]. simpl.
  destruct (Nat.eqb (length dlog) 0); by rewrite IH.
Qed.

Lemma existsb_eqb_filter (h : nat -> bool) x l :
  x ∈ l -> existsb (Nat.eqb x) (List.filter h l) = h x.
Proof.
  intros Hx. destruct (h x) eqn:Eh.
  - apply existsb_exists. exists x. split; [|apply Nat.eqb_refl].
    apply filter_In. by rewrite <- list_elem_of_In.
  - apply not_true_is_false. intros (y & [_ Hy]%filter_In & <-%Nat.eqb_eq)%existsb_exists.
    congruence.
Qed.

Lemma filter_all {A : Type} (h : A -> bool) l :
  (forall x, x ∈ l -> h x = true) -> List.filter h l = l.
Proof.
  induction l as [|a l IH]; intros H; [done|]. simpl.
  rewrite (H a) by (apply elem_of_cons; by left).
  rewrite IH; [done|]. intros x Hx. apply H, elem_of_cons. by right.
Qed.

Lemma filter_none {A : Type} (h : A -> bool) l :
  (forall x, x ∈ l -> h x = false) -> List.filter h l = [].
Proof.
  induction l as [|a l IH]; intros H; [done|]. simpl.
  rewrite (H a) by (apply elem_of_cons; by left).
  apply IH. intros x Hx. apply H, elem_of_cons. by right.
Qed.

(** An index is in its own selection. *)
Lemma in_own_selection selection x :
  x ∈ selection -> in_selection (JArr (JNat <$> selection)) x = true.
Proof.
  intros Hx. unfold in_selection, py_contains, py_in.
  apply existsb_exists. exists (JNat x). split.
  - apply list_elem_of_In, list_elem_of_fmap. eauto.
  - cbn. apply Qeq_bool_refl.
Qed.

(** What [drop] leaves, when it succeeds. *)
Lemma drop_Ok e indices reason e' :
  drop e indices reason = Ok e' ->
  let keep := fun k => negb (existsb (Nat.eqb k) indices) in
  ep_selection e' = keep_at keep (ep_selection e) /\
  ep_events e' = keep_at keep (ep_events e) /\
  mark_dropped reason (keep_at (fun k => negb (keep k)) (ep_selection e))
    (ep_drop_log e) = Ok (ep_drop_log e').
Proof.
  unfold drop. destruct (forallb _ indices); [|done].
  destruct (mark_dropped _ _ _) as [dl|]; [|done].
  cbn [mbind res_bind]. by intros [= <-].
Qed.

(** C6.  For an epochs object as MNE keeps it (the epochs with an empty
    drop log are the selected ones, each with its event), when [reject]
    succeeds: the record of the filename (an empty one if it has none) is a
    dict; if it has no [selection] nothing is dropped; if it has one, the
    epochs that stay are those whose original index is in it, with their
    events, in their order, and every selected index that is not in it gets
    the drop reason [Inspection], the rest of the drop log staying as it
    was. *)
Theorem C6_selection_subset git_hash fs p e required i' fs' :
  kept_indices (ep_drop_log e) = ep_selection e ->
  length (ep_events e) = length (ep_selection e) ->
  reject git_hash p (Epochs e) required fs = (Ok i', fs') ->
  exists fname d e',
    epochs_fname e = Ok fname /\
    record_or_empty fs p "epochs" fname = JObj d /\
    i' = Epochs e' /\
    match Dict.get "selection" d with
    | None =>
        ep_selection e' = ep_selection e /\
        ep_events e' = ep_events e /\
        ep_drop_log e' = ep_drop_log e
    | Some prev =>
        ep_selection e' = List.filter (in_selection prev) (ep_selection e) /\
        combine (ep_selection e') (ep_events e') =
          List.filter (fun xe => in_selection prev (fst xe))
                      (combine (ep_selection e) (ep_events e)) /\
        (forall x, x ∈ ep_selection e -> in_selection prev x = false ->
                   ep_drop_log e' !! x = Some ["Inspection"]) /\
        (forall x, ~ (x ∈ ep_selection e /\ in_selection prev x = false) ->
                   ep_drop_log e' !! x = ep_drop_log e !! x)
    end.
Proof.
  intros Hwf Hlen Hr.
  destruct (reject_Ok _ _ _ _ _ _ _ Hr) as (logs & kind & fname & _ & Ht & Ha);
    [done|].
  cbn [target] in Ht. destruct (epochs_fname e) as [fn|] eqn:Hfn; [|done].
  injection Ht as <- <-. cbn [applied] in Ha.
  destruct (_check_epochs_params e _) as [t|] eqn:Hc; [|done].
  cbn [mbind res_bind] in Ha.
  destruct (record_or_empty fs p "epochs" fn) as [| | | | |d|] eqn:Hrec; try done.
  apply check_epochs_selection in Hc as (d1 & -> & Hsel).
  destruct (mix_bads (JObj d1) (ep_bads e)) as [bads|]; [|done].
  cbn [mbind res_bind py_get] in Ha.
  change (ep_selection (set_epochs_bads e bads)) with (ep_selection e) in Ha.
  change (ep_drop_log (set_epochs_bads e bads)) with (ep_drop_log e) in Ha.
  set (prevJ := Dict.get_default "selection" (JArr (JNat <$> ep_selection e)) d1) in Ha.
  destruct (to_drop prevJ (ep_selection e)) as [td|] eqn:Htd; [|done].
  cbn [mbind res_bind] in Ha. apply to_drop_Ok in Htd.
  destruct (drop _ _ "Inspection") as [e'|] eqn:Hdrop; [|done].
  injection Ha as <-. exists fn, d, e'. do 3 (split; [done|]).
  apply drop_Ok in Hdrop as (Hs' & He' & Hm). cbn zeta in *.
  change (ep_selection (set_epochs_bads e bads)) with (ep_selection e) in *.
  change (ep_events (set_epochs_bads e bads)) with (ep_events e) in *.
  change (ep_drop_log (set_epochs_bads e bads)) with (ep_drop_log e) in *.
  unfold keep_at in *.
  set (keep := fun k => negb (existsb (Nat.eqb k)
                 (drop_idx td (ep_drop_log e) 0 0))) in *.
  assert (Hkeep : forall j x, ep_selection e !! j = Some x ->
                              keep (0 + j) = in_selection prevJ x).
  { intros j x Hj. unfold keep. simpl.
    assert (Hx : x ∈ ep_selection e) by (by eapply list_elem_of_lookup_2).
    destruct (existsb (Nat.eqb j) _) eqn:Ej; simpl.
    - apply drop_idx_spec in Ej as (j' & x' & Hj' & -> & Hx').
      unfold kept_indices in Hwf. rewrite Hwf in Hj'. simpl in Hj.
      rewrite Hj in Hj'. injection Hj' as <-.
      rewrite Htd, (existsb_eqb_filter _ _ _ Hx) in Hx'.
      by destruct (in_selection prevJ x).
    - destruct (in_selection prevJ x) eqn:Eg; [done|].
      assert (Hyes : existsb (Nat.eqb j) (drop_idx td (ep_drop_log e) 0 0) = true).
      { apply drop_idx_spec. exists j, x.
        unfold kept_indices in Hwf. rewrite Hwf. do 2 (split; [done|]).
        by rewrite Htd, (existsb_eqb_filter _ _ _ Hx), Eg. }
      congruence. }
  assert (Hgone : keep_from (fun k => negb (keep k)) 0 (ep_selection e) = td).
  { rewrite Htd. apply keep_from_filter. intros j x Hj. by rewrite (Hkeep j x Hj). }
  change (mark_dropped "Inspection"
            (keep_from (fun k => negb (keep k)) 0 (ep_selection e))
            (ep_drop_log e) = Ok (ep_drop_log e')) in Hm.
  rewrite Hgone in Hm. apply mark_dropped_Ok in Hm as [Hin Hout].
  assert (Htd_mem : forall x, x ∈ td <->
                      x ∈ ep_selection e /\ in_selection prevJ x = false).
  { intros x. rewrite Htd, !list_elem_of_In, filter_In, negb_true_iff. done. }
  unfold prevJ, Dict.get_default in *. rewrite Hsel in *.
  destruct (Dict.get "selection" d) as [prev|] eqn:Hprev.
  - split; [by rewrite Hs'; apply keep_from_filter|].
    split; [by rewrite Hs', He'; apply keep_from_combine|].
    split.
    + intros x Hx Hg. apply Hin, Htd_mem. done.
    + intros x Hx. apply Hout. by rewrite Htd_mem.
  - assert (Hnil : td = []).
    { rewrite Htd. apply filter_none. intros x Hx.
      by rewrite (in_own_selection _ _ Hx). }
    assert (Hall : forall j, keep j = true).
    { intros j. unfold keep. by rewrite Hnil, drop_idx_nil. }
    split; [by rewrite Hs'; apply keep_from_all|].
    split; [by rewrite He'; apply keep_from_all|].
    apply list_eq. intros x. apply Hout. rewrite Hnil. apply not_elem_of_nil.
Qed.

(** The example of the specification: the record kept the epochs 0, 2 and
    4, and the object comes with the epochs 0 to 5.  The epochs 1, 3 and 5
    are dropped for [Inspection]; 0, 2 and 4 stay. *)
Lemma C6_witness :
  let fs := Ex.with_log (Ex.log_of "epochs" "sub1-epo.fif" Ex.epochs_record) in
  exists e',
    fst (reject Ex.rev Ex.epo_path (Epochs (Ex.epochs6 (-2 # 10))) true fs)
      = Ok (Epochs e') /\
    ep_selection e' = [0; 2; 4] /\
    ep_drop_log e' !! 1 = Some ["Inspection"] /\
    ep_drop_log e' !! 3 = Some ["Inspection"] /\
    ep_drop_log e' !! 5 = Some ["Inspection"] /\
    ep_drop_log e' !! 0 = Some [].
Proof.
  cbn zeta.
  set (result := {| ep_filename := Some Ex.epo_path;
                    ep_tmin := -2 # 10; ep_tmax := 1;
                    ep_events := [100; 300; 500]%Z;
                    ep_selection := [0; 2; 4];
                    ep_drop_log := [[]; ["Inspection"]; []; ["Inspection"];
                                    []; ["Inspection"]];
                    ep_bads := [] |}).
  assert (H : fst (reject Ex.rev Ex.epo_path (Epochs (Ex.epochs6 (-2 # 10))) true
                     (Ex.with_log (Ex.log_of "epochs" "sub1-epo.fif"
                                     Ex.epochs_record)))
              = Ok (Epochs result)) by (vm_compute; reflexivity).
  destruct (C6_selection_subset Ex.rev
              (Ex.with_log (Ex.log_of "epochs" "sub1-epo.fif" Ex.epochs_record))
              Ex.epo_path (Ex.epochs6 (-2 # 10)) true (Epochs result) _
              eq_refl eq_refl (run_eq _ _ H))
    as (fname & d & e' & Hf & Hd & He & Hsel).
  injection He as <-. injection Hf as <-.
  vm_compute in Hd. injection Hd as <-.
  cbn [Dict.get String.eqb Ascii.eqb Bool.eqb] in Hsel.
  destruct Hsel as (Hs & _ & Hin & Hout).
  exists result. split; [exact H|]. split; [exact Hs|].
  split; [apply Hin; [|reflexivity]; cbn; rewrite !elem_of_cons; tauto|].
  split; [apply Hin; [|reflexivity]; cbn; rewrite !elem_of_cons; tauto|].
  split; [apply Hin; [|reflexivity]; cbn; rewrite !elem_of_cons; tauto|].
  reflexivity.
Defined.

(** * More on the log store *)

Section StoreMore.

Variable git_hash : string.

(** [read_log] and [save_log] use their path to find the log and for
    nothing else. *)
Lemma read_log_same_file p q fs :
  _get_json_fname fs p = _get_json_fname fs q ->
  read_log git_hash p fs = read_log git_hash q fs.
Proof. intros H. by rewrite !read_log_eq, H. Qed.

Lemma save_log_same_file p q logs fs :
  _get_json_fname fs p = _get_json_fname fs q ->
  save_log git_hash p logs fs = save_log git_hash q logs fs.
Proof. intros H. by rewrite !save_log_eq, H. Qed.

Lemma json_fname_of_file fs p :
  is_file fs p = true -> is_dir fs (parent p) = true ->
  _get_json_fname fs (parent p) = _get_json_fname fs p.
Proof.
  intros Hf Hd. unfold _get_json_fname. rewrite Hf.
  unfold is_dir, is_file in *. by destruct (node_at fs (parent p)) as [[|]|].
Qed.

Lemma fill_defaults_errors logs :
  loadable logs = false ->
  fill_defaults git_hash logs = Raise TypeError \/
  fill_defaults git_hash logs = Raise KeyError.
Proof.
  destruct logs as [| | | | |d|]; simpl; auto.
  set (d3 := default_key "icas" _ _). intros H.
  assert (H3 : Dict.get "config" d3 = Dict.get "config" d).
  { unfold d3. rewrite !default_key_get. by destruct (Dict.get "config" d). }
  unfold Dict.mem in *. rewrite !H3.
  destruct (Dict.get "config" d) as [[| | | | |c|]|] eqn:Ec; try done; simpl; auto.
  destruct (Dict.get "version" c); [done|]. auto.
Qed.

End StoreMore.

(** X1.  For a file in a directory, the log is the [eeg_cleaner.json] of
    the directory, and reading or saving the log by the path of the file
    and by the path of the directory are the same computation. *)
Theorem X1_file_or_directory git_hash fs p :
  is_file fs p = true -> is_dir fs (parent p) = true ->
  _get_json_fname fs p = joinpath (parent p) json_name /\
  read_log git_hash p fs = read_log git_hash (parent p) fs /\
  forall logs, save_log git_hash p logs fs = save_log git_hash (parent p) logs fs.
Proof.
  intros Hf Hd. pose proof (json_fname_of_file fs p Hf Hd) as H.
  split; [by unfold _get_json_fname; rewrite Hf|].
  split; [by apply read_log_same_file|].
  intros logs. by apply save_log_same_file.
Qed.

Lemma X1_witness :
  read_log Ex.rev Ex.raw_path Ex.disk0 = read_log Ex.rev Ex.dir Ex.disk0.
Proof.
  apply (X1_file_or_directory Ex.rev Ex.disk0 Ex.raw_path);
    vm_compute; reflexivity.
Defined.

(** X2.  A read that succeeds leaves a log that reads back as the same
    mapping, with nothing more written. *)
Theorem X2_read_log_twice git_hash fs p logs fs' :
  read_log git_hash p fs = (Ok logs, fs') ->
  read_log git_hash p fs' = (Ok logs, fs').
Proof.
  intros H. destruct (read_log_stored _ _ _ _ _ H) as (Hs & Hc & _ & Hd).
  by apply read_log_complete.
Qed.

Lemma X2_witness :
  let fs' := snd (read_log Ex.rev Ex.raw_path Ex.disk0) in
  read_log Ex.rev Ex.raw_path fs' = (Ok Ex.empty_log, fs').
Proof.
  cbn zeta.
  apply (X2_read_log_twice Ex.rev Ex.disk0), run_eq.
  vm_compute. reflexivity.
Defined.

(** X3.  A read that raises has written nothing.  It raises
    [JSONDecodeError] on a log that is not JSON, [TypeError] or [KeyError]
    on a JSON value that is not an object or whose [config] is not an
    object with a [version], and [OSError] where there is neither a log
    nor a directory to make it in. *)
Theorem X3_read_log_failures git_hash fs p :
  let f := _get_json_fname fs p in
  (forall e fs', read_log git_hash p fs = (Raise e, fs') -> fs' = fs) /\
  (node_at fs f = Some (File Junk) ->
   read_log git_hash p fs = (Raise JSONDecodeError, fs)) /\
  (forall j, node_at fs f = Some (File (JsonText j)) -> loadable j = false ->
   read_log git_hash p fs = (Raise TypeError, fs) \/
   read_log git_hash p fs = (Raise KeyError, fs)) /\
  (node_at fs f = None -> is_dir fs (parent f) = false ->
   read_log git_hash p fs = (Raise OSError, fs)).
Proof.
  cbn zeta. split; [intros e fs'; apply read_log_Raise|].
  rewrite read_log_eq, log_source_eq. repeat split.
  - by intros ->.
  - intros j -> Hl.
    by destruct (fill_defaults_errors git_hash j Hl) as [-> | ->]; [left|right].
  - intros Hn Hd. rewrite Hn. cbn. unfold is_dir in *.
    rewrite Hn. by destruct (node_at fs (parent _)) as [[|]|].
Qed.

(** A log that is not JSON is left as it is; a path that leads nowhere
    gets no log. *)
Lemma X3_witness :
  let fs := <[Ex.log_path := File Junk]> Ex.disk0 in
  read_log Ex.rev Ex.dir fs = (Raise JSONDecodeError, fs) /\
  read_log Ex.rev ["nowhere"; "sub1-raw.fif"] Ex.disk0 = (Raise OSError, Ex.disk0).
Proof.
  cbn zeta. split.
  - apply (X3_read_log_failures Ex.rev (<[Ex.log_path := File Junk]> Ex.disk0) Ex.dir).
    vm_compute. reflexivity.
  - apply (X3_read_log_failures Ex.rev Ex.disk0 ["nowhere"; "sub1-raw.fif"]);
      vm_compute; reflexivity.
Defined.

(** X4.  What [save_log] writes is what [read_log] gives back: after a
    save that succeeds, the log holds the completed mapping, and reading
    returns it without changing the disk. *)
Theorem X4_save_then_read git_hash fs p logs logs' fs' :
  save_log git_hash p logs fs = (Ok logs', fs') ->
  fill_defaults git_hash logs = Ok logs' /\
  complete logs' = true /\
  stored_log fs' p = Some logs' /\
  read_log git_hash p fs' = (Ok logs', fs').
Proof.
  intros (Hf & Hser & Hd & ->)%save_log_Ok.
  pose proof (fill_defaults_is_complete _ _ _ Hf) as Hc.
  pose proof (stored_log_written fs p logs' Hser) as Hs.
  do 3 (split; [done|]).
  apply read_log_complete; [done..|].
  rewrite get_json_fname_written. unfold is_dir in *.
  rewrite node_at_insert by (unfold _get_json_fname; apply joinpath_nonempty).
  case_decide as E; [|done].
  unfold _get_json_fname in E. rewrite parent_joinpath in E.
  by apply symmetry, joinpath_neq in E.
Qed.

Lemma X4_witness :
  let fs' := snd (save_log Ex.rev Ex.dir (JObj [("notes", JNull)]) Ex.disk0) in
  read_log Ex.rev Ex.dir fs'
  = (Ok (JObj [("notes", JNull); ("raws", JObj []); ("epochs", JObj []);
               ("icas", JObj []); ("config", JObj [("version", JStr Ex.rev)])]),
     fs').
Proof.
  cbn zeta.
  apply (X4_save_then_read Ex.rev Ex.disk0 Ex.dir (JObj [("notes", JNull)])),
    run_eq.
  vm_compute. reflexivity.
Defined.

(** * More on [is_cleaned] *)

Lemma kinds_valid kind : kind ∈ kinds -> existsb (String.eqb kind) kinds = true.
Proof.
  unfold kinds. rewrite !elem_of_cons, elem_of_nil.
  intros [->|[->|[->|[]]]]; reflexivity.
Qed.

Section IsCleaned.

Variable git_hash : string.

(** The mapping [read_log] returns has, under the three kinds, the records
    of the file. *)
Lemma read_log_record_of p fs logs fs1 kind fname :
  read_log git_hash p fs = (Ok logs, fs1) ->
  kind ∈ kinds ->
  record_of logs kind fname = stored_record fs p kind fname.
Proof.
  intros Hr Hk. apply read_log_Ok in Hr as (j0 & Hsrc & Hf & _ & _).
  destruct j0 as [| | | | |d0|]; try done.
  pose proof (fill_defaults_mapping _ _ _ _ Hf Hk) as Hg.
  destruct logs as [| | | | |dl|]; try done. simpl in Hg.
  unfold stored_record, stored_log, record_of.
  destruct (Dict.get kind dl) as [v|]; [|done]. injection Hg as ->.
  rewrite log_source_eq in Hsrc. unfold Dict.get_default.
  destruct (node_at fs (_get_json_fname fs p)) as [[|[j|]]|]; try done;
    simplify_eq; simpl; [by destruct (Dict.get kind d0)|done].
Qed.

Lemma is_cleaned_via_read p kind fs logs fs1 m :
  is_file fs p = true -> is_dir fs (parent p) = true ->
  kind ∈ kinds ->
  exists_ fs (_get_json_fname fs p) = true ->
  read_log git_hash p fs = (Ok logs, fs1) ->
  getitem logs kind = Ok (JObj m) ->
  is_cleaned git_hash p kind fs = (Ok (Dict.mem (name p) m), fs1).
Proof.
  intros Hf Hd Hk He Hr Hg. rewrite is_cleaned_eq, (kinds_valid _ Hk), He.
  cbn [negb].
  rewrite (read_log_same_file git_hash (parent p) p fs)
    by (by apply json_fname_of_file).
  rewrite Hr, Hg. cbn [mbind res_bind py_contains]. done.
Qed.

End IsCleaned.

(** X5.  For a file in a directory whose log is a JSON object that can be
    completed, and a kind whose mapping is a dict or is missing,
    [is_cleaned] answers whether the log has a record for the name of the
    file under that kind. *)
Theorem X5_is_cleaned_answer git_hash fs p kind d :
  is_file fs p = true -> is_dir fs (parent p) = true ->
  kind ∈ kinds ->
  stored_log fs p = Some (JObj d) ->
  loadable (JObj d) = true ->
  (forall v, Dict.get kind d = Some v -> exists m, v = JObj m) ->
  fst (is_cleaned git_hash p kind fs) = Ok (has_record fs p kind (name p)).
Proof.
  intros Hf Hd Hk Hs Hl Hm.
  destruct (fill_defaults_loadable git_hash _ Hl) as [logs Hfill].
  assert (Hj : _get_json_fname fs p = joinpath (parent p) json_name)
    by (by unfold _get_json_fname; rewrite Hf).
  assert (Hn : node_at fs (_get_json_fname fs p) = Some (File (JsonText (JObj d)))).
  { unfold stored_log in Hs.
    by destruct (node_at fs (_get_json_fname fs p)) as [[|[j|]]|]; simplify_eq. }
  assert (Hr : read_log git_hash p fs =
               (Ok logs, <[_get_json_fname fs p := File (JsonText logs)]> fs)).
  { rewrite read_log_eq, log_source_eq, Hn, Hfill. unfold is_dir at 1.
    by rewrite Hn, Hj, parent_joinpath, Hd. }
  pose proof (fill_defaults_mapping _ _ _ _ Hfill Hk) as Hg.
  assert (Hdict : exists m, Dict.get_default kind (JObj []) d = JObj m /\
                            Dict.mem (name p) m = has_record fs p kind (name p)).
  { unfold has_record, stored_record, Dict.get_default, Dict.mem. rewrite Hs. simpl.
    destruct (Dict.get kind d) as [v|] eqn:Ev.
    - destruct (Hm v eq_refl) as [m ->]. by exists m.
    - by exists []. }
  destruct Hdict as (m & Hm' & <-). rewrite Hm' in Hg.
  assert (He : exists_ fs (_get_json_fname fs p) = true)
    by (by unfold exists_; rewrite Hn).
  by rewrite (is_cleaned_via_read git_hash p kind fs logs _ m Hf Hd Hk He Hr Hg).
Qed.

Lemma X5_witness :
  let fs := Ex.with_log (Ex.log_of "raws" "sub1-raw.fif"
                           (JObj [("bads", JArr [JStr "Cz"])])) in
  fst (is_cleaned Ex.rev Ex.raw_path "raws" fs) = Ok true /\
  fst (is_cleaned Ex.rev Ex.epo_path "raws" fs) = Ok false.
Proof.
  cbn zeta. split.
  - rewrite (X5_is_cleaned_answer Ex.rev _ Ex.raw_path "raws"
               [("raws", JObj [("sub1-raw.fif", JObj [("bads", JArr [JStr "Cz"])])]);
                ("epochs", JObj []); ("icas", JObj []);
                ("config", JObj [("version", JStr Ex.rev)])]);
      try (vm_compute; reflexivity).
    + apply elem_of_cons. by left.
    + intros v [= <-]. eauto.
  - rewrite (X5_is_cleaned_answer Ex.rev _ Ex.epo_path "raws"
               [("raws", JObj [("sub1-raw.fif", JObj [("bads", JArr [JStr "Cz"])])]);
                ("epochs", JObj []); ("icas", JObj []);
                ("config", JObj [("version", JStr Ex.rev)])]);
      try (vm_compute; reflexivity).
    + apply elem_of_cons. by left.
    + intros v [= <-]. eauto.
Defined.

(** X6.  A path at which there is nothing, with no [eeg_cleaner.json]
    under it, is never cleaned: [is_cleaned] looks for the log under the
    path itself when the path is not a file, so the answer is [False]
    whatever the log of the directory holds, and nothing is written. *)
Theorem X6_is_cleaned_missing_file git_hash fs p kind :
  kind ∈ kinds ->
  node_at fs p = None ->
  node_at fs (joinpath p json_name) = None ->
  is_cleaned git_hash p kind fs = (Ok false, fs).
Proof.
  intros Hk Hp Hj. rewrite is_cleaned_eq, (kinds_valid _ Hk).
  unfold _get_json_fname, is_file, exists_. by rewrite Hp, Hj.
Qed.

(** The log has a record for a raw file that is no longer on disk. *)
Lemma X6_witness :
  let fs := Ex.with_log (Ex.log_of "raws" "gone-raw.fif" (JObj [("bads", JArr [])])) in
  stored_record fs Ex.dir "raws" "gone-raw.fif" = Some (JObj [("bads", JArr [])]) /\
  is_cleaned Ex.rev ["data"; "gone-raw.fif"] "raws" fs = (Ok false, fs).
Proof.
  cbn zeta. split; [vm_compute; reflexivity|].
  apply X6_is_cleaned_missing_file; [|vm_compute; reflexivity..].
  apply elem_of_cons. by left.
Defined.

(** * More on [update_log] *)

Lemma recorded_new i : recorded i (JObj []) = Ok (new_record i).
Proof. by destruct i. Qed.

Lemma fill_defaults_config git_hash d logs :
  fill_defaults git_hash (JObj d) = Ok logs ->
  getitem logs "config"
  = Ok (Dict.get_default "config" (JObj [("version", JStr git_hash)]) d).
Proof.
  simpl. set (d3 := default_key "icas" _ _). intros H.
  assert (H3 : Dict.get "config" d3 = Dict.get "config" d).
  { unfold d3. rewrite !default_key_get. by destruct (Dict.get "config" d). }
  unfold Dict.get_default, Dict.mem in *. rewrite H3 in H.
  destruct (Dict.get "config" d) as [cfg|] eqn:Ec.
  - res_cases. simpl. by rewrite H3.
  - injection H as <-. simpl. by rewrite DictFacts.get_set_eq.
Qed.

Lemma commit_other_key logs kind fname rec k :
  k <> kind -> getitem (commit logs kind fname rec) k = getitem logs k.
Proof.
  intros Hk. destruct logs as [| | | | |d|]; try done. unfold commit.
  destruct (Dict.get kind d) as [[| | | | |m|]|]; try done. simpl.
  by rewrite DictFacts.get_set_ne.
Qed.

Section UpdateMore.

Variable git_hash : string.

(** The disk after a successful [update_log]: one file has changed, the
    log, and it holds the mapping the assignments left. *)
Lemma update_log_disk p i fs fs' :
  update_log git_hash p i fs = (Ok tt, fs') ->
  exists logs fs1 logs',
    read_log git_hash p fs = (Ok logs, fs1) /\
    record_decision p i logs = Ok logs' /\
    complete logs' = true /\
    fs' = <[_get_json_fname fs p := File (JsonText logs')]> fs /\
    is_dir fs (parent (_get_json_fname fs p)) = true.
Proof.
  intros H. apply update_log_Ok in H as (logs & fs1 & logs' & Hr & Hd & ->).
  exists logs, fs1, logs'. do 2 (split; [done|]).
  destruct (read_log_stored _ _ _ _ _ Hr) as (_ & Hc & _ & _).
  split; [by eapply record_decision_complete|].
  apply read_log_Ok in Hr as (j0 & _ & _ & Hdir & ->).
  split; [apply insert_insert_eq|done].
Qed.

Lemma update_log_read_back p i fs fs' :
  update_log git_hash p i fs = (Ok tt, fs') ->
  exists logs fs1 logs',
    read_log git_hash p fs = (Ok logs, fs1) /\
    record_decision p i logs = Ok logs' /\
    stored_log fs' p = Some logs' /\
    read_log git_hash p fs' = (Ok logs', fs').
Proof.
  intros H.
  destruct (update_log_written _ _ _ _ _ H)
    as (logs0 & fs0 & logs0' & Hr0 & Hd0 & Hser & _).
  apply update_log_disk in H
    as (logs & fs1 & logs' & Hr & Hd & Hc & -> & Hdir).
  rewrite Hr in Hr0. injection Hr0 as <- <-.
  rewrite Hd in Hd0. injection Hd0 as <-.
  exists logs, fs1, logs'. do 2 (split; [done|]).
  split; [by apply stored_log_written|].
  apply read_log_complete; [by apply stored_log_written|done|].
  rewrite get_json_fname_written. unfold is_dir in *.
  rewrite node_at_insert by (unfold _get_json_fname; apply joinpath_nonempty).
  case_decide as E; [|done].
  unfold _get_json_fname in E. rewrite parent_joinpath in E.
  by apply symmetry, joinpath_neq in E.
Qed.

End UpdateMore.

(** X7.  After a successful [update_log] for an artifact that is a file in
    a directory and is recorded under its own name, [is_cleaned] on its
    path answers [True] and changes nothing. *)
Theorem X7_update_then_is_cleaned git_hash fs p i kind fs' :
  is_file fs p = true -> is_dir fs (parent p) = true ->
  target p i = Ok (kind, name p) ->
  update_log git_hash p i fs = (Ok tt, fs') ->
  is_cleaned git_hash p kind fs' = (Ok true, fs').
Proof.
  intros Hf Hd Ht Hu.
  pose proof (target_kind _ _ _ _ Ht) as Hk.
  destruct (update_log_read_back _ _ _ _ _ Hu)
    as (logs & fs1 & logs' & Hr & Hdec & Hs & Hr').
  destruct (update_log_disk _ _ _ _ _ Hu)
    as (logs0 & fs0 & logs0' & Hr0 & Hdec0 & Hc & Hfs & Hdir).
  rewrite Hr in Hr0. injection Hr0 as <- <-.
  rewrite Hdec in Hdec0. injection Hdec0 as <-.
  assert (Hn : _get_json_fname fs p <> [])
    by (unfold _get_json_fname; apply joinpath_nonempty).
  assert (Hf' : is_file fs' p = true).
  { rewrite Hfs. unfold is_file in *. rewrite node_at_insert by done.
    by case_decide. }
  assert (Hd' : is_dir fs' (parent p) = true).
  { rewrite Hfs. unfold is_dir in *. rewrite node_at_insert by done.
    case_decide as E; [|done].
    unfold _get_json_fname in E. rewrite Hf in E.
    by apply symmetry, joinpath_neq in E. }
  assert (He' : exists_ fs' (_get_json_fname fs' p) = true).
  { unfold exists_, stored_log in *.
    by destruct (node_at fs' (_get_json_fname fs' p)). }
  assert (Hi : i <> Other) by (by intros ->).
  destruct (record_decision_Ok _ _ _ _ Hdec Hi)
    as (kind' & fname & dl & m & rec' & Ht' & -> & Hkd & Hrec & ->).
  rewrite Ht in Ht'. injection Ht' as <- <-.
  rewrite (is_cleaned_via_read git_hash p kind fs' _ fs'
             (Dict.set (name p) rec' m) Hf' Hd' Hk He' Hr').
  - by rewrite DictFacts.mem_set, String.eqb_refl.
  - rewrite (commit_eq _ _ _ _ Hkd). simpl. by rewrite DictFacts.get_set_eq.
Qed.

Lemma X7_witness :
  let fs' := snd (update_log Ex.rev Ex.raw_path (Raw (Ex.raw_with ["Cz"])) Ex.disk0) in
  fst (is_cleaned Ex.rev Ex.raw_path "raws" Ex.disk0) = Ok false /\
  is_cleaned Ex.rev Ex.raw_path "raws" fs' = (Ok true, fs').
Proof.
  cbn zeta. split.
  - vm_compute. reflexivity.
  - apply (X7_update_then_is_cleaned Ex.rev Ex.disk0 Ex.raw_path
             (Raw (Ex.raw_with ["Cz"])));
      [vm_compute; reflexivity..|].
    apply run_eq. vm_compute. reflexivity.
Defined.

(** X8.  A successful [update_log] leaves, for the filename of the
    artifact, the record that its assignments make of the record that was
    there; for a filename that had none, that is the parameters of the
    artifact (for epochs and ica) and its decision. *)
Theorem X8_update_log_record git_hash fs p i kind fname fs' :
  target p i = Ok (kind, fname) ->
  update_log git_hash p i fs = (Ok tt, fs') ->
  exists rec',
    recorded i (record_or_empty fs p kind fname) = Ok rec' /\
    stored_record fs' p kind fname = Some rec' /\
    (stored_record fs p kind fname = None -> rec' = new_record i).
Proof.
  intros Ht Hu.
  destruct (update_log_stored _ _ _ _ _ kind fname Hu)
    as (logs & fs1 & logs' & Hr & Hd & ->).
  assert (Hi : i <> Other) by (by intros ->).
  destruct (record_decision_Ok _ _ _ _ Hd Hi)
    as (kind' & fname' & dl & m & rec' & Ht' & -> & Hkd & Hrec & ->).
  rewrite Ht in Ht'. injection Ht' as <- <-.
  rewrite (read_log_record_or_empty git_hash p fs (JObj dl) fs1 kind fname m Hr)
    in Hrec; [|by eapply target_kind|by simpl; rewrite Hkd].
  exists rec'. split; [done|]. split; [by eapply record_of_commit|].
  intros Hnone. unfold record_or_empty in Hrec. rewrite Hnone in Hrec.
  rewrite recorded_new in Hrec. by injection Hrec.
Qed.

(** The first review of the epochs file, in a directory without a log. *)
Lemma X8_witness :
  stored_record
    (snd (update_log Ex.rev Ex.epo_path (Epochs (Ex.epochs6 (-2 # 10))) Ex.disk0))
    Ex.epo_path "epochs" "sub1-epo.fif"
  = Some (new_record (Epochs (Ex.epochs6 (-2 # 10)))).
Proof.
  destruct (X8_update_log_record Ex.rev Ex.disk0 Ex.epo_path
              (Epochs (Ex.epochs6 (-2 # 10))) "epochs" "sub1-epo.fif"
              (snd (update_log Ex.rev Ex.epo_path
                      (Epochs (Ex.epochs6 (-2 # 10))) Ex.disk0))
              eq_refl ltac:(apply run_eq; vm_compute; reflexivity))
    as (rec' & _ & Hs & Hnew).
  rewrite Hs. f_equal. apply Hnew. vm_compute. reflexivity.
Defined.

(** X9.  A successful [update_log] changes the record of the artifact and
    no other record of the three mappings. *)
Theorem X9_update_log_frame git_hash fs p i kind fname fs' kind' fname' :
  target p i = Ok (kind, fname) ->
  update_log git_hash p i fs = (Ok tt, fs') ->
  kind' ∈ kinds ->
  (kind', fname') <> (kind, fname) ->
  stored_record fs' p kind' fname' = stored_record fs p kind' fname'.
Proof.
  intros Ht Hu Hk Hne.
  destruct (update_log_stored _ _ _ _ _ kind' fname' Hu)
    as (logs & fs1 & logs' & Hr & Hd & ->).
  assert (Hi : i <> Other) by (by intros ->).
  destruct (record_decision_Ok _ _ _ _ Hd Hi)
    as (kind0 & fname0 & dl & m & rec' & Ht' & -> & Hkd & Hrec & ->).
  rewrite Ht in Ht'. injection Ht' as <- <-.
  rewrite (record_of_commit_other _ _ _ _ _ _ _ Hkd Hne).
  by eapply read_log_record_of.
Qed.

Lemma X9_witness :
  let fs := Ex.with_log (Ex.log_of "epochs" "sub1-epo.fif" Ex.epochs_record) in
  stored_record
    (snd (update_log Ex.rev Ex.raw_path (Raw (Ex.raw_with ["Cz"])) fs))
    Ex.raw_path "epochs" "sub1-epo.fif"
  = Some Ex.epochs_record.
Proof.
  cbn zeta.
  rewrite (X9_update_log_frame Ex.rev
             (Ex.with_log (Ex.log_of "epochs" "sub1-epo.fif" Ex.epochs_record))
             Ex.raw_path (Raw (Ex.raw_with ["Cz"]))
             "raws" "sub1-raw.fif"
             (snd (update_log Ex.rev Ex.raw_path (Raw (Ex.raw_with ["Cz"]))
                (Ex.with_log (Ex.log_of "epochs" "sub1-epo.fif" Ex.epochs_record))))
             "epochs" "sub1-epo.fif" eq_refl
             ltac:(apply run_eq; vm_compute; reflexivity)).
  - vm_compute. reflexivity.
  - apply elem_of_cons. right. apply elem_of_cons. by left.
  - discriminate.
Defined.

(** X10.  An [update_log] that raises has either written no decision, the
    disk being as [read_log] leaves it with every record of the log as it
    was, or it has failed inside [json.dump], with [TypeError], on a value
    of the artifact that [json] cannot write: the log, opened for writing
    before anything is encoded, is then left cut short and holds no record
    any more. *)
Theorem X10_update_log_failure git_hash fs p i e :
  fst (update_log git_hash p i fs) = Raise e ->
  let fs' := snd (update_log git_hash p i fs) in
  (fs' = snd (read_log git_hash p fs) /\
   forall kind fname rec,
     stored_record fs p kind fname = Some rec ->
     stored_record fs' p kind fname = Some rec) \/
  (e = TypeError /\ serialisable (new_record i) = false /\
   node_at fs' (_get_json_fname fs p) = Some (File Junk) /\
   forall kind fname, stored_record fs' p kind fname = None).
Proof.
  intros He. cbn zeta.
  assert (Hkeep : snd (update_log git_hash p i fs) = snd (read_log git_hash p fs) ->
            forall kind fname rec,
              stored_record fs p kind fname = Some rec ->
              stored_record (snd (update_log git_hash p i fs)) p kind fname
              = Some rec).
  { intros -> kind fname rec Hs.
    destruct (read_log git_hash p fs) as [[logs|e0] fs1] eqn:Hr; cbn [snd].
    - pose proof (read_log_records _ _ _ _ _ _ _ _ Hr Hs) as Hrec.
      pose proof (read_log_serialisable _ _ _ _ _ Hr) as Hser.
      apply read_log_Ok in Hr as (j0 & _ & _ & _ & ->).
      by rewrite stored_record_written.
    - by apply read_log_Raise in Hr as ->. }
  destruct (read_log git_hash p fs) as [[logs|e0] fs1] eqn:Hr;
    [|left; split; [|apply Hkeep]; by rewrite update_log_eq, Hr].
  destruct (record_decision p i logs) as [logs'|e1] eqn:Hd;
    [|left; split; [|apply Hkeep]; by rewrite update_log_eq, Hr, Hd].
  revert He Hkeep. rewrite (update_log_outcome _ _ _ _ _ _ _ Hr Hd).
  destruct (serialisable logs') eqn:Hser; [done|].
  cbn [fst snd]. intros [= <-] _. right. split; [done|]. split.
  { destruct (serialisable (new_record i)) eqn:Hn; [|done].
    rewrite (record_decision_serialisable _ _ _ _ Hd) in Hser; [done| |done].
    by eapply read_log_serialisable. }
  destruct (read_log_stored _ _ _ _ _ Hr) as (_ & _ & Hj & _). split.
  - rewrite node_at_insert by (unfold _get_json_fname; apply joinpath_nonempty).
    by rewrite decide_True.
  - intros kind fname. unfold stored_record.
    by rewrite <- Hj, stored_log_cut_short.
Qed.

(** The epochs were cut again with another [tmin]: the record keeps the
    selection of the review.  An [exclude] with an object that [json]
    cannot write: the record of the earlier review is lost. *)
Lemma X10_witness :
  let fs := Ex.with_log (Ex.log_of "epochs" "sub1-epo.fif" Ex.epochs_record) in
  let fs_i := Ex.with_log (Ex.log_of "icas" "sub1-ica.fif" Ex.ica_record) in
  let opaque := ICA Ex.ica_opaque in
  stored_record
    (snd (update_log Ex.rev Ex.epo_path (Epochs (Ex.epochs6 (-5 # 10))) fs))
    Ex.epo_path "epochs" "sub1-epo.fif"
  = Some Ex.epochs_record /\
  stored_record fs_i Ex.ica_path "icas" "sub1-ica.fif" = Some Ex.ica_record /\
  stored_record (snd (update_log Ex.rev Ex.ica_path opaque fs_i))
    Ex.ica_path "icas" "sub1-ica.fif" = None.
Proof.
  cbn zeta. split; [|split; [vm_compute; reflexivity|]].
  - destruct (X10_update_log_failure Ex.rev
                (Ex.with_log (Ex.log_of "epochs" "sub1-epo.fif" Ex.epochs_record))
                Ex.epo_path (Epochs (Ex.epochs6 (-5 # 10)))
                (ValueError Mismatch_tmin) ltac:(vm_compute; reflexivity))
      as [[_ Hk]|[He _]]; [|discriminate He].
    apply Hk. vm_compute. reflexivity.
  - destruct (X10_update_log_failure Ex.rev
                (Ex.with_log (Ex.log_of "icas" "sub1-ica.fif" Ex.ica_record))
                Ex.ica_path (ICA Ex.ica_opaque)
                TypeError ltac:(vm_compute; reflexivity))
      as [[_ Hk]|(_ & _ & _ & Hnone)]; [|apply Hnone].
    specialize (Hk "icas" "sub1-ica.fif" Ex.ica_record
                  ltac:(vm_compute; reflexivity)).
    revert Hk. vm_compute. discriminate.
Defined.

(** X11.  The [config] of a log is written once: [read_log] returns, and a
    successful [update_log] leaves on disk, the [config] the file had,
    whatever the version that runs; a [config] with the running version is
    made only for a log that had none. *)
Theorem X11_config_kept git_hash fs p d0 :
  log_source fs (_get_json_fname fs p) = Ok (JObj d0) ->
  let config := Dict.get_default "config" (JObj [("version", JStr git_hash)]) d0 in
  (forall logs fs1,
     read_log git_hash p fs = (Ok logs, fs1) -> getitem logs "config" = Ok config) /\
  (forall i fs',
     update_log git_hash p i fs = (Ok tt, fs') ->
     exists logs', stored_log fs' p = Some logs' /\
                   getitem logs' "config" = Ok config).
Proof.
  intros Hsrc config.
  assert (Hread : forall logs fs1,
            read_log git_hash p fs = (Ok logs, fs1) ->
            getitem logs "config" = Ok config).
  { intros logs fs1 Hr. apply read_log_Ok in Hr as (j0 & Hsrc' & Hf & _ & _).
    rewrite Hsrc in Hsrc'. injection Hsrc' as <-.
    by apply fill_defaults_config. }
  split; [done|]. intros i fs' Hu.
  destruct (update_log_read_back _ _ _ _ _ Hu)
    as (logs & fs1 & logs' & Hr & Hdec & Hs & _).
  exists logs'. split; [done|]. rewrite <- (Hread _ _ Hr).
  assert (Hi : i = Other \/ i <> Other) by (destruct i; eauto).
  destruct Hi as [->|Hi]; [by injection Hdec as <-|].
  destruct (record_decision_Ok _ _ _ _ Hdec Hi)
    as (kind & fname & dl & m & rec' & Ht & -> & Hkd & Hrec & ->).
  apply commit_other_key. intros <-.
  apply target_kind in Ht. unfold kinds in Ht.
  rewrite !elem_of_cons, elem_of_nil in Ht. by destruct_or! Ht.
Qed.

(** A log written by the revision [0ld]: it is still marked [0ld] after the
    revision [abc1234] has recorded a review in it. *)
Lemma X11_witness :
  let fs := Ex.with_log (JObj [("config", JObj [("version", JStr "0ld")])]) in
  exists logs',
    stored_log (snd (update_log Ex.rev Ex.raw_path (Raw (Ex.raw_with ["Cz"])) fs))
      Ex.raw_path = Some logs' /\
    getitem logs' "config" = Ok (JObj [("version", JStr "0ld")]).
Proof.
  cbn zeta.
  apply (proj2 (X11_config_kept Ex.rev
                  (Ex.with_log (JObj [("config", JObj [("version", JStr "0ld")])]))
                  Ex.raw_path [("config", JObj [("version", JStr "0ld")])]
                  ltac:(vm_compute; reflexivity))
           (Raw (Ex.raw_with ["Cz"]))).
  apply run_eq. vm_compute. reflexivity.
Defined.

(** * More on [reject] *)

(** X12.  For a decomposition whose filename has no record, a [reject]
    that succeeds returns it with an empty [exclude]: the components
    excluded at runtime are not kept. *)
Theorem X12_reject_ica_without_record git_hash fs p c required i' fs' :
  stored_record fs p "icas" (name p) = None ->
  reject git_hash p (ICA c) required fs = (Ok i', fs') ->
  exists c', i' = ICA c' /\ ica_exclude c' = JArr [] /\ same_but_exclude c c'.
Proof.
  intros Hs Hr.
  apply reject_Ok in Hr as (logs & kind & fname & _ & Ht & Ha); [|done].
  injection Ht as <- <-. unfold record_or_empty in Ha. rewrite Hs in Ha.
  injection Ha as <-. exists (set_exclude c (JArr [])). by repeat split.
Qed.

Lemma X12_witness :
  ica_exclude (Ex.ica2 [2]) = JArr [JNat 2] /\
  exists c',
    fst (reject Ex.rev Ex.ica_path (ICA (Ex.ica2 [2])) false Ex.disk0)
    = Ok (ICA c') /\
    ica_exclude c' = JArr [].
Proof.
  split; [reflexivity|].
  assert (H : fst (reject Ex.rev Ex.ica_path (ICA (Ex.ica2 [2])) false Ex.disk0)
              = Ok (ICA (Ex.ica2 []))) by (vm_compute; reflexivity).
  destruct (X12_reject_ica_without_record Ex.rev Ex.disk0 Ex.ica_path
              (Ex.ica2 [2]) false _ _ ltac:(vm_compute; reflexivity)
              (run_eq _ _ H)) as (c' & Hc & Hex & _).
  exists c'. split; [by rewrite H, Hc|exact Hex].
Defined.

Lemma forallb_filter_self {A : Type} (g : A -> bool) l :
  forallb g (List.filter g l) = true.
Proof.
  induction l as [|a l IH]; [done|]. simpl.
  destruct (g a) eqn:E; simpl; [by rewrite E|done].
Qed.

Lemma py_distinct_filter g l :
  py_distinct l = true -> py_distinct (List.filter g l) = true.
Proof.
  induction l as [|a l IH]; [done|]. simpl.
  intros [Ha Hl]%andb_prop. destruct (g a); simpl; [|auto].
  rewrite (forallb_filter _ g l Ha). auto.
Qed.

Lemma py_distinct_dedup l : py_distinct (dedup_py l) = true.
Proof.
  induction l as [|a l IH]; [done|]. simpl.
  rewrite forallb_filter_self. by apply py_distinct_filter.
Qed.

Lemma drop_bads e indices reason e' :
  drop e indices reason = Ok e' -> ep_bads e' = ep_bads e.
Proof.
  unfold drop. destruct (forallb _ indices); [|done].
  destruct (mark_dropped _ _ _) as [dl|]; [|done].
  cbn [mbind res_bind]. by intros [= <-].
Qed.

(** X13.  The [bads] that a successful [reject] leaves in a raw or epochs
    artifact has no channel twice. *)
Theorem X13_bads_without_repeats git_hash fs p i required i' fs' :
  reject git_hash p i required fs = (Ok i', fs') ->
  (exists r, i = Raw r) \/ (exists e, i = Epochs e) ->
  py_distinct (bads_of i') = true.
Proof.
  intros Hr Hi.
  apply reject_Ok in Hr as (logs & kind & fname & _ & Ht & Ha);
    [|by destruct Hi as [[? ->]|[? ->]]].
  destruct Hi as [[r ->]|[e ->]]; cbn [applied] in Ha.
  - destruct (mix_bads _ (raw_bads r)) as [mixed|] eqn:Hm; [|done].
    injection Ha as <-. apply mix_bads_Ok in Hm as (d & old & _ & _ & _ & ->).
    apply py_distinct_dedup.
  - destruct (_check_epochs_params e _) as [t|]; [|done].
    cbn [mbind res_bind] in Ha.
    destruct (mix_bads t (ep_bads e)) as [mixed|] eqn:Hm; [|done].
    cbn [mbind res_bind] in Ha.
    destruct (py_get t "selection" _) as [prev|]; [|done].
    cbn [mbind res_bind] in Ha.
    destruct (to_drop prev _) as [td|]; [|done]. cbn [mbind res_bind] in Ha.
    destruct (drop _ _ "Inspection") as [e'|] eqn:Hd; [|done].
    injection Ha as <-. cbn [bads_of]. rewrite (drop_bads _ _ _ _ Hd).
    apply mix_bads_Ok in Hm as (d & old & _ & _ & _ & ->).
    apply py_distinct_dedup.
Qed.

(** [Cz] is stored and is set again at runtime, with [Fz]. *)
Lemma X13_witness :
  let fs := Ex.with_log (Ex.log_of "raws" "sub1-raw.fif"
                           (JObj [("bads", JArr [JStr "Cz"])])) in
  exists i',
    fst (reject Ex.rev Ex.raw_path (Raw (Ex.raw_with ["Fz"; "Cz"; "Fz"])) true fs)
    = Ok i' /\
    py_distinct (bads_of i') = true.
Proof.
  cbn zeta.
  destruct (fst (reject Ex.rev Ex.raw_path
                   (Raw (Ex.raw_with ["Fz"; "Cz"; "Fz"])) true
                   (Ex.with_log (Ex.log_of "raws" "sub1-raw.fif"
                                   (JObj [("bads", JArr [JStr "Cz"])])))))
    as [i'|e] eqn:H; [|by vm_compute in H].
  exists i'. split; [done|].
  exact (X13_bads_without_repeats Ex.rev _ Ex.raw_path _ true _ _ (run_eq _ _ H)
           (or_introl (ex_intro _ _ eq_refl))).
Defined.

Lemma kept_from_bound drop_log :
  forall i j x, kept_from i drop_log !! j = Some x ->
                i <= x < i + length drop_log /\ j < length drop_log.
Proof.
  induction drop_log as [|dlog rest IH]; intros i j x; simpl; [done|].
  destruct (Nat.eqb (length dlog) 0).
  - destruct j as [|j]; simpl.
    + intros [= <-]. lia.
    + intros H. apply IH in H. lia.
  - intros H. apply IH in H. lia.
Qed.

Lemma existsb_eqb_In k l : existsb (Nat.eqb k) l = true <-> In k l.
Proof.
  rewrite existsb_exists. split.
  - by intros (y & Hy & <-%Nat.eqb_eq).
  - intros H. exists k. by rewrite Nat.eqb_refl.
Qed.

Lemma mark_dropped_total reason gone :
  forall drop_log,
    (forall x, x ∈ gone -> x < length drop_log) ->
    exists drop_log', mark_dropped reason gone drop_log = Ok drop_log'.
Proof.
  induction gone as [|k rest IH]; intros dl Hlt; simpl; [eauto|].
  assert (Hk : k < length dl) by (apply Hlt, elem_of_cons; by left).
  apply Nat.ltb_lt in Hk. rewrite Hk. apply IH.
  intros x Hx. rewrite length_insert. apply Hlt, elem_of_cons. by right.
Qed.

Lemma keep_from_elem {A : Type} (keep : nat -> bool) (l : list A) :
  forall k x, x ∈ keep_from keep k l -> x ∈ l.
Proof.
  induction l as [|a l IH]; intros k x; simpl; [done|].
  destruct (keep k).
  - intros [->|H]%elem_of_cons; apply elem_of_cons; [by left|right; eauto].
  - intros H. apply elem_of_cons. right. eauto.
Qed.

(** X14.  The positions that the loop of [reject] collects are positions
    among the epochs with an empty drop log: exactly those of the epochs
    whose original index is to be dropped.  For an epochs object as MNE
    keeps it, they are all positions of epochs of the object, and dropping
    them does not fail. *)
Theorem X14_drop_positions_valid e to_drop reason :
  kept_indices (ep_drop_log e) = ep_selection e ->
  length (ep_events e) = length (ep_selection e) ->
  (forall k, In k (drop_idx to_drop (ep_drop_log e) 0 0) <->
             exists x, ep_selection e !! k = Some x /\ In x to_drop) /\
  exists e', drop e (drop_idx to_drop (ep_drop_log e) 0 0) reason = Ok e'.
Proof.
  intros Hwf Hlen.
  assert (Hpos : forall k, In k (drop_idx to_drop (ep_drop_log e) 0 0) <->
                   exists x, ep_selection e !! k = Some x /\ In x to_drop).
  { intros k. rewrite <- existsb_eqb_In, drop_idx_spec.
    unfold kept_indices in Hwf. rewrite Hwf. split.
    - intros (j & x & Hj & -> & Hx). exists x. by rewrite <- existsb_eqb_In.
    - intros (x & Hk & Hx). exists k, x. by rewrite existsb_eqb_In. }
  split; [done|]. unfold drop.
  rewrite (proj2 (forallb_forall _ _)).
  - destruct (mark_dropped_total reason
                (keep_at (fun k => negb (negb (existsb (Nat.eqb k)
                   (drop_idx to_drop (ep_drop_log e) 0 0)))) (ep_selection e))
                (ep_drop_log e)) as [dl' ->]; [|cbn; eauto].
    intros x Hx%keep_from_elem.
    apply list_elem_of_lookup_1 in Hx as [j Hj].
    unfold kept_indices in Hwf. rewrite <- Hwf in Hj.
    apply kept_from_bound in Hj. lia.
  - intros k (x & Hk & _)%Hpos. apply Nat.ltb_lt. rewrite Hlen.
    by eapply lookup_lt_Some.
Qed.

Lemma X14_witness :
  exists e',
    drop (Ex.epochs6 1) (drop_idx [1; 3; 5] (ep_drop_log (Ex.epochs6 1)) 0 0)
      "Inspection" = Ok e' /\
    (In 3 (drop_idx [1; 3; 5] (ep_drop_log (Ex.epochs6 1)) 0 0) <->
     exists x, ep_selection (Ex.epochs6 1) !! 3 = Some x /\ In x [1; 3; 5]).
Proof.
  destruct (X14_drop_positions_valid (Ex.epochs6 1) [1; 3; 5] "Inspection"
              eq_refl eq_refl) as [Hpos [e' He']].
  exists e'. split; [exact He'|apply Hpos].
Defined.

(** * More on the parameter checks *)

Lemma py_in_own_events ev (events : list Z) :
  ev ∈ events -> py_in (JInt ev) (JInt <$> events) = true.
Proof.
  intros H. unfold py_in. apply existsb_exists. exists (JInt ev). split.
  - apply list_elem_of_In, list_elem_of_fmap. eauto.
  - cbn. apply Qeq_bool_refl.
Qed.

Lemma check_epochs_own_snapshot e d prev :
  length (ep_events e) = length (ep_selection e) ->
  Dict.get "params" d = Some (epochs_params e) ->
  prev_selection e d = Ok prev ->
  _check_epochs_params e (JObj d) = Ok (JObj d).
Proof.
  intros Hlen Hp Hprev.
  destruct (events_to_check_Ok (ep_events e)
              (intersect1d (num_of_nat <$> ep_selection e) prev)
              (ep_selection e) 0) as (to_check & Htc & Hmem); [simpl; lia|].
  unfold _check_epochs_params, Dict.mem. rewrite Hp.
  cbn [negb getitem mbind res_bind]. rewrite Hp.
  unfold epochs_params.
  cbn [negb getitem mbind res_bind Dict.get String.eqb Ascii.eqb Bool.eqb].
  cbn [py_eq as_number]. rewrite !Qeq_bool_refl.
  cbn [negb getitem mbind res_bind]. rewrite Hprev.
  cbn [negb getitem mbind res_bind]. rewrite Htc.
  cbn [negb getitem mbind res_bind]. rewrite all_in_list.
  rewrite (proj2 (forallb_forall _ to_check)); [done|].
  intros ev (k & x & _ & He & _)%Hmem.
  apply py_in_own_events. by eapply list_elem_of_lookup_2.
Qed.

(** X15.  Epochs pass the check against a record whose [params] is the
    snapshot of these very epochs, whatever selection is stored with it, and
    the assignments of [update_log] then go through: the record keeps its
    [params] and takes the [bads] and the [selection] of the epochs. *)
Theorem X15_epochs_pass_own_snapshot e d prev :
  length (ep_events e) = length (ep_selection e) ->
  Dict.get "params" d = Some (epochs_params e) ->
  prev_selection e d = Ok prev ->
  _check_epochs_params e (JObj d) = Ok (JObj d) /\
  recorded (Epochs e) (JObj d)
  = Ok (JObj (Dict.set "selection" (JArr (JNat <$> ep_selection e))
               (Dict.set "bads" (JArr (ep_bads e)) d))).
Proof.
  intros Hlen Hp Hprev.
  pose proof (check_epochs_own_snapshot e d prev Hlen Hp Hprev) as Hc.
  split; [done|]. cbn [recorded]. by rewrite Hc.
Qed.

Lemma X15_witness :
  _check_epochs_params (Ex.epochs6 (-2 # 10)) Ex.epochs_record
  = Ok Ex.epochs_record /\
  recorded (Epochs (Ex.epochs6 (-2 # 10))) Ex.epochs_record
  = Ok (JObj [("params", epochs_params (Ex.epochs6 (-2 # 10)));
              ("bads", JArr []);
              ("selection", JArr (JNat <$> [0; 1; 2; 3; 4; 5]))]).
Proof.
  exact (X15_epochs_pass_own_snapshot (Ex.epochs6 (-2 # 10))
           [("params", epochs_params (Ex.epochs6 (-2 # 10)));
            ("bads", JArr []);
            ("selection", JArr [JNat 0; JNat 2; JNat 4])]
           [num_of_nat 0; num_of_nat 2; num_of_nat 4]
           eq_refl eq_refl eq_refl).
Defined.

(** * Equality of JSON values *)

Lemma py_eq_obj d e :
  py_eq (JObj d) (JObj e)
  = Nat.eqb (length d) (length e) &&
    forallb (fun kv => match Dict.get (fst kv) e with
                       | Some w => py_eq (snd kv) w
                       | None => false
                       end) d.
Proof.
  simpl. f_equal. induction d as [|[k v] d IH]; [done|]. simpl.
  destruct (Dict.get k e); [|done]. by rewrite IH.
Qed.

Lemma get_app k (a b : dict) :
  Dict.get k (a ++ b)
  = match Dict.get k a with Some v => Some v | None => Dict.get k b end.
Proof.
  induction a as [|[k' v] a IH]; simpl; [done|]. by destruct (String.eqb k k').
Qed.

Lemma unique_keys_app_head (a : dict) k v b :
  unique_keys (a ++ (k, v) :: b) = true -> Dict.get k a = None.
Proof.
  induction a as [|[k' v'] a IH]; simpl; [done|].
  intros [Hk Ha]%andb_prop. destruct (String.eqb k k') eqn:E; [|eauto].
  apply String.eqb_eq in E as <-. unfold Dict.mem in Hk.
  rewrite get_app in Hk. rewrite (IH Ha) in Hk. simpl in Hk.
  by rewrite String.eqb_refl in Hk.
Qed.

Lemma dict_eq_refl (d : dict) :
  unique_keys d = true ->
  Forall (fun kv => py_eq (snd kv) (snd kv) = true) d ->
  py_eq (JObj d) (JObj d) = true.
Proof.
  intros Hu Hv. rewrite py_eq_obj, Nat.eqb_refl. simpl.
  enough (H : forall b a, d = a ++ b ->
            forallb (fun kv => match Dict.get (fst kv) d with
                               | Some w => py_eq (snd kv) w
                               | None => false
                               end) b = true) by (by apply (H d [])).
  induction b as [|[k v] b IH]; intros a Hd; [done|]. simpl.
  rewrite Hd at 1. rewrite get_app.
  rewrite (unique_keys_app_head a k v b) by (by rewrite <- Hd). simpl.
  rewrite String.eqb_refl.
  assert (Hkv : (k, v) ∈ d) by (rewrite Hd; set_solver).
  pose proof (proj1 (Forall_forall _ _) Hv _ Hkv) as Hvv. simpl in Hvv.
  rewrite Hvv. simpl.
  apply (IH (a ++ [(k, v)])). by rewrite <- app_assoc.
Qed.

Lemma py_eq_refl : forall j, json_wf j = true -> py_eq j j = true.
Proof.
  fix IH 1. intros [| b | q | s | l | d | n] Hwf.
  - done.
  - by destruct b.
  - cbn. apply Qeq_bool_refl.
  - cbn. apply String.eqb_refl.
  - simpl in *. induction l as [|x l IHl]; [done|].
    simpl in Hwf. apply andb_prop in Hwf as [Hx Hl].
    rewrite (IH x Hx). simpl. apply IHl, Hl.
  - simpl in Hwf. apply andb_prop in Hwf as [Hu Hv].
    apply dict_eq_refl; [done|].
    induction d as [|[k v] d IHd]; [constructor|].
    simpl in Hu, Hv. apply andb_prop in Hu as [_ Hu].
    apply andb_prop in Hv as [Hv1 Hv2].
    constructor; [apply (IH v Hv1)|by apply IHd].
  - cbn. apply Nat.eqb_refl.
Qed.

Lemma json_wf_get d k v :
  json_wf (JObj d) = true -> Dict.get k d = Some v -> json_wf v = true.
Proof.
  simpl. intros [_ Hv]%andb_prop. revert Hv.
  induction d as [|[k' v'] d IH]; simpl; [done|].
  intros [H1 H2]%andb_prop. destruct (String.eqb k k'); [|eauto].
  by intros [= <-].
Qed.

(** * Reviewing again *)

Lemma check_ica_own_snapshot c d :
  json_wf (ica_params c) = true ->
  Dict.get "params" d = Some (ica_params c) ->
  _check_ica_params c (JObj d) = Ok (JObj d).
Proof.
  intros Hwf Hp.
  assert (H : forall k v, Dict.get k [("ch_names", JArr (JStr <$> ica_ch_names c));
                        ("fit_params", JObj (ica_fit_params c));
                        ("n_components", ica_n_components c);
                        ("highpass", JNum (ica_highpass c));
                        ("lowpass", JNum (ica_lowpass c));
                        ("sfreq", JNum (ica_sfreq c))] = Some v ->
                          py_eq v v = true).
  { intros k v Hk. eapply py_eq_refl, json_wf_get; eauto. }
  unfold _check_ica_params, Dict.mem. rewrite Hp.
  cbn [negb getitem mbind res_bind]. rewrite Hp. unfold ica_params.
  cbn [mbind res_bind]. rewrite !check_field_eq.
  cbn [Dict.get String.eqb Ascii.eqb Bool.eqb].
  rewrite (H "ch_names" _ eq_refl), (H "fit_params" _ eq_refl),
    (H "n_components" _ eq_refl), (H "highpass" _ eq_refl),
    (H "lowpass" _ eq_refl), (H "sfreq" _ eq_refl).
  done.
Qed.

Lemma check_ica_same_params c d d' :
  Dict.mem "params" d = true ->
  Dict.get "params" d' = Dict.get "params" d ->
  _check_ica_params c (JObj d) = Ok (JObj d) ->
  _check_ica_params c (JObj d') = Ok (JObj d').
Proof.
  intros Hm Hg. unfold _check_ica_params, Dict.mem in *. rewrite Hg.
  destruct (Dict.get "params" d) as [ps|] eqn:Hp; [|done].
  cbn [negb getitem mbind res_bind]. rewrite Hg, Hp.
  cbn [mbind res_bind]. intros H. repeat (match type of H with
    | (check_field ?a ?b ?c ?e ≫= _) = _ =>
        destruct (check_field a b c e) as [[]|]; [|done];
        cbn [mbind res_bind] in H |- *
    end). done.
Qed.

Lemma check_ica_again c d t x :
  json_wf (ica_params c) = true ->
  _check_ica_params c (JObj d) = Ok (JObj t) ->
  _check_ica_params c (JObj (Dict.set "exclude" x t))
  = Ok (JObj (Dict.set "exclude" x t)).
Proof.
  intros Hwf Hc.
  destruct (Dict.mem "params" d) eqn:Hm.
  - assert (t = d) as ->.
    { apply check_ica_keeps in Hc as Hk. revert Hc.
      unfold _check_ica_params. rewrite Hm. cbn [negb].
      intros H. repeat (match type of H with
        | (?a ≫= _) = _ => destruct a; [|done]; cbn [mbind res_bind] in H
        end). by injection H. }
    apply (check_ica_same_params c d); [done| |done].
    by apply DictFacts.get_set_ne.
  - revert Hc. unfold _check_ica_params. rewrite Hm. cbn [negb].
    intros [= <-]. apply check_ica_own_snapshot; [done|].
    rewrite DictFacts.get_set_ne by done. apply DictFacts.get_set_eq.
Qed.

Lemma stored_log_exists fs p j :
  stored_log fs p = Some j -> exists_ fs (_get_json_fname fs p) = true.
Proof.
  unfold exists_, stored_log. by destruct (node_at fs (_get_json_fname fs p)).
Qed.

Lemma reject_after_update git_hash p i fs fs' required :
  update_log git_hash p i fs = (Ok tt, fs') -> i <> Other ->
  exists kind fname dl m rec,
    target p i = Ok (kind, fname) /\
    recorded i (record_or_empty fs p kind fname) = Ok rec /\
    read_log git_hash p fs' = (Ok (JObj dl), fs') /\
    Dict.get kind dl = Some (JObj m) /\ Dict.get fname m = Some rec /\
    reject git_hash p i required fs' = (applied i rec, fs').
Proof.
  intros Hu Hi.
  destruct (update_log_read_back _ _ _ _ _ Hu)
    as (logs & fs1 & logs' & Hr & Hd & Hs' & Hr').
  destruct (record_decision_Ok _ _ _ _ Hd Hi)
    as (kind & fname & dl & m & rec' & Ht & -> & Hkd & Hrec & ->).
  rewrite (read_log_record_or_empty git_hash p fs (JObj dl) fs1 kind fname m Hr)
    in Hrec; [|by eapply target_kind|by simpl; rewrite Hkd].
  rewrite (commit_eq _ _ _ _ Hkd) in *.
  exists kind, fname, (Dict.set kind (JObj (Dict.set fname rec' m)) dl),
    (Dict.set fname rec' m), rec'.
  rewrite !DictFacts.get_set_eq. repeat (split; [done|]).
  rewrite reject_eq, (stored_log_exists _ _ _ Hs'), Hr'. cbn [negb andb].
  rewrite apply_decision_eq. destruct i; [..|done]; rewrite Ht;
    cbn [mbind res_bind getitem]; rewrite DictFacts.get_set_eq;
    cbn [mbind res_bind]; unfold Dict.get_default;
    by rewrite DictFacts.get_set_eq.
Qed.

Lemma update_log_again git_hash p i fs fs' :
  update_log git_hash p i fs = (Ok tt, fs') -> i <> Other ->
  exists kind fname rec,
    target p i = Ok (kind, fname) /\
    stored_record fs' p kind fname = Some rec /\
    recorded i (record_or_empty fs p kind fname) = Ok rec /\
    (recorded i rec = Ok rec -> update_log git_hash p i fs' = (Ok tt, fs')) /\
    (forall e, recorded i rec = Raise e ->
               update_log git_hash p i fs' = (Raise e, fs')).
Proof.
  intros Hu Hi.
  destruct (reject_after_update git_hash p i fs fs' false Hu Hi)
    as (kind & fname & dl & m & rec & Ht & Hrec & Hr' & Hk & Hf & _).
  destruct (read_log_stored _ _ _ _ _ Hr') as (Hs' & Hc & _ & Hd).
  exists kind, fname, rec. split; [done|]. split.
  { unfold stored_record. rewrite Hs'. simpl. by rewrite Hk. }
  split; [done|].
  assert (Hrd : record_decision p i (JObj dl)
                = (recorded i rec ≫= fun record => Ok (commit (JObj dl) kind fname record))).
  { rewrite record_decision_eq. destruct i; [..|done]; rewrite Ht;
      cbn [mbind res_bind getitem]; rewrite Hk; cbn [mbind res_bind];
      unfold Dict.get_default; by rewrite Hf. }
  split.
  - intros Hsame. rewrite update_log_eq, Hr', Hrd, Hsame. cbn [mbind res_bind].
    rewrite (commit_stored _ _ _ _ Hk _ Hf).
    by rewrite (save_log_stored git_hash p fs' _ Hs' Hc Hd).
  - intros e He. by rewrite update_log_eq, Hr', Hrd, He.
Qed.

Lemma set_exclude_same c : set_exclude c (ica_exclude c) = c.
Proof. by destruct c. Qed.

Lemma mix_bads_own d bads :
  Dict.get "bads" d = Some (JArr bads) ->
  forallb hashable bads = true ->
  mix_bads (JObj d) bads = Ok (dedup_py (bads ++ bads)).
Proof.
  intros Hg Hh. unfold mix_bads, py_get, Dict.get_default.
  rewrite Hg. cbn [mbind res_bind py_add_list].
  unfold py_list_set. by rewrite forallb_app, Hh.
Qed.

Lemma py_in_own_dedup x bads :
  forallb hashable bads = true ->
  py_in x (dedup_py (bads ++ bads)) = py_in x bads.
Proof.
  intros Hh. rewrite py_in_dedup by (by rewrite forallb_app, Hh).
  rewrite py_in_app. by destruct (py_in x bads).
Qed.

(** X16.  After [update_log] of a raw artifact, [update_log] of the same
    artifact changes nothing, and [reject] returns an artifact with the same
    files whose [bads] are the channels it had, each once (they have to be
    hashable for the set that [reject] makes of them). *)
Theorem X16_raw_update_then_reject git_hash fs p r required fs' :
  update_log git_hash p (Raw r) fs = (Ok tt, fs') ->
  forallb hashable (raw_bads r) = true ->
  update_log git_hash p (Raw r) fs' = (Ok tt, fs') /\
  exists r',
    reject git_hash p (Raw r) required fs' = (Ok (Raw r'), fs') /\
    raw_filenames r' = raw_filenames r /\
    py_distinct (raw_bads r') = true /\
    forall x, py_in x (raw_bads r') = py_in x (raw_bads r).
Proof.
  intros Hu Hh. split.
  - destruct (update_log_again git_hash p (Raw r) fs fs' Hu)
      as (kind & fname & rec & _ & _ & Hrec & Hsame & _); [done|].
    apply Hsame. cbn [recorded] in *.
    destruct (record_or_empty fs p kind fname) as [| | | | |d|]; try done.
    injection Hrec as <-. cbn [setitem]. by rewrite DictFacts.set_set.
  - destruct (reject_after_update git_hash p (Raw r) fs fs' required Hu)
      as (kind & fname & dl & m & rec & _ & Hrec & _ & _ & _ & Hrej); [done|].
    cbn [recorded] in Hrec.
    destruct (record_or_empty fs p kind fname) as [| | | | |d|]; try done.
    injection Hrec as <-. cbn [applied] in Hrej.
    rewrite (mix_bads_own _ _ (DictFacts.get_set_eq _ _ _) Hh) in Hrej.
    exists (set_raw_bads r (dedup_py (raw_bads r ++ raw_bads r))).
    split; [done|]. split; [done|]. cbn [set_raw_bads raw_bads].
    split; [apply py_distinct_dedup|]. intros x. by apply py_in_own_dedup.
Qed.

Lemma X16_witness :
  let r := Ex.raw_with ["Fz"; "Cz"] in
  let fs' := snd (update_log Ex.rev Ex.raw_path (Raw r) Ex.disk0) in
  update_log Ex.rev Ex.raw_path (Raw r) fs' = (Ok tt, fs') /\
  exists r',
    reject Ex.rev Ex.raw_path (Raw r) true fs' = (Ok (Raw r'), fs') /\
    raw_filenames r' = raw_filenames r /\
    py_distinct (raw_bads r') = true /\
    forall x, py_in x (raw_bads r') = py_in x (raw_bads r).
Proof.
  cbn zeta.
  exact (X16_raw_update_then_reject Ex.rev Ex.disk0 Ex.raw_path
           (Ex.raw_with ["Fz"; "Cz"]) true
           (snd (update_log Ex.rev Ex.raw_path (Raw (Ex.raw_with ["Fz"; "Cz"]))
                   Ex.disk0))
           (run_eq _ _ ltac:(vm_compute; reflexivity)) eq_refl).
Defined.

(** X17.  After [update_log] of an ICA, [update_log] of the same ICA changes
    nothing and [reject] returns the ICA as it is, with the [exclude] it had.
    The parameters are JSON values here, so that what is read back from the
    log is what was written. *)
Theorem X17_ica_update_then_reject git_hash fs p c required fs' :
  update_log git_hash p (ICA c) fs = (Ok tt, fs') ->
  json_wf (ica_params c) = true ->
  update_log git_hash p (ICA c) fs' = (Ok tt, fs') /\
  reject git_hash p (ICA c) required fs' = (Ok (ICA c), fs').
Proof.
  intros Hu Hwf.
  assert (Hrec : forall t rec, recorded (ICA c) t = Ok rec ->
            exists d', rec = JObj (Dict.set "exclude" (ica_exclude c) d') /\
              _check_ica_params c rec = Ok rec).
  { intros t rec. cbn [recorded].
    destruct (_check_ica_params c t) as [t'|] eqn:Hc; [|done].
    destruct t as [| | | | |d|]; try done.
    destruct (check_ica_keeps _ _ _ Hc) as (d' & -> & _).
    cbn [mbind res_bind setitem]. intros [= <-]. exists d'. split; [done|].
    by eapply check_ica_again. }
  split.
  - destruct (update_log_again git_hash p (ICA c) fs fs' Hu)
      as (kind & fname & rec & _ & _ & Hr & Hsame & _); [done|].
    apply Hsame. apply Hrec in Hr as (d' & -> & Hc).
    cbn [recorded]. rewrite Hc. cbn [mbind res_bind setitem].
    by rewrite DictFacts.set_set.
  - destruct (reject_after_update git_hash p (ICA c) fs fs' required Hu)
      as (kind & fname & dl & m & rec & _ & Hr & _ & _ & _ & ->); [done|].
    apply Hrec in Hr as (d' & -> & Hc). cbn [applied]. rewrite Hc.
    cbn [mbind res_bind py_get]. unfold Dict.get_default.
    by rewrite DictFacts.get_set_eq, set_exclude_same.
Qed.

Lemma X17_witness :
  let fs' := snd (update_log Ex.rev Ex.ica_path (ICA (Ex.ica2 [1; 3])) Ex.disk0) in
  update_log Ex.rev Ex.ica_path (ICA (Ex.ica2 [1; 3])) fs' = (Ok tt, fs') /\
  reject Ex.rev Ex.ica_path (ICA (Ex.ica2 [1; 3])) true fs'
  = (Ok (ICA (Ex.ica2 [1; 3])), fs').
Proof.
  cbn zeta.
  exact (X17_ica_update_then_reject Ex.rev Ex.disk0 Ex.ica_path
           (Ex.ica2 [1; 3]) true
           (snd (update_log Ex.rev Ex.ica_path (ICA (Ex.ica2 [1; 3])) Ex.disk0))
           (run_eq _ _ ltac:(vm_compute; reflexivity)) eq_refl).
Defined.

Lemma as_numbers_nats (l : list nat) :
  as_numbers (JArr (JNat <$> l)) = Ok (num_of_nat <$> l).
Proof.
  unfold as_numbers. induction l as [|x l IH]; [done|].
  cbn [fmap list_fmap mapM]. cbn [JNat JInt as_number mbind res_bind].
  rewrite IH. done.
Qed.

Lemma num_in_own x (sel : list nat) :
  x ∈ sel -> num_in (num_of_nat x) (num_of_nat <$> sel) = true.
Proof.
  intros Hx. apply existsb_exists. exists (num_of_nat x). split.
  - apply list_elem_of_In, list_elem_of_fmap. eauto.
  - apply Qeq_bool_refl.
Qed.

Lemma forallb_same_members {A : Type} (h : A -> bool) l l' :
  (forall x, In x l <-> In x l') -> forallb h l = forallb h l'.
Proof.
  intros H. apply Bool.eq_true_iff_eq. rewrite !forallb_forall.
  split; intros Hall x Hx; apply Hall, H, Hx.
Qed.

Lemma to_drop_list l selection :
  to_drop (JArr l) selection
  = Ok (List.filter (fun x => negb (py_in (JNat x) l)) selection).
Proof.
  induction selection as [|x rest IH]; [done|].
  cbn [to_drop py_contains mbind res_bind List.filter]. rewrite IH.
  cbn [mbind res_bind]. by destruct (py_in (JNat x) l).
Qed.

Lemma drop_nothing e reason : drop e [] reason = Ok e.
Proof.
  unfold drop. cbn [forallb existsb negb]. unfold keep_at.
  rewrite (keep_from_none (fun _ => false)) by done.
  rewrite !(keep_from_all (fun _ => true)) by done.
  cbn [mark_dropped mbind res_bind]. by destruct e.
Qed.

(** What a check that passed tells of the record it leaves: it has a
    [params], with the [tmin] and the [tmax] of the epochs. *)
Lemma check_epochs_Ok_params e d t :
  _check_epochs_params e (JObj d) = Ok t ->
  exists d1 ps v1 v2,
    t = JObj d1 /\ Dict.get "params" d1 = Some ps /\
    getitem ps "tmin" = Ok v1 /\ py_eq (JNum (ep_tmin e)) v1 = true /\
    getitem ps "tmax" = Ok v2 /\ py_eq (JNum (ep_tmax e)) v2 = true.
Proof.
  unfold _check_epochs_params. destruct (Dict.mem "params" d) eqn:Hm.
  - cbn [negb getitem]. unfold Dict.mem in Hm.
    destruct (Dict.get "params" d) as [ps|] eqn:Hp; [|done].
    cbn [mbind res_bind].
    destruct (getitem ps "tmin") as [v1|] eqn:H1; [|done]. cbn [mbind res_bind].
    destruct (py_eq (JNum (ep_tmin e)) v1) eqn:E1; [|done]. cbn [negb].
    destruct (getitem ps "tmax") as [v2|] eqn:H2; [|done]. cbn [mbind res_bind].
    destruct (py_eq (JNum (ep_tmax e)) v2) eqn:E2; [|done]. cbn [negb].
    intros H. exists d, ps, v1, v2. split; [|done].
    repeat (match type of H with
      | (?a ≫= _) = _ => destruct a; [|done]; cbn [mbind res_bind] in H
      end).
    match type of H with (if ?b then _ else _) = _ => destruct b end;
      by simplify_eq.
  - cbn [negb]. intros [= <-].
    exists (Dict.set "params" (epochs_params e) d), (epochs_params e),
      (JNum (ep_tmin e)), (JNum (ep_tmax e)).
    rewrite DictFacts.get_set_eq. repeat (split; [done|]).
    cbn. by rewrite !Qeq_bool_refl.
Qed.

(** The check of epochs against a record that holds their own selection:
    every event of the epochs is looked up in the stored events. *)
Lemma check_epochs_reviewed e d ps v1 v2 evs :
  length (ep_events e) = length (ep_selection e) ->
  Dict.get "params" d = Some ps ->
  getitem ps "tmin" = Ok v1 -> py_eq (JNum (ep_tmin e)) v1 = true ->
  getitem ps "tmax" = Ok v2 -> py_eq (JNum (ep_tmax e)) v2 = true ->
  Dict.get "selection" d = Some (JArr (JNat <$> ep_selection e)) ->
  getitem ps "events" = Ok (JArr evs) ->
  _check_epochs_params e (JObj d)
  = if forallb (fun ev => py_in (JInt ev) evs) (ep_events e)
    then Ok (JObj d) else Raise (ValueError Mismatch_events).
Proof.
  intros Hlen Hp H1 E1 H2 E2 Hs Hev.
  destruct (events_to_check_Ok (ep_events e)
              (intersect1d (num_of_nat <$> ep_selection e)
                 (num_of_nat <$> ep_selection e))
              (ep_selection e) 0) as (to_check & Htc & Hmem); [simpl; lia|].
  unfold _check_epochs_params, Dict.mem. rewrite Hp.
  cbn [negb getitem mbind res_bind]. rewrite Hp. cbn [mbind res_bind].
  rewrite H1. cbn [mbind res_bind]. rewrite E1. cbn [negb].
  rewrite H2. cbn [mbind res_bind]. rewrite E2. cbn [negb].
  unfold prev_selection. rewrite Hs, as_numbers_nats. cbn [mbind res_bind].
  rewrite Htc. cbn [mbind res_bind]. rewrite Hev. cbn [mbind res_bind].
  rewrite all_in_list. cbn [mbind res_bind].
  rewrite (forallb_same_members _ to_check (ep_events e)); [done|].
  intros ev. rewrite Hmem. split.
  - intros (k & x & _ & He & _). apply list_elem_of_In.
    by eapply list_elem_of_lookup_2.
  - intros [k Hk]%list_elem_of_In%list_elem_of_lookup_1.
    destruct (lookup_lt_is_Some_2 (ep_selection e) k) as [x Hx].
    { rewrite <- Hlen. by eapply lookup_lt_Some. }
    exists k, x. repeat (split; [done|]).
    rewrite num_in_intersect1d by (by eapply list_elem_of_lookup_2).
    apply num_in_own. by eapply list_elem_of_lookup_2.
Qed.

(** The record that the assignments of [update_log] leave for epochs. *)
Lemma recorded_epochs e t rec :
  recorded (Epochs e) t = Ok rec ->
  exists d1 ps v1 v2,
    rec = JObj (Dict.set "selection" (JArr (JNat <$> ep_selection e))
                  (Dict.set "bads" (JArr (ep_bads e)) d1)) /\
    Dict.get "params" d1 = Some ps /\
    getitem ps "tmin" = Ok v1 /\ py_eq (JNum (ep_tmin e)) v1 = true /\
    getitem ps "tmax" = Ok v2 /\ py_eq (JNum (ep_tmax e)) v2 = true.
Proof.
  cbn [recorded]. destruct (_check_epochs_params e t) as [t'|] eqn:Hc; [|done].
  destruct t as [| | | | |d|]; try done.
  destruct (check_epochs_Ok_params _ _ _ Hc)
    as (d1 & ps & v1 & v2 & -> & Hp & H1 & E1 & H2 & E2).
  cbn [mbind res_bind setitem]. intros [= <-]. by exists d1, ps, v1, v2.
Qed.

(** X18.  When epochs are reviewed again after [update_log], every one of
    their events is looked up in the events of the stored snapshot, not only
    those of the epochs that the earlier selection had too: if they are all
    there, [update_log] of the same epochs changes nothing; if one is
    missing, [update_log] and [reject] raise the events mismatch. *)
Theorem X18_epochs_review_again git_hash fs p e required fs' :
  update_log git_hash p (Epochs e) fs = (Ok tt, fs') ->
  length (ep_events e) = length (ep_selection e) ->
  exists fname rec ps,
    epochs_fname e = Ok fname /\
    stored_record fs' p "epochs" fname = Some (JObj rec) /\
    Dict.get "params" rec = Some ps /\
    forall evs,
      getitem ps "events" = Ok (JArr evs) ->
      (forallb (fun ev => py_in (JInt ev) evs) (ep_events e) = true ->
       update_log git_hash p (Epochs e) fs' = (Ok tt, fs')) /\
      (forallb (fun ev => py_in (JInt ev) evs) (ep_events e) = false ->
       update_log git_hash p (Epochs e) fs'
       = (Raise (ValueError Mismatch_events), fs') /\
       reject git_hash p (Epochs e) required fs'
       = (Raise (ValueError Mismatch_events), fs')).
Proof.
  intros Hu Hlen.
  destruct (update_log_again git_hash p (Epochs e) fs fs' Hu)
    as (kind & fname & rec & Ht & Hst & Hrec & Hsame & Hraise); [done|].
  destruct (reject_after_update git_hash p (Epochs e) fs fs' required Hu)
    as (kind' & fname' & dl & m & rec' & Ht' & Hrec' & _ & _ & _ & Hrej); [done|].
  rewrite Ht in Ht'. injection Ht' as <- <-. rewrite Hrec in Hrec'.
  injection Hrec' as <-.
  cbn [target] in Ht. destruct (epochs_fname e) as [fname0|] eqn:Hf; [|done].
  cbn [mbind res_bind] in Ht. injection Ht as <- <-.
  destruct (recorded_epochs _ _ _ Hrec)
    as (d1 & ps & v1 & v2 & -> & Hp & H1 & E1 & H2 & E2).
  assert (Hp' : Dict.get "params"
                  (Dict.set "selection" (JArr (JNat <$> ep_selection e))
                     (Dict.set "bads" (JArr (ep_bads e)) d1)) = Some ps)
    by (by rewrite !DictFacts.get_set_ne).
  eexists fname0, _, ps. split; [done|]. split; [exact Hst|].
  split; [exact Hp'|]. intros evs Hev.
  pose proof (check_epochs_reviewed e _ ps v1 v2 evs Hlen Hp' H1 E1 H2 E2
                (DictFacts.get_set_eq _ _ _) Hev) as Hc.
  split; intros Hall; rewrite Hall in Hc.
  - apply Hsame. cbn [recorded]. rewrite Hc. cbn [mbind res_bind setitem].
    rewrite (DictFacts.set_id "bads" (JArr (ep_bads e)))
      by (rewrite DictFacts.get_set_ne by done; apply DictFacts.get_set_eq).
    by rewrite DictFacts.set_set.
  - split.
    + apply Hraise. cbn [recorded]. by rewrite Hc.
    + rewrite Hrej. cbn [applied]. by rewrite Hc.
Qed.

(** The log holds a review of three of the epochs, with the three events
    they had; the six epochs of the file pass the check once, on these
    three, and are refused the second time. *)
Lemma X18_witness :
  let fs := Ex.with_log (Ex.log_of "epochs" "sub1-epo.fif"
              (JObj [("params", JObj [("tmin", JNum (-2 # 10)); ("tmax", JNum 1);
                                      ("events", JArr [JInt 100; JInt 300; JInt 500])]);
                     ("bads", JArr []);
                     ("selection", JArr [JNat 0; JNat 2; JNat 4])])) in
  let i := Epochs (Ex.epochs6 (-2 # 10)) in
  let fs' := snd (update_log Ex.rev Ex.epo_path i fs) in
  fst (update_log Ex.rev Ex.epo_path i fs) = Ok tt /\
  update_log Ex.rev Ex.epo_path i fs' = (Raise (ValueError Mismatch_events), fs') /\
  reject Ex.rev Ex.epo_path i true fs' = (Raise (ValueError Mismatch_events), fs').
Proof.
  cbn zeta.
  assert (H : fst (update_log Ex.rev Ex.epo_path (Epochs (Ex.epochs6 (-2 # 10)))
                     (Ex.with_log (Ex.log_of "epochs" "sub1-epo.fif"
                        (JObj [("params", JObj [("tmin", JNum (-2 # 10));
                                                ("tmax", JNum 1);
                                                ("events", JArr [JInt 100; JInt 300;
                                                                 JInt 500])]);
                               ("bads", JArr []);
                               ("selection", JArr [JNat 0; JNat 2; JNat 4])]))))
              = Ok tt) by (vm_compute; reflexivity).
  split; [exact H|].
  destruct (X18_epochs_review_again Ex.rev _ Ex.epo_path (Ex.epochs6 (-2 # 10))
              true _ (run_eq _ _ H) eq_refl)
    as (fname & rec & ps & Hf & Hs & Hp & Hall).
  vm_compute in Hf. injection Hf as <-.
  vm_compute in Hs. injection Hs as <-.
  vm_compute in Hp. injection Hp as <-.
  destruct (Hall [JInt 100; JInt 300; JInt 500] eq_refl) as [_ Hfail].
  apply Hfail. vm_compute. reflexivity.
Defined.

Lemma applied_new_epochs e :
  length (ep_events e) = length (ep_selection e) ->
  forallb hashable (ep_bads e) = true ->
  _check_epochs_params e (new_record (Epochs e)) = Ok (new_record (Epochs e)) /\
  applied (Epochs e) (new_record (Epochs e))
  = Ok (Epochs (set_epochs_bads e (dedup_py (ep_bads e ++ ep_bads e)))).
Proof.
  intros Hlen Hh. cbn [new_record].
  assert (Hc : _check_epochs_params e
                 (JObj [("params", epochs_params e); ("bads", JArr (ep_bads e));
                        ("selection", JArr (JNat <$> ep_selection e))])
               = Ok (JObj [("params", epochs_params e); ("bads", JArr (ep_bads e));
                           ("selection", JArr (JNat <$> ep_selection e))])).
  { apply (check_epochs_own_snapshot e _ (num_of_nat <$> ep_selection e));
      [done|done|]. unfold prev_selection.
    cbn [Dict.get String.eqb Ascii.eqb Bool.eqb]. apply as_numbers_nats. }
  split; [done|]. cbn [applied]. rewrite Hc. cbn [mbind res_bind].
  rewrite mix_bads_own by done. cbn [mbind res_bind py_get].
  unfold Dict.get_default.
  cbn [Dict.get String.eqb Ascii.eqb Bool.eqb set_epochs_bads ep_selection
       ep_drop_log].
  rewrite to_drop_list. cbn [mbind res_bind].
  rewrite filter_none.
  - rewrite drop_idx_nil, drop_nothing. done.
  - intros x Hx. apply negb_false_iff.
    pose proof (in_own_selection _ _ Hx) as Hin. exact Hin.
Qed.

(** X19.  The first review of an epochs file: after [update_log] of epochs
    that had no record, [update_log] of the same epochs changes nothing and
    [reject] returns epochs whose [bads] are the channels they had, each
    once, and that are the same otherwise: no epoch is dropped. *)
Theorem X19_epochs_first_review git_hash fs p e fname required fs' :
  epochs_fname e = Ok fname ->
  stored_record fs p "epochs" fname = None ->
  update_log git_hash p (Epochs e) fs = (Ok tt, fs') ->
  length (ep_events e) = length (ep_selection e) ->
  forallb hashable (ep_bads e) = true ->
  update_log git_hash p (Epochs e) fs' = (Ok tt, fs') /\
  exists e',
    reject git_hash p (Epochs e) required fs' = (Ok (Epochs e'), fs') /\
    same_but_bads e e' /\
    py_distinct (ep_bads e') = true /\
    forall x, py_in x (ep_bads e') = py_in x (ep_bads e).
Proof.
  intros Hf Hnone Hu Hlen Hh.
  destruct (applied_new_epochs e Hlen Hh) as [Hc Ha].
  assert (Hnew : forall kind fname' rec,
            target p (Epochs e) = Ok (kind, fname') ->
            recorded (Epochs e) (record_or_empty fs p kind fname') = Ok rec ->
            rec = new_record (Epochs e)).
  { intros kind fname' rec Ht. cbn [target] in Ht. rewrite Hf in Ht.
    injection Ht as <- <-. unfold record_or_empty. rewrite Hnone, recorded_new.
    by intros [= <-]. }
  split.
  - destruct (update_log_again git_hash p (Epochs e) fs fs' Hu)
      as (kind & fname' & rec & Ht & _ & Hrec & Hsame & _); [done|].
    apply Hsame. rewrite (Hnew _ _ _ Ht Hrec). cbn [recorded]. rewrite Hc.
    cbn [new_record mbind res_bind setitem Dict.set String.eqb Ascii.eqb Bool.eqb].
    done.
  - destruct (reject_after_update git_hash p (Epochs e) fs fs' required Hu)
      as (kind & fname' & dl & m & rec & Ht & Hrec & _ & _ & _ & Hrej); [done|].
    rewrite (Hnew _ _ _ Ht Hrec), Ha in Hrej.
    exists (set_epochs_bads e (dedup_py (ep_bads e ++ ep_bads e))).
    split; [done|]. split; [by repeat split|]. cbn [set_epochs_bads ep_bads].
    split; [apply py_distinct_dedup|]. intros x. by apply py_in_own_dedup.
Qed.

Lemma X19_witness :
  let e := Ex.epochs6 (-2 # 10) in
  let fs' := snd (update_log Ex.rev Ex.epo_path (Epochs e) Ex.disk0) in
  update_log Ex.rev Ex.epo_path (Epochs e) fs' = (Ok tt, fs') /\
  exists e',
    reject Ex.rev Ex.epo_path (Epochs e) true fs' = (Ok (Epochs e'), fs') /\
    same_but_bads e e' /\
    py_distinct (ep_bads e') = true /\
    forall x, py_in x (ep_bads e') = py_in x (ep_bads e).
Proof.
  cbn zeta.
  exact (X19_epochs_first_review Ex.rev Ex.disk0 Ex.epo_path
           (Ex.epochs6 (-2 # 10)) "sub1-epo.fif" true
           (snd (update_log Ex.rev Ex.epo_path (Epochs (Ex.epochs6 (-2 # 10)))
                   Ex.disk0))
           eq_refl ltac:(vm_compute; reflexivity)
           (run_eq _ _ ltac:(vm_compute; reflexivity)) eq_refl eq_refl).
Defined.

(** * Paths that are directories, and required logs *)

(** X20.  For a directory that has a log, [is_cleaned] reads the log of the
    directory that contains it ([read_log(path.parent)]), and the log of
    the directory itself is only tested for existence: when the containing
    directory has no log, one is made there and the answer is [False]. *)
Theorem X20_is_cleaned_directory git_hash fs p kind :
  kind ∈ kinds ->
  is_dir fs p = true ->
  exists_ fs (joinpath p json_name) = true ->
  is_dir fs (parent p) = true ->
  node_at fs (joinpath (parent p) json_name) = None ->
  is_cleaned git_hash p kind fs
  = (Ok false,
     <[joinpath (parent p) json_name :=
         File (JsonText (JObj [("raws", JObj []); ("epochs", JObj []);
                               ("icas", JObj []);
                               ("config", JObj [("version", JStr git_hash)])]))]> fs).
Proof.
  intros Hk Hd He Hpd Hn.
  assert (Hf : forall q, is_dir fs q = true ->
                         _get_json_fname fs q = joinpath q json_name).
  { intros q Hq. unfold _get_json_fname, is_file, is_dir in *.
    by destruct (node_at fs q) as [[|]|]. }
  rewrite is_cleaned_eq, (kinds_valid _ Hk), (Hf _ Hd), He. cbn [negb].
  rewrite read_log_eq, log_source_eq, (Hf _ Hpd), Hn.
  cbn [fill_defaults default_key Dict.mem Dict.get Dict.set String.eqb
       Ascii.eqb Bool.eqb getitem mbind res_bind].
  unfold is_dir at 1. rewrite Hn, parent_joinpath, Hpd.
  revert Hk. unfold kinds. rewrite !elem_of_cons, elem_of_nil.
  by intros [->|[->|[->|[]]]].
Qed.

Lemma X20_witness :
  let fs := Ex.with_log (Ex.log_of "raws" "data" (JObj [("bads", JArr [])])) in
  fst (is_cleaned Ex.rev Ex.dir "raws" fs) = Ok false /\
  node_at (snd (is_cleaned Ex.rev Ex.dir "raws" fs)) ["eeg_cleaner.json"]
  = Some (File (JsonText Ex.empty_log)).
Proof.
  cbn zeta.
  rewrite (X20_is_cleaned_directory Ex.rev
             (Ex.with_log (Ex.log_of "raws" "data" (JObj [("bads", JArr [])])))
             Ex.dir "raws" ltac:(apply elem_of_cons; by left)
             ltac:(vm_compute; reflexivity) ltac:(vm_compute; reflexivity)
             ltac:(vm_compute; reflexivity) ltac:(vm_compute; reflexivity)).
  split; [reflexivity|]. cbn [snd]. vm_compute. reflexivity.
Defined.

(** X21.  [required] matters only where there is no log: [reject] then
    raises before it reads or writes anything, whatever the artifact; where
    the log exists, [reject] does the same with and without it. *)
Theorem X21_reject_required git_hash fs p i :
  (exists_ fs (_get_json_fname fs p) = false ->
   reject git_hash p i true fs = (Raise (ValueError MissingLog), fs)) /\
  (exists_ fs (_get_json_fname fs p) = true ->
   reject git_hash p i true fs = reject git_hash p i false fs).
Proof.
  split; intros He; rewrite !reject_eq, He; done.
Qed.

Lemma X21_witness :
  reject Ex.rev Ex.raw_path (Raw (Ex.raw_with ["Cz"])) true Ex.disk0
  = (Raise (ValueError MissingLog), Ex.disk0).
Proof.
  apply (proj1 (X21_reject_required Ex.rev Ex.disk0 Ex.raw_path
                  (Raw (Ex.raw_with ["Cz"])))).
  vm_compute. reflexivity.
Defined.
